(** * notion-autopilot: a shallow embedding of the poll-and-patch code

    The Python sources are embedded module by module.  Values that travel
    between the program and the remote workspace service are the JSON-like
    objects the client library hands out (dicts, lists, strings), so they
    are kept as a [json] tree with Python's accessors written out together
    with the exceptions they raise.  Every function of the program runs in
    a small effect monad [M]: it returns a value or raises, and it leaves a
    trace of the log records it emitted and of the client calls it issued. *)

From Stdlib Require Import String List ZArith Bool Arith Lia.
Import ListNotations.
Open Scope string_scope.
Open Scope list_scope.

(** ** Python values *)

Module Py.

(** What [except Exception] catches and what it lets through:
    [KeyboardInterrupt] derives from [BaseException] only. *)
Inductive exn : Type :=
| Exception (cls : string) (msg : string)
| KeyboardInterrupt.

(** The objects the client library hands out.  The program never computes
    with numbers; it only tests them for truth. *)
#[warnings="-register-all"] Inductive json : Type :=
| JNull
| JBool (b : bool)
| JInt (n : Z)
| JStr (s : string)
| JList (l : list json)
| JDict (d : list (string * json)).

Definition result (A : Type) : Type := (exn + A)%type.

(** [bool(v)] *)
Definition truthy (v : json) : bool :=
  match v with
  | JNull => false
  | JBool b => b
  | JInt n => negb (Z.eqb n 0)
  | JStr s => negb (String.eqb s "")
  | JList l => match l with [] => false | _ => true end
  | JDict d => match d with [] => false | _ => true end
  end.

Definition str_truthy (s : string) : bool := negb (String.eqb s "").

Definition opt_truthy (o : option string) : bool :=
  match o with
  | None => false
  | Some s => str_truthy s
  end.

Definition opt_json (o : option string) : json :=
  match o with
  | None => JNull
  | Some s => JStr s
  end.

(** Dictionaries keep insertion order; keys are strings. *)
Fixpoint lookup (k : string) (d : list (string * json)) : option json :=
  match d with
  | [] => None
  | (k', v) :: d' => if String.eqb k k' then Some v else lookup k d'
  end.

(** [d[k] = v]: overwrite in place, or append a new key. *)
Fixpoint setitem (k : string) (v : json) (d : list (string * json))
  : list (string * json) :=
  match d with
  | [] => [(k, v)]
  | (k', v') :: d' =>
      if String.eqb k k' then (k', v) :: d' else (k', v') :: setitem k v d'
  end.

Definition keys (d : list (string * json)) : list string := map fst d.

Definition type_name (v : json) : string :=
  match v with
  | JNull => "NoneType"
  | JBool _ => "bool"
  | JInt _ => "int"
  | JStr _ => "str"
  | JList _ => "list"
  | JDict _ => "dict"
  end.

(** [v[k]] with a string key. *)
Definition getitem (v : json) (k : string) : result json :=
  match v with
  | JDict d =>
      match lookup k d with
      | Some x => inr x
      | None => inl (Exception "KeyError" k)
      end
  | _ => inl (Exception "TypeError" (type_name v))
  end.

(** [v[0]] *)
Definition getitem0 (v : json) : result json :=
  match v with
  | JList [] => inl (Exception "IndexError" "list index out of range")
  | JList (x :: _) => inr x
  | JStr EmptyString => inl (Exception "IndexError" "string index out of range")
  | JStr (String c _) => inr (JStr (String c EmptyString))
  | JDict _ => inl (Exception "KeyError" "0")
  | _ => inl (Exception "TypeError" (type_name v))
  end.

(** [v.get(k, default)] *)
Definition get (v : json) (k : string) (default : json) : result json :=
  match v with
  | JDict d =>
      match lookup k d with
      | Some x => inr x
      | None => inr default
      end
  | _ => inl (Exception "AttributeError" (type_name v))
  end.

(** [v.items()] *)
Definition items (v : json) : result (list (string * json)) :=
  match v with
  | JDict d => inr d
  | _ => inl (Exception "AttributeError" (type_name v))
  end.

(** [v == s] for a string [s] *)
Definition eq_str (v : json) (s : string) : bool :=
  match v with
  | JStr t => String.eqb t s
  | _ => false
  end.

Fixpoint is_prefix (p s : string) : bool :=
  match p, s with
  | EmptyString, _ => true
  | String a p', String b s' => Ascii.eqb a b && is_prefix p' s'
  | String _ _, EmptyString => false
  end.

Fixpoint is_substring (p s : string) : bool :=
  is_prefix p s ||
  match s with
  | EmptyString => false
  | String _ s' => is_substring p s'
  end.

(** [k in v] for a string [k] *)
Definition contains (k : string) (v : json) : result bool :=
  match v with
  | JDict d =>
      inr (match lookup k d with Some _ => true | None => false end)
  | JList l => inr (existsb (fun x => eq_str x k) l)
  | JStr s => inr (is_substring k s)
  | _ => inl (Exception "TypeError" (type_name v))
  end.

Fixpoint chars (s : string) : list json :=
  match s with
  | EmptyString => []
  | String c s' => JStr (String c EmptyString) :: chars s'
  end.

(** The elements [for x in v] visits. *)
Definition iter (v : json) : result (list json) :=
  match v with
  | JList l => inr l
  | JDict d => inr (map (fun kv => JStr (fst kv)) d)
  | JStr s => inr (chars s)
  | _ => inl (Exception "TypeError" (type_name v))
  end.

(** [len(v)] *)
Definition len (v : json) : result nat :=
  match v with
  | JList l => inr (List.length l)
  | JDict d => inr (List.length d)
  | JStr s => inr (String.length s)
  | _ => inl (Exception "TypeError" (type_name v))
  end.

End Py.

(** ** Effects: log records, client calls, exceptions *)

Module Eff.
Import Py.

Inductive level : Type := DEBUG | INFO | WARNING | ERROR.

(** The endpoints of the remote table client the program uses. *)
Inductive endpoint : Type :=
| databases_query
| databases_retrieve
| pages_create
| pages_retrieve
| pages_update
| blocks_children_append.

(** A value interpolated into a log record. *)
Inductive arg : Type :=
| AJson (v : json)
| AInt (n : nat)
| AExn (e : exn).

(** A log record keeps the text of the source's format string and the
    values interpolated into it, in order. *)
Inductive event : Type :=
| Log (lv : level) (fmt : string) (args : list arg)
| Call (ep : endpoint) (kwargs : list (string * json)).

Definition trace : Type := list event.

Definition M (A : Type) : Type := (trace * result A)%type.

Definition ret {A : Type} (a : A) : M A := ([], inr a).

Definition raise {A : Type} (e : exn) : M A := ([], inl e).

Definition bind {A B : Type} (m : M A) (k : A -> M B) : M B :=
  match m with
  | (t, inl e) => (t, inl e)
  | (t, inr a) => let (t', r) := k a in (t ++ t', r)
  end.

Definition lift {A : Type} (r : result A) : M A := ([], r).

Definition log (lv : level) (fmt : string) (args : list arg) : M unit :=
  ([Log lv fmt args], inr tt).

(** [try: body  except Exception as e: handler e] *)
Definition try_except {A : Type} (body : M A) (handler : exn -> M A) : M A :=
  match body with
  | (t, inl (Exception cls msg)) =>
      let (t', r) := handler (Exception cls msg) in (t ++ t', r)
  | other => other
  end.

(** [try: body  except KeyboardInterrupt: handler] *)
Definition try_except_interrupt {A : Type} (body : M A) (handler : M A) : M A :=
  match body with
  | (t, inl KeyboardInterrupt) => let (t', r) := handler in (t ++ t', r)
  | other => other
  end.

(** The remote table client: what each endpoint answers to a call. *)
Definition Client : Type := endpoint -> list (string * json) -> result json.

Definition call (notion : Client) (ep : endpoint) (kwargs : list (string * json))
  : M json :=
  ([Call ep kwargs], notion ep kwargs).

Definition events {A : Type} (m : M A) : trace := fst m.
Definition outcome {A : Type} (m : M A) : result A := snd m.

(** The calls of a trace that reach endpoint [ep]. *)
Definition is_call (ep : endpoint) (e : event) : bool :=
  match e with
  | Call ep' _ =>
      match ep, ep' with
      | databases_query, databases_query
      | databases_retrieve, databases_retrieve
      | pages_create, pages_create
      | pages_retrieve, pages_retrieve
      | pages_update, pages_update
      | blocks_children_append, blocks_children_append => true
      | _, _ => false
      end
  | Log _ _ _ => false
  end.

Definition calls_to (ep : endpoint) (t : trace) : trace := filter (is_call ep) t.

Definition is_any_call (e : event) : bool :=
  match e with
  | Call _ _ => true
  | Log _ _ _ => false
  end.

Definition is_log_at (lv : level) (e : event) : bool :=
  match e with
  | Log lv' _ _ =>
      match lv, lv' with
      | DEBUG, DEBUG | INFO, INFO | WARNING, WARNING | ERROR, ERROR => true
      | _, _ => false
      end
  | Call _ _ => false
  end.

(** Run [f] over a list, left to right, stopping at the first exception. *)
Fixpoint mapM {A B : Type} (f : A -> M B) (l : list A) : M (list B) :=
  match l with
  | [] => ret []
  | x :: l' => bind (f x) (fun y => bind (mapM f l') (fun ys => ret (y :: ys)))
  end.

End Eff.

Declare Scope eff_scope.
Delimit Scope eff_scope with eff.
Notation "x <- m ;; k" := (Eff.bind m (fun x => k))
  (at level 61, m at next level, right associativity) : eff_scope.
Notation "m ;;; k" := (Eff.bind m (fun _ => k))
  (at level 61, right associativity) : eff_scope.
Open Scope eff_scope.

(** ** The host the program runs on *)

Module Host.
Import Py Eff.

(** What the process sees outside the remote store: the [.env] loader, the
    environment variables, and the client constructor [Client(auth=...)]. *)
Record t : Type := {
  load_dotenv : string -> result unit;
  getenv : string -> option string;
  new_client : json -> result Client
}.

End Host.

(** ** basic_operations.py *)

Module basic_operations.
Import Py Eff.

Definition load_config (host : Host.t) : M json :=
  lift (Host.load_dotenv host "config/.env") ;;;
  ret (JDict [("notion_api_key", opt_json (Host.getenv host "NOTION_API_KEY"));
              ("projects_db", opt_json (Host.getenv host "NOTION_PROJECTS_DB"));
              ("tasks_db", opt_json (Host.getenv host "NOTION_TASKS_DB"))]).

Definition initialize_notion_client (host : Host.t) (config : json) : M Client :=
  auth <- lift (getitem config "notion_api_key") ;;
  lift (Host.new_client host auth).

(** The inner loop of [list_database_items]: the title of one item, taken
    from the first column of type title that holds a non-empty value. *)
Fixpoint item_title (props : list (string * json)) : M json :=
  match props with
  | [] => ret (JStr "Untitled")
  | (prop_name, prop_data) :: rest =>
      ty <- lift (get prop_data "type" JNull) ;;
      if eq_str ty "title" then
        t <- lift (get prop_data "title" JNull) ;;
        if truthy t then
          t' <- lift (getitem prop_data "title") ;;
          if truthy t' then
            t'' <- lift (getitem prop_data "title") ;;
            first <- lift (getitem0 t'') ;;
            text <- lift (getitem first "text") ;;
            lift (getitem text "content")
          else ret (JStr "Untitled")
        else item_title rest
      else item_title rest
  end.

Definition log_item (item : json) : M unit :=
  props <- lift (getitem item "properties") ;;
  its <- lift (items props) ;;
  title <- item_title its ;;
  id <- lift (getitem item "id") ;;
  log INFO "- {title} (ID: {item['id']})" [AJson title; AJson id].

Definition list_database_items (notion : Client) (database_id : json) : M json :=
  log INFO "Fetching items from database {database_id}" [AJson database_id] ;;;
  response <- call notion databases_query [("database_id", database_id)] ;;
  its <- lift (get response "results" (JList [])) ;;
  n <- lift (len its) ;;
  log INFO "Found {len(items)} items" [AInt n] ;;;
  l <- lift (iter its) ;;
  mapM log_item l ;;;
  ret its.

(** What the scan of the column definitions has found so far. *)
Record found : Type := {
  title_property : option string;
  status_property : option string;
  status_options : list json
}.

Definition scan_step (st : found) (prop : string * json) : M found :=
  let (prop_name, prop_data) := prop in
  ty <- lift (getitem prop_data "type") ;;
  if eq_str ty "title" then
    ret {| title_property := Some prop_name;
           status_property := status_property st;
           status_options := status_options st |}
  else
  ty' <- lift (getitem prop_data "type") ;;
  if eq_str ty' "status" then
    has_status <- lift (contains "status" prop_data) ;;
    has_options <-
      (if has_status then
         s <- lift (getitem prop_data "status") ;;
         lift (contains "options" s)
       else ret false) ;;
    if has_options then
      s <- lift (getitem prop_data "status") ;;
      opts <- lift (getitem s "options") ;;
      l <- lift (iter opts) ;;
      names <- mapM (fun option => lift (getitem option "name")) l ;;
      ret {| title_property := title_property st;
             status_property := Some prop_name;
             status_options := names |}
    else
      ret {| title_property := title_property st;
             status_property := Some prop_name;
             status_options := status_options st |}
  else ret st.

Fixpoint scan (props : list (string * json)) (st : found) : M found :=
  match props with
  | [] => ret st
  | prop :: rest => st' <- scan_step st prop ;; scan rest st'
  end.

Definition title_value (title : string) : json :=
  JDict [("title", JList [JDict [("text", JDict [("content", JStr title)])]])].

Definition status_value (name : json) : json :=
  JDict [("status", JDict [("name", name)])].

(** [status in status_options] *)
Definition status_in (status : string) (options : list json) : bool :=
  existsb (fun v => eq_str v status) options.

(** The status part of the property map: the two [if]/[elif] ladders that
    follow the title. *)
Definition add_status (st : found) (status : option string)
  (properties : list (string * json)) : M (list (string * json)) :=
  match status_property st with
  | Some sp =>
      if str_truthy sp && opt_truthy status then
        match status with
        | Some s =>
            if status_in s (status_options st) then
              ret (setitem sp (status_value (JStr s)) properties)
            else
              match status_options st with
              | first :: _ =>
                  log WARNING "Status '{status}' not found. Using '{status_options[0]}' instead."
                    [AJson (JStr s); AJson first] ;;;
                  ret (setitem sp (status_value first) properties)
              | [] => ret properties
              end
        | None => ret properties
        end
      else if str_truthy sp then
        match status_options st with
        | first :: _ =>
            log INFO "No status specified. Using '{status_options[0]}' by default."
              [AJson first] ;;;
            ret (setitem sp (status_value first) properties)
        | [] => ret properties
        end
      else ret properties
  | None => ret properties
  end.

(** The [try] block that closes [create_new_entry]. *)
Definition create_page (notion : Client) (database_id : json)
  (properties : list (string * json)) : M json :=
  try_except
    (new_page <- call notion pages_create
                   [("parent", JDict [("database_id", database_id)]);
                    ("properties", JDict properties)] ;;
     id <- lift (getitem new_page "id") ;;
     log INFO "Created new entry with ID: {new_page['id']}" [AJson id] ;;;
     id' <- lift (getitem new_page "id") ;;
     ret id')
    (fun e =>
       log ERROR "Error creating entry: {e}" [AExn e] ;;;
       ret JNull).

(** [create_new_entry] from the end of the scan on: [st] is what the scan
    has found. *)
Definition create_with (notion : Client) (database_id : json)
  (title : string) (status : option string) (st : found) : M json :=
  log INFO "Found title property: {title_property}"
    [AJson (opt_json (title_property st))] ;;;
  log INFO "Found status property: {status_property}"
    [AJson (opt_json (status_property st))] ;;;
  log INFO "Available status options: {status_options}"
    [AJson (JList (status_options st))] ;;;
  if opt_truthy (title_property st) then
    match title_property st with
    | Some tp =>
        properties <- add_status st status (setitem tp (title_value title) []) ;;
        create_page notion database_id properties
    | None => ret JNull
    end
  else
    log ERROR "Could not find title property in database" [] ;;;
    ret JNull.

Definition create_new_entry (notion : Client) (database_id : json)
  (title : string) (status : option string) : M json :=
  log INFO "Creating new entry: {title}" [AJson (JStr title)] ;;;
  database <- call notion databases_retrieve [("database_id", database_id)] ;;
  props <- lift (getitem database "properties") ;;
  its <- lift (items props) ;;
  st <- scan its {| title_property := None;
                    status_property := None;
                    status_options := [] |} ;;
  create_with notion database_id title status st.

(** The loop of [update_entry_status]: the first column of type status. *)
Fixpoint find_status (props : list (string * json)) : M (option string) :=
  match props with
  | [] => ret None
  | (prop_name, prop_data) :: rest =>
      ty <- lift (getitem prop_data "type") ;;
      if eq_str ty "status" then ret (Some prop_name) else find_status rest
  end.

Definition update_entry_status (notion : Client) (page_id : json)
  (new_status : string) : M bool :=
  if negb (truthy page_id) then
    log ERROR "Cannot update entry: No page ID provided" [] ;;;
    ret false
  else
    log INFO "Updating entry {page_id} to status: {new_status}"
      [AJson page_id; AJson (JStr new_status)] ;;;
    try_except
      (page <- call notion pages_retrieve [("page_id", page_id)] ;;
       props <- lift (getitem page "properties") ;;
       its <- lift (items props) ;;
       sp <- find_status its ;;
       if negb (opt_truthy sp) then
         log ERROR "Could not find status property in the page" [] ;;;
         ret false
       else
         match sp with
         | Some status_property =>
             call notion pages_update
               [("page_id", page_id);
                ("properties",
                  JDict [(status_property, status_value (JStr new_status))])] ;;;
             log INFO "Updated entry status successfully" [] ;;;
             ret true
         | None => ret false
         end)
      (fun e =>
         log ERROR "Error updating entry status: {e}" [AExn e] ;;;
         ret false).

End basic_operations.

(** ** notion/post_tasks.py *)

Module post_tasks.
Import Py Eff.

Definition update_task (notion : Client) (task_id : json) (properties : json)
  : M json :=
  try_except
    (log INFO "Updating task {task_id}" [AJson task_id] ;;;
     response <- call notion pages_update
                   [("page_id", task_id); ("properties", properties)] ;;
     log INFO "Successfully updated task {task_id}" [AJson task_id] ;;;
     ret response)
    (fun e =>
       log ERROR "Error updating task {task_id}: {e}" [AJson task_id; AExn e] ;;;
       raise e).

Definition create_task (notion : Client) (database_id : json) (properties : json)
  : M json :=
  try_except
    (log INFO "Creating new task in database {database_id}" [AJson database_id] ;;;
     response <- call notion pages_create
                   [("parent", JDict [("database_id", database_id)]);
                    ("properties", properties)] ;;
     id <- lift (getitem response "id") ;;
     log INFO "Successfully created task {response['id']}" [AJson id] ;;;
     ret response)
    (fun e =>
       log ERROR "Error creating task: {e}" [AExn e] ;;;
       raise e).

Definition update_project_status (notion : Client) (project_id : json)
  (status : json) : M json :=
  try_except
    (log INFO "Updating project {project_id} status to {status}"
       [AJson project_id; AJson status] ;;;
     response <- call notion pages_update
                   [("page_id", project_id);
                    ("properties",
                      JDict [("Status", JDict [("status", JDict [("name", status)])])])] ;;
     log INFO "Successfully updated project {project_id} status" [AJson project_id] ;;;
     ret response)
    (fun e =>
       log ERROR "Error updating project {project_id} status: {e}"
         [AJson project_id; AExn e] ;;;
       raise e).

Definition append_to_page (notion : Client) (page_id : json) (content_blocks : json)
  : M json :=
  try_except
    (log INFO "Appending content to page {page_id}" [AJson page_id] ;;;
     response <- call notion blocks_children_append
                   [("block_id", page_id); ("children", content_blocks)] ;;
     log INFO "Successfully appended content to page {page_id}" [AJson page_id] ;;;
     ret response)
    (fun e =>
       log ERROR "Error appending to page {page_id}: {e}" [AJson page_id; AExn e] ;;;
       raise e).

(** [now] is the value of [datetime.now().isoformat()] at the call. *)
Definition create_dashboard_update (now : string) (notion : Client)
  (dashboard_id : json) (title : json) (content_blocks : json) : M json :=
  try_except
    (log INFO "Creating dashboard update '{title}' in database {dashboard_id}"
       [AJson title; AJson dashboard_id] ;;;
     page <- call notion pages_create
               [("parent", JDict [("database_id", dashboard_id)]);
                ("properties",
                  JDict [("Name",
                           JDict [("title",
                                    JList [JDict [("text", JDict [("content", title)])]])]);
                         ("Date", JDict [("date", JDict [("start", JStr now)])])])] ;;
     (if truthy content_blocks then
        id <- lift (getitem page "id") ;;
        call notion blocks_children_append
          [("block_id", id); ("children", content_blocks)] ;;;
        ret tt
      else ret tt) ;;;
     id <- lift (getitem page "id") ;;
     log INFO "Successfully created dashboard update {page['id']}" [AJson id] ;;;
     ret page)
    (fun e =>
       log ERROR "Error creating dashboard update: {e}" [AExn e] ;;;
       raise e).

End post_tasks.

(** ** notion/fetch_pages.py *)

Module fetch_pages.
Import Py Eff.

(** [properties.get('Name', {}).get('title', [{}])[0].get('plain_text', placeholder)],
    the expression the three readers share up to the placeholder. *)
Definition title_of (properties : json) (placeholder : string) : result json :=
  match get properties "Name" (JDict []) with
  | inl e => inl e
  | inr name =>
      match get name "title" (JList [JDict []]) with
      | inl e => inl e
      | inr run =>
          match getitem0 run with
          | inl e => inl e
          | inr first => get first "plain_text" (JStr placeholder)
          end
      end
  end.

(** [properties.get(column, {}).get(key, {}).get('name', default)] *)
Definition name_of (properties : json) (column key default : string) : result json :=
  match get properties column (JDict []) with
  | inl e => inl e
  | inr c =>
      match get c key (JDict []) with
      | inl e => inl e
      | inr v => get v "name" (JStr default)
      end
  end.

Definition format_project (project : json) : M json :=
  id <- lift (getitem project "id") ;;
  p1 <- lift (getitem project "properties") ;;
  title <- lift (title_of p1 "Untitled Project") ;;
  p2 <- lift (getitem project "properties") ;;
  status <- lift (name_of p2 "Status" "status" "Not Started") ;;
  p3 <- lift (getitem project "properties") ;;
  priority <- lift (name_of p3 "Priority" "select" "Medium") ;;
  created_time <- lift (getitem project "created_time") ;;
  last_edited_time <- lift (getitem project "last_edited_time") ;;
  url <- lift (getitem project "url") ;;
  ret (JDict [("id", id); ("title", title); ("status", status);
              ("priority", priority); ("created_time", created_time);
              ("last_edited_time", last_edited_time); ("url", url)]).

Definition status_filter : json :=
  JDict [("property", JStr "Status");
         ("status", JDict [("does_not_equal", JStr "Completed")])].

Definition sort_by (property direction : string) : json :=
  JList [JDict [("property", JStr property); ("direction", JStr direction)]].

Definition get_projects (notion : Client) (database_id : json) : M json :=
  try_except
    (log INFO "Fetching projects from database {database_id}" [AJson database_id] ;;;
     response <- call notion databases_query
                   [("database_id", database_id);
                    ("filter", status_filter);
                    ("sorts", sort_by "Priority" "descending")] ;;
     projects <- lift (get response "results" (JList [])) ;;
     n <- lift (len projects) ;;
     log INFO "Successfully fetched {len(projects)} projects" [AInt n] ;;;
     l <- lift (iter projects) ;;
     formatted_projects <- mapM format_project l ;;
     ret (JList formatted_projects))
    (fun e =>
       log ERROR "Error fetching projects: {e}" [AExn e] ;;;
       raise e).

Definition format_task (task : json) : M json :=
  p1 <- lift (getitem task "properties") ;;
  d <- lift (get p1 "Due Date" (JDict [])) ;;
  due_date_prop <- lift (get d "date" (JDict [])) ;;
  due_date <- (if truthy due_date_prop then lift (get due_date_prop "start" JNull)
               else ret JNull) ;;
  p2 <- lift (getitem task "properties") ;;
  r <- lift (get p2 "Project" (JDict [])) ;;
  project_relation <- lift (get r "relation" (JList [])) ;;
  project_id <- (if truthy project_relation then
                   first <- lift (getitem0 project_relation) ;;
                   lift (get first "id" JNull)
                 else ret JNull) ;;
  id <- lift (getitem task "id") ;;
  p3 <- lift (getitem task "properties") ;;
  title <- lift (title_of p3 "Untitled Task") ;;
  p4 <- lift (getitem task "properties") ;;
  status <- lift (name_of p4 "Status" "status" "Not Started") ;;
  created_time <- lift (getitem task "created_time") ;;
  last_edited_time <- lift (getitem task "last_edited_time") ;;
  url <- lift (getitem task "url") ;;
  ret (JDict [("id", id); ("title", title); ("status", status);
              ("due_date", due_date); ("project_id", project_id);
              ("created_time", created_time);
              ("last_edited_time", last_edited_time); ("url", url)]).

Definition get_tasks (notion : Client) (database_id : json) : M json :=
  try_except
    (log INFO "Fetching tasks from database {database_id}" [AJson database_id] ;;;
     response <- call notion databases_query
                   [("database_id", database_id);
                    ("filter", status_filter);
                    ("sorts", sort_by "Due Date" "ascending")] ;;
     tasks <- lift (get response "results" (JList [])) ;;
     n <- lift (len tasks) ;;
     log INFO "Successfully fetched {len(tasks)} tasks" [AInt n] ;;;
     l <- lift (iter tasks) ;;
     formatted_tasks <- mapM format_task l ;;
     ret (JList formatted_tasks))
    (fun e =>
       log ERROR "Error fetching tasks: {e}" [AExn e] ;;;
       raise e).

(** [prompt_text += block.get('plain_text', '')] over the rich-text run. *)
Fixpoint concat_text (acc : string) (blocks : list json) : result string :=
  match blocks with
  | [] => inr acc
  | block :: rest =>
      match get block "plain_text" (JStr "") with
      | inl e => inl e
      | inr (JStr s) => concat_text (String.append acc s) rest
      | inr v => inl (Exception "TypeError" (type_name v))
      end
  end.

Fixpoint tag_names (tags : list json) : result (list json) :=
  match tags with
  | [] => inr []
  | tag :: rest =>
      match get tag "name" JNull with
      | inl e => inl e
      | inr n =>
          match tag_names rest with
          | inl e => inl e
          | inr ns => inr (n :: ns)
          end
      end
  end.

Definition format_prompt (prompt : json) : M json :=
  p1 <- lift (getitem prompt "properties") ;;
  category <- lift (name_of p1 "Category" "select" "Uncategorized") ;;
  p2 <- lift (getitem prompt "properties") ;;
  t <- lift (get p2 "Tags" (JDict [])) ;;
  tags_multi_select <- lift (get t "multi_select" (JList [])) ;;
  tags <- (if truthy tags_multi_select then
             l <- lift (iter tags_multi_select) ;;
             lift (tag_names l)
           else ret []) ;;
  p3 <- lift (getitem prompt "properties") ;;
  pt <- lift (get p3 "Prompt Text" (JDict [])) ;;
  rich_text_blocks <- lift (get pt "rich_text" (JList [])) ;;
  blocks <- lift (iter rich_text_blocks) ;;
  prompt_text <- lift (concat_text "" blocks) ;;
  id <- lift (getitem prompt "id") ;;
  p4 <- lift (getitem prompt "properties") ;;
  title <- lift (title_of p4 "Untitled Prompt") ;;
  created_time <- lift (getitem prompt "created_time") ;;
  last_edited_time <- lift (getitem prompt "last_edited_time") ;;
  url <- lift (getitem prompt "url") ;;
  ret (JDict [("id", id); ("title", title); ("category", category);
              ("tags", JList tags); ("prompt_text", JStr prompt_text);
              ("created_time", created_time);
              ("last_edited_time", last_edited_time); ("url", url)]).

Definition get_prompt_library (notion : Client) (database_id : json) : M json :=
  try_except
    (log INFO "Fetching prompts from database {database_id}" [AJson database_id] ;;;
     response <- call notion databases_query
                   [("database_id", database_id);
                    ("sorts", sort_by "Category" "ascending")] ;;
     prompts <- lift (get response "results" (JList [])) ;;
     n <- lift (len prompts) ;;
     log INFO "Successfully fetched {len(prompts)} prompts" [AInt n] ;;;
     l <- lift (iter prompts) ;;
     formatted_prompts <- mapM format_prompt l ;;
     ret (JList formatted_prompts))
    (fun e =>
       log ERROR "Error fetching prompts: {e}" [AExn e] ;;;
       raise e).

End fetch_pages.

(** ** The local file system the audit sink writes to *)

Module Fs.
Import Py.

(** Path to content. *)
Definition files : Type := list (string * string).

Inductive op : Type :=
| Open (path mode : string)
| Write (path data : string)
| Close (path : string).

(** Which operations fail, and with what exception: its class (an
    [OSError] such as [PermissionError], or any other subclass of
    [Exception]) and its message. *)
Definition faults : Type := op -> option (string * string).

Definition failure (f : string * string) : exn := Exception (fst f) (snd f).

Fixpoint read (fs : files) (path : string) : option string :=
  match fs with
  | [] => None
  | (p, c) :: fs' => if String.eqb path p then Some c else read fs' path
  end.

Fixpoint store (fs : files) (path content : string) : files :=
  match fs with
  | [] => [(path, content)]
  | (p, c) :: fs' =>
      if String.eqb path p then (p, content) :: fs' else (p, c) :: store fs' path content
  end.

(** [os.path.exists(path)] *)
Definition exists_ (fs : files) (path : string) : bool :=
  match read fs path with
  | Some _ => true
  | None => false
  end.

(** The file as [open(path, mode)] leaves it: mode w truncates, mode a
    creates the file when it is missing. *)
Definition opened (fs : files) (path mode : string) : files :=
  if String.eqb mode "w" then store fs path ""
  else match read fs path with
       | Some _ => fs
       | None => store fs path ""
       end.

Definition appended (fs : files) (path data : string) : files :=
  match read fs path with
  | Some c => store fs path (String.append c data)
  | None => store fs path data
  end.

(** [with open(path, mode) as f: f.write(data)]: the file is closed on the
    way out whether or not the write raised; an error on close wins. *)
Definition with_open_write (ft : faults) (fs : files) (path mode data : string)
  : result unit * files :=
  match ft (Open path mode) with
  | Some f => (inl (failure f), fs)
  | None =>
      let fs1 := opened fs path mode in
      match ft (Write path data) with
      | Some f =>
          match ft (Close path) with
          | Some f' => (inl (failure f'), fs1)
          | None => (inl (failure f), fs1)
          end
      | None =>
          let fs2 := appended fs1 path data in
          match ft (Close path) with
          | Some f' => (inl (failure f'), fs2)
          | None => (inr tt, fs2)
          end
      end
  end.

End Fs.

(** ** notion/updater.py *)

Module updater.
Import Py Eff.

Definition nl : string := String (Ascii.ascii_of_nat 10) EmptyString.

Definition changelog_path : string := "data/changelog.csv".

Definition changelog_header : string :=
  String.append "timestamp,status,message" nl.

Definition changelog_line (timestamp status message : string) : string :=
  String.append timestamp
    (String.append ","
       (String.append status
          (String.append "," (String.append message nl)))).

(** [timestamp] is [datetime.now().strftime("%Y-%m-%d %H:%M:%S")] at the
    call.  The file system is threaded by hand: what was written before a
    failure stays written.  [Fs.files] holds the files the function opens
    itself.  The records it logs are events of the trace: where the
    handlers configured at import put them (the console and the file
    data/notion_autopilot.log) is not part of [Fs.files]. *)
Definition update_changelog (ft : Fs.faults) (fs : Fs.files)
  (timestamp message status : string) : M unit * Fs.files :=
  let (r1, fs1) :=
    if negb (Fs.exists_ fs changelog_path) then
      Fs.with_open_write ft fs changelog_path "w" changelog_header
    else (inr tt, fs) in
  let (r2, fs2) :=
    match r1 with
    | inl e => (inl e, fs1)
    | inr _ =>
        Fs.with_open_write ft fs1 changelog_path "a"
          (changelog_line timestamp status message)
    end in
  (try_except
     (lift r2 ;;;
      log DEBUG "Added to changelog: {message}" [AJson (JStr message)])
     (fun e => log ERROR "Failed to update changelog: {e}" [AExn e]),
   fs2).

End updater.

(** ** scheduled_refresh.py *)

Module scheduled_refresh.
Import Py Eff.

(** The [try] block of [perform_refresh]. *)
Definition refresh_body (host : Host.t) : M bool :=
  config <- basic_operations.load_config host ;;
  notion <- basic_operations.initialize_notion_client host config ;;
  projects_db <- lift (get config "projects_db" JNull) ;;
  (if truthy projects_db then
     log INFO "Refreshing projects database" [] ;;;
     projects <- basic_operations.list_database_items notion projects_db ;;
     n <- lift (len projects) ;;
     log INFO "Found {len(projects)} projects" [AInt n]
   else ret tt) ;;;
  log INFO "Refresh completed successfully" [] ;;;
  ret true.

(** [now] is the clock reading the first log record prints. *)
Definition perform_refresh (host : Host.t) (now : nat) : M bool :=
  log INFO "Starting scheduled refresh at {datetime.now().strftime('%Y-%m-%d %H:%M:%S')}" [AInt now] ;;;
  try_except
    (refresh_body host)
    (fun e =>
       log ERROR "Error during refresh: {e}" [AExn e] ;;;
       ret false).

(** A job on the default scheduler of the [schedule] package, as
    [every(n).minutes.do(perform_refresh)] registers it: its period in
    seconds and the time of its next run, in seconds from the call of
    [start_scheduler] under study (negative when the job was already
    overdue then). *)
Record job : Type := {
  period : nat;
  next_run : Z
}.

(** What happens around the scheduler while it runs: the jobs that
    earlier calls of [start_scheduler] in the same process have left on
    the default scheduler (a job is never cancelled; there is none when
    the call is the first of its process), the host the k-th cycle finds,
    the clock time (in seconds) that cycle takes, and whether an interrupt
    signal arrives during the sleep of the i-th loop turn. *)
Record World : Type := {
  registered : list job;
  cycle_host : nat -> Host.t;
  cycle_elapsed : nat -> nat;
  sleep_interrupted : nat -> bool
}.

(** The state of the running scheduler.  The clock counts seconds from the
    call of [start_scheduler].  [jobs] is the job list of the default
    scheduler, in the order of registration.  [cycles] counts the calls
    of [perform_refresh] so far, by whichever job. *)
Record sched : Type := {
  clock : nat;
  jobs : list job;
  cycles : nat;
  turns : nat;
  logged : trace
}.

(** One call of [perform_refresh]. *)
Definition run_job (w : World) (st : sched) : result bool * sched :=
  let (t, r) := perform_refresh (cycle_host w (cycles st)) (clock st) in
  (r, {| clock := clock st + cycle_elapsed w (cycles st);
         jobs := jobs st;
         cycles := S (cycles st);
         turns := turns st;
         logged := logged st ++ t |}).

(** [job.should_run]: the clock has reached the time of the next run. *)
Definition should_run (now : nat) (j : job) : bool :=
  Z.leb (next_run j) (Z.of_nat now).

(** What [job.run()] does to the job once its function has returned: the
    next run is one period after the clock reading at that moment. *)
Definition rescheduled (now : nat) (j : job) : job :=
  {| period := period j; next_run := Z.of_nat (now + period j) |}.

Fixpoint reschedule (i : nat) (now : nat) (js : list job) : list job :=
  match js, i with
  | [], _ => []
  | j :: js', 0 => rescheduled now j :: js'
  | j :: js', S i' => j :: reschedule i' now js'
  end.

Definition reschedule_job (i : nat) (st : sched) : sched :=
  {| clock := clock st;
     jobs := reschedule i (clock st) (jobs st);
     cycles := cycles st;
     turns := turns st;
     logged := logged st |}.

(** [sorted(...)] on jobs, which compare by the time of their next run:
    a stable sort, written as insertion. *)
Fixpoint insert_job (x : nat * job) (l : list (nat * job)) : list (nat * job) :=
  match l with
  | [] => [x]
  | y :: l' =>
      if Z.ltb (next_run (snd x)) (next_run (snd y)) then x :: y :: l'
      else y :: insert_job x l'
  end.

Definition sorted (l : list (nat * job)) : list (nat * job) :=
  fold_left (fun acc x => insert_job x acc) l [].

(** [sorted(job for job in self.jobs if job.should_run)]: the positions,
    in the job list, of the jobs that are due at the poll, in the order in
    which they will run. *)
Definition runnable (now : nat) (js : list job) : list nat :=
  map fst
    (sorted (filter (fun x => should_run now (snd x))
               (combine (seq 0 (List.length js)) js))).

(** [for job in ...: self._run_job(job)]: an exception of a job leaves
    the loop at once, before the job is rescheduled. *)
Fixpoint run_jobs (w : World) (ids : list nat) (st : sched) : result unit * sched :=
  match ids with
  | [] => (inr tt, st)
  | i :: rest =>
      match run_job w st with
      | (inl e, st1) => (inl e, st1)
      | (inr _, st1) => run_jobs w rest (reschedule_job i st1)
      end
  end.

(** [schedule.run_pending()] *)
Definition run_pending (w : World) (st : sched) : result unit * sched :=
  run_jobs w (runnable (clock st) (jobs st)) st.

(** [time.sleep(1)] *)
Definition sleep1 (w : World) (st : sched) : result unit * sched :=
  if sleep_interrupted w (turns st) then (inl KeyboardInterrupt, st)
  else (inr tt, {| clock := clock st + 1;
                   jobs := jobs st;
                   cycles := cycles st;
                   turns := S (turns st);
                   logged := logged st |}).

Definition add_log (st : sched) (e : event) : sched :=
  {| clock := clock st;
     jobs := jobs st;
     cycles := cycles st;
     turns := turns st;
     logged := logged st ++ [e] |}.

(** How the scheduler stands after the turns observed so far. *)
Inductive standing : Type :=
| Looping
| Returned
| Raised (e : exn).

(** [fuel] turns of [while True: schedule.run_pending(); time.sleep(1)]
    inside [try ... except KeyboardInterrupt]. *)
Fixpoint loop (fuel : nat) (w : World) (st : sched) : standing * sched :=
  match fuel with
  | 0 => (Looping, st)
  | S fuel' =>
      match run_pending w st with
      | (inl KeyboardInterrupt, st1) =>
          (Returned, add_log st1 (Log INFO "Scheduler stopped by user" []))
      | (inl e, st1) => (Raised e, st1)
      | (inr _, st1) =>
          match sleep1 w st1 with
          | (inl KeyboardInterrupt, st2) =>
              (Returned, add_log st2 (Log INFO "Scheduler stopped by user" []))
          | (inl e, st2) => (Raised e, st2)
          | (inr _, st2) => loop fuel' w st2
          end
      end
  end.

(** The scheduler up to the loop: register the job behind those that are
    already there, run one refresh.  [every(n).minutes.do(job)] sets the
    first run of the new job [n] minutes after the registration.  (For
    [n = 0] the versions of [schedule] differ: the job is due at every
    poll, as here, or [every(0)] does not return.) *)
Definition start (w : World) (interval_minutes : nat) : result bool * sched :=
  let st0 := {| clock := 0;
                jobs := registered w
                        ++ [{| period := 60 * interval_minutes;
                               next_run := Z.of_nat (0 + 60 * interval_minutes) |}];
                cycles := 0;
                turns := 0;
                logged := [Log INFO "Starting scheduler with {interval_minutes} minute interval"
                             [AInt interval_minutes];
                           Log INFO "Running initial refresh..." []] |} in
  run_job w st0.

(** [start_scheduler(interval_minutes)], observed for [fuel] loop turns. *)
Definition start_scheduler (fuel : nat) (w : World) (interval_minutes : nat)
  : standing * sched :=
  match start w interval_minutes with
  | (inl e, st1) => (Raised e, st1)
  | (inr _, st1) =>
      loop fuel w
        (add_log st1 (Log INFO "Scheduler running. Press Ctrl+C to exit." []))
  end.

End scheduled_refresh.

(** ** The remote store's objects, typed

    The data model of the store (column schemas and rows) and the JSON the
    client hands out for them.  The program never sees the typed side; the
    properties below quantify over it and feed the program the JSON. *)

Module Schema.
Import Py.

Inductive kind : Type :=
| KTitle
| KStatus (options : list string)
| KSelect (options : list string)
| KMultiSelect (options : list string)
| KDate
| KRelation
| KRichText.

Record column : Type := {
  col_name : string;
  col_kind : kind
}.

Definition type_of (k : kind) : string :=
  match k with
  | KTitle => "title"
  | KStatus _ => "status"
  | KSelect _ => "select"
  | KMultiSelect _ => "multi_select"
  | KDate => "date"
  | KRelation => "relation"
  | KRichText => "rich_text"
  end.

Definition option_json (name : string) : json := JDict [("name", JStr name)].

Definition payload (k : kind) : json :=
  match k with
  | KStatus options | KSelect options | KMultiSelect options =>
      JDict [("options", JList (map option_json options))]
  | _ => JDict []
  end.

Definition column_json (c : column) : string * json :=
  (col_name c,
   JDict [("name", JStr (col_name c));
          ("type", JStr (type_of (col_kind c)));
          (type_of (col_kind c), payload (col_kind c))]).

(** What [databases.retrieve] answers for a table with columns [cols]. *)
Definition database_json (cols : list column) : json :=
  JDict [("object", JStr "database");
         ("properties", JDict (map column_json cols))].

Definition names (cols : list column) : list string := map col_name cols.

(** A schema is a dictionary keyed by column name, and the store leaves no
    column unnamed. *)
Definition well_formed (cols : list column) : Prop :=
  NoDup (names cols) /\ ~ In "" (names cols).

Definition title_names (cols : list column) : list string :=
  flat_map (fun c => match col_kind c with
                     | KTitle => [col_name c]
                     | _ => []
                     end) cols.

Definition status_columns (cols : list column) : list (string * list string) :=
  flat_map (fun c => match col_kind c with
                     | KStatus options => [(col_name c, options)]
                     | _ => []
                     end) cols.

(** A run of rich text as the store lists it: text, or a mention or an
    equation.  Every run carries its rendering under plain_text; only a
    text run has the field text. *)
Inductive run : Type :=
| Text (content : string)
| Mention (plain : string)
| Equation (expression : string).

Definition plain_text (r : run) : string :=
  match r with
  | Text s => s
  | Mention s => s
  | Equation s => s
  end.

(** The value a row holds in one column. *)
Inductive value : Type :=
| VTitle (runs : list run)
| VRichText (runs : list run)
| VStatus (name : option string)
| VSelect (name : option string)
| VMultiSelect (names : list string)
| VDate (start : option string)
| VRelation (ids : list string).

Record row : Type := {
  row_id : string;
  row_cells : list (string * value);
  row_created_time : string;
  row_last_edited_time : string;
  row_url : string
}.

Definition run_json (r : run) : json :=
  match r with
  | Text s =>
      JDict [("type", JStr "text");
             ("text", JDict [("content", JStr s)]);
             ("plain_text", JStr s)]
  | Mention s =>
      JDict [("type", JStr "mention");
             ("mention", JDict []);
             ("plain_text", JStr s)]
  | Equation s =>
      JDict [("type", JStr "equation");
             ("equation", JDict [("expression", JStr s)]);
             ("plain_text", JStr s)]
  end.

Definition named (o : option string) : json :=
  match o with
  | Some n => JDict [("name", JStr n)]
  | None => JNull
  end.

Definition value_json (v : value) : json :=
  match v with
  | VTitle runs =>
      JDict [("type", JStr "title"); ("title", JList (map run_json runs))]
  | VRichText runs =>
      JDict [("type", JStr "rich_text"); ("rich_text", JList (map run_json runs))]
  | VStatus o => JDict [("type", JStr "status"); ("status", named o)]
  | VSelect o => JDict [("type", JStr "select"); ("select", named o)]
  | VMultiSelect ns =>
      JDict [("type", JStr "multi_select");
             ("multi_select", JList (map option_json ns))]
  | VDate o =>
      JDict [("type", JStr "date");
             ("date", match o with
                      | Some s => JDict [("start", JStr s)]
                      | None => JNull
                      end)]
  | VRelation ids =>
      JDict [("type", JStr "relation");
             ("relation", JList (map (fun i => JDict [("id", JStr i)]) ids))]
  end.

Definition cell_json (cell : string * value) : string * json :=
  (fst cell, value_json (snd cell)).

(** What [pages.retrieve] answers for a row, and what a query lists. *)
Definition row_json (r : row) : json :=
  JDict [("object", JStr "page");
         ("id", JStr (row_id r));
         ("created_time", JStr (row_created_time r));
         ("last_edited_time", JStr (row_last_edited_time r));
         ("properties", JDict (map cell_json (row_cells r)));
         ("url", JStr (row_url r))].

Definition query_json (rows : list row) : json :=
  JDict [("object", JStr "list"); ("results", JList (map row_json rows))].

Definition cell_names (r : row) : list string := map fst (row_cells r).

Definition is_status_value (v : value) : bool :=
  match v with
  | VStatus _ => true
  | _ => false
  end.

(** The first column of a row that holds a status. *)
Fixpoint status_cell (cells : list (string * value)) : option string :=
  match cells with
  | [] => None
  | (n, v) :: rest => if is_status_value v then Some n else status_cell rest
  end.

(** The last element of a list, [d] when the list is empty. *)
Fixpoint last_of {A : Type} (l : list A) (d : A) : A :=
  match l with
  | [] => d
  | x :: l' => last_of l' x
  end.

End Schema.

(** ** What a trace says about writes *)

Module Writes.
Import Py Eff.

(** The column names a call writes to: the keys of the [properties]
    argument of [pages.create] and [pages.update]. *)
Definition written (e : event) : list string :=
  match e with
  | Call pages_create kwargs | Call pages_update kwargs =>
      match lookup "properties" kwargs with
      | Some (JDict props) => keys props
      | _ => []
      end
  | _ => []
  end.

Definition mem (s : string) (l : list string) : bool :=
  existsb (String.eqb s) l.

(** Every column written by the calls of [t] is one of [columns]. *)
Definition within (columns : list string) (t : trace) : bool :=
  forallb (fun e => forallb (fun k => mem k columns) (written e)) t.

Definition warnings (t : trace) : trace := filter (is_log_at WARNING) t.
Definition errors (t : trace) : trace := filter (is_log_at ERROR) t.
Definition calls (t : trace) : trace := filter is_any_call t.

End Writes.

(** ** Concrete stores used to exercise the properties *)

Module Fixtures.
Import Py Eff Schema.

(** The table of the spec's scenarios. *)
Definition table : list column :=
  [ {| col_name := "Name"; col_kind := KTitle |};
    {| col_name := "Status";
       col_kind := KStatus ["Not Started"; "In Progress"; "Done"] |} ].

Definition untitled_table : list column :=
  [ {| col_name := "Status";
       col_kind := KStatus ["Not Started"; "In Progress"; "Done"] |} ].

Definition plain_table : list column :=
  [ {| col_name := "Name"; col_kind := KTitle |};
    {| col_name := "Due"; col_kind := KDate |} ].

(** A table that names its columns otherwise than the readers and the
    fixed-name writers assume. *)
Definition stage_table : list column :=
  [ {| col_name := "Title"; col_kind := KTitle |};
    {| col_name := "Stage"; col_kind := KStatus ["Open"; "Closed"] |} ].

Definition mk_row (id : string) (cells : list (string * value)) : row :=
  {| row_id := id;
     row_cells := cells;
     row_created_time := "2024-01-01T00:00:00.000Z";
     row_last_edited_time := "2024-01-02T00:00:00.000Z";
     row_url := "https://www.notion.so/row" |}.

Definition entry : row :=
  mk_row "row-1" [("Name", VTitle [Text "Test Entry"]); ("Status", VStatus (Some "Not Started"))].

Definition plain_entry : row :=
  mk_row "row-2" [("Name", VTitle [Text "Test Entry"]); ("Due", VDate None)].

Definition stage_entry : row :=
  mk_row "row-3" [("Title", VTitle [Text "Launch"]); ("Stage", VStatus (Some "Open"))].

(** A row whose title has been left blank in the workspace. *)
Definition blank_entry : row :=
  mk_row "row-4" [("Name", VTitle [])].

(** A store holding one table with columns [cols] and one row [r]; every
    call succeeds. *)
Definition store (cols : list column) (r : row) : Client :=
  fun ep kwargs =>
    match ep with
    | databases_retrieve => inr (database_json cols)
    | databases_query => inr (query_json [r])
    | pages_retrieve => inr (row_json r)
    | pages_create => inr (JDict [("object", JStr "page"); ("id", JStr "row-9")])
    | pages_update => inr (row_json r)
    | blocks_children_append => inr (JDict [("object", JStr "list")])
    end.

Definition environment (name : string) : option string :=
  if String.eqb name "NOTION_API_KEY" then Some "secret-key"
  else if String.eqb name "NOTION_PROJECTS_DB" then Some "db-1"
  else None.

(** A host whose store answers every call. *)
Definition healthy_host : Host.t :=
  {| Host.load_dotenv := fun _ => inr tt;
     Host.getenv := environment;
     Host.new_client := fun _ => inr (store table entry) |}.

(** A host whose store refuses every call. *)
Definition failing_host : Host.t :=
  {| Host.load_dotenv := fun _ => inr tt;
     Host.getenv := environment;
     Host.new_client :=
       fun _ => inr (fun _ _ => inl (Exception "APIResponseError" "rate limited")) |}.

(** The same host at every cycle, cycles that take no clock time, and no
    interrupt. *)
Definition calm (host : Host.t) : scheduled_refresh.World :=
  {| scheduled_refresh.registered := [];
     scheduled_refresh.cycle_host := fun _ => host;
     scheduled_refresh.cycle_elapsed := fun _ => 0;
     scheduled_refresh.sleep_interrupted := fun _ => false |}.

(** As [calm], with the interrupt arriving during the sleep of turn [i]. *)
Definition interrupted_at (i : nat) (host : Host.t) : scheduled_refresh.World :=
  {| scheduled_refresh.registered := [];
     scheduled_refresh.cycle_host := fun _ => host;
     scheduled_refresh.cycle_elapsed := fun _ => 0;
     scheduled_refresh.sleep_interrupted := fun j => Nat.eqb j i |}.

(** As [calm], with cycles that take [d] seconds each. *)
Definition slow (d : nat) (host : Host.t) : scheduled_refresh.World :=
  {| scheduled_refresh.registered := [];
     scheduled_refresh.cycle_host := fun _ => host;
     scheduled_refresh.cycle_elapsed := fun _ => d;
     scheduled_refresh.sleep_interrupted := fun _ => false |}.

(** As [calm], in a process where an earlier call of [start_scheduler]
    has left its one-minute job behind, next due [s] seconds after the
    new call. *)
Definition second_call (s : nat) (host : Host.t) : scheduled_refresh.World :=
  {| scheduled_refresh.registered :=
       [{| scheduled_refresh.period := 60;
           scheduled_refresh.next_run := Z.of_nat s |}];
     scheduled_refresh.cycle_host := fun _ => host;
     scheduled_refresh.cycle_elapsed := fun _ => 0;
     scheduled_refresh.sleep_interrupted := fun _ => false |}.

(** A file system on which every operation goes through, and one on
    which every write fails. *)
Definition sound_disk : Fs.faults := fun _ => None.

Definition full_disk : Fs.faults :=
  fun op =>
    match op with
    | Fs.Write _ _ => Some ("OSError", "[Errno 28] No space left on device")
    | _ => None
    end.

End Fixtures.

(** ** Vocabulary of the properties *)

Module Spec.
Import Py Eff Schema basic_operations.

(** What the scan of [create_new_entry] records when it passes a column. *)
Definition note (st : found) (c : column) : found :=
  match col_kind c with
  | KTitle =>
      {| title_property := Some (col_name c);
         status_property := status_property st;
         status_options := status_options st |}
  | KStatus options =>
      {| title_property := title_property st;
         status_property := Some (col_name c);
         status_options := map JStr options |}
  | _ => st
  end.

Definition nothing_found : found :=
  {| title_property := None; status_property := None; status_options := [] |}.

(** The one [pages.create] call that makes a row of table [database_id]
    with the given property map. *)
Definition create_call (database_id : json) (properties : list (string * json))
  : event :=
  Call pages_create
    [("parent", JDict [("database_id", database_id)]);
     ("properties", JDict properties)].

(** What the store is sent to set a title column to [title]: one text run
    that holds the title. *)
Definition title_written (title : string) : json :=
  JDict [("title", JList [JDict [("text", JDict [("content", JStr title)])]])].

(** What the store is sent to set a status column to the option called
    [name]. *)
Definition status_written (name : string) : json :=
  JDict [("status", JDict [("name", JStr name)])].

(** [m] issued exactly one create call, for a row titled [title] in column
    [tp] with status [name] in column [sp]. *)
Definition created_with_status {A : Type} (m : M A) (database_id : json)
  (tp title sp name : string) : Prop :=
  calls_to pages_create (events m)
  = [create_call database_id
       [(tp, title_written title); (sp, status_written name)]].

Definition substitution_warning (desired first : string) : event :=
  Log WARNING "Status '{status}' not found. Using '{status_options[0]}' instead."
    [AJson (JStr desired); AJson (JStr first)].

(** Creation against a status column [sp] with options [o1 :: rest]: a
    desired status among the options is used as it is; any other one is
    replaced by [o1], and the replacement is logged as a warning. *)
Definition status_substitution (notion : Client) (database_id : json)
  (title desired tp sp o1 : string) (rest : list string) : Prop :=
  let m := create_new_entry notion database_id title (Some desired) in
  (In desired (o1 :: rest) ->
     created_with_status m database_id tp title sp desired) /\
  (~ In desired (o1 :: rest) ->
     created_with_status m database_id tp title sp o1 /\
     Writes.warnings (events m) = [substitution_warning desired o1]).

(** The record of a default status, logged at info level. *)
Definition default_logged (first : string) : event :=
  Log INFO "No status specified. Using '{status_options[0]}' by default."
    [AJson (JStr first)].

(** Creation with a desired status, empty or not: a non-empty one is
    treated as [status_substitution] says; the empty one counts as no
    status at all, so the row gets [o1], the default is logged at info
    level, and there is no warning. *)
Definition status_choice (notion : Client) (database_id : json)
  (title desired tp sp o1 : string) (rest : list string) : Prop :=
  let m := create_new_entry notion database_id title (Some desired) in
  (desired <> "" ->
     status_substitution notion database_id title desired tp sp o1 rest) /\
  (desired = "" ->
     created_with_status m database_id tp title sp o1 /\
     Writes.warnings (events m) = [] /\
     In (default_logged o1) (events m)).

(** The arguments of the [pages.update] call that sets column [sp] of row
    [page_id] to the status [new_status]. *)
Definition status_update_kwargs (page_id : json) (sp new_status : string)
  : list (string * json) :=
  [("page_id", page_id);
   ("properties", JDict [(sp, status_written new_status)])].

(** The one [pages.update] call that sets column [sp] of row [page_id] to
    the status [new_status]. *)
Definition update_call (page_id : json) (sp new_status : string) : event :=
  Call pages_update (status_update_kwargs page_id sp new_status).

(** Every column [m] writes to is a column of [cols]. *)
Definition writes_exist_in {A : Type} (columns : list string) (m : M A) : Prop :=
  Writes.within columns (events m) = true.

(** The update [update_project_status] issues: column name fixed. *)
Definition project_status_call (project_id status : json) : event :=
  Call pages_update
    [("page_id", project_id);
     ("properties",
       JDict [("Status", JDict [("status", JDict [("name", status)])])])].

(** The create [create_dashboard_update] issues: column names fixed. *)
Definition dashboard_call (now : string) (dashboard_id title : json) : event :=
  Call pages_create
    [("parent", JDict [("database_id", dashboard_id)]);
     ("properties",
       JDict [("Name",
                JDict [("title",
                         JList [JDict [("text", JDict [("content", title)])]])]);
              ("Date", JDict [("date", JDict [("start", JStr now)])])])].

(** The record [update_changelog] logs when the file system fails it. *)
Definition changelog_error (f : string * string) : event :=
  Log ERROR "Failed to update changelog: {e}" [AExn (Fs.failure f)].

(** The record [perform_refresh] logs when a cycle fails. *)
Definition refresh_error (e : exn) : event :=
  Log ERROR "Error during refresh: {e}" [AExn e].

(** No interrupt signal arrives while [m] runs. *)
Definition no_interrupt {A : Type} (m : M A) : Prop :=
  outcome m <> inl KeyboardInterrupt.

(** [m] can only return [v]. *)
Definition returns_only {A : Type} (v : A) (m : M A) : Prop :=
  forall a, outcome m = inr a -> a = v.

Definition quiet_client (c : Client) : Prop :=
  forall ep kwargs, c ep kwargs <> inl KeyboardInterrupt.

(** A host on which no interrupt signal arrives during a cycle: whatever
    goes wrong there is an [Exception]. *)
Definition quiet_host (h : Host.t) : Prop :=
  (forall path, Host.load_dotenv h path <> inl KeyboardInterrupt) /\
  (forall auth, Host.new_client h auth <> inl KeyboardInterrupt) /\
  (forall auth c, Host.new_client h auth = inr c -> quiet_client c).

(** The scheduler after the job at position [i] has run and returned,
    and after the jobs at the positions [ids] have, one after the other. *)
Definition ran (w : scheduled_refresh.World) (i : nat)
  (st : scheduled_refresh.sched) : scheduled_refresh.sched :=
  scheduled_refresh.reschedule_job i (snd (scheduled_refresh.run_job w st)).

Definition polled (w : scheduled_refresh.World) (ids : list nat)
  (st : scheduled_refresh.sched) : scheduled_refresh.sched :=
  fold_left (fun s i => ran w i s) ids st.

(** The job the call under study has registered: the last of the list. *)
Definition own_job (st : scheduled_refresh.sched) : scheduled_refresh.job :=
  last (scheduled_refresh.jobs st)
    {| scheduled_refresh.period := 0; scheduled_refresh.next_run := 0%Z |}.

(** The seconds of sleep still to go before a job is due. *)
Definition wait (st : scheduled_refresh.sched) (j : scheduled_refresh.job) : Z :=
  Z.max 0 (scheduled_refresh.next_run j - Z.of_nat (scheduled_refresh.clock st)).

(** The scheduler keeps pace with the period [P] of its own job: the
    turns it has done, and the sleep it still owes before that job is due
    again, are covered by one period for every cycle it has run. *)
Definition keeps_pace (P : nat) (st : scheduled_refresh.sched) : Prop :=
  scheduled_refresh.jobs st <> [] /\
  scheduled_refresh.period (own_job st) = P /\
  (Z.of_nat (scheduled_refresh.turns st) + wait st (own_job st)
   <= Z.of_nat (P * scheduled_refresh.cycles st))%Z.

(** The bookkeeping of a scheduler that holds one job of period [P],
    registered by a call whose first cycle took [e] of its seconds
    ([e <= P]): the job runs at the turn [due] that follows [P] turns of
    sleep after its last run, and no turn was missed. *)
Definition on_schedule (P e : nat) (st : scheduled_refresh.sched) : Prop :=
  exists (nr : Z) (due : nat),
    scheduled_refresh.jobs st
    = [{| scheduled_refresh.period := P; scheduled_refresh.next_run := nr |}] /\
    due + e = P * scheduled_refresh.cycles st /\
    scheduled_refresh.turns st <= due /\
    (scheduled_refresh.turns st < due ->
     nr = Z.of_nat (scheduled_refresh.clock st
                    + (due - scheduled_refresh.turns st))) /\
    (scheduled_refresh.turns st = due ->
     (nr <= Z.of_nat (scheduled_refresh.clock st))%Z) /\
    (1 <= scheduled_refresh.turns st ->
     due + 1 <= scheduled_refresh.turns st + P) /\
    (scheduled_refresh.turns st = 0 -> scheduled_refresh.cycles st = 1).

(** The count of the scenario, as the claim has it, for whatever goes on
    around the scheduler: with an interval of one minute, once two
    intervals have elapsed on the clock and until the third has, three
    cycles have run. *)
Definition three_cycles_after_two_intervals (w : scheduled_refresh.World)
  : Prop :=
  forall n,
    120 < scheduled_refresh.clock (snd (scheduled_refresh.start_scheduler n w 1)) ->
    scheduled_refresh.clock (snd (scheduled_refresh.start_scheduler n w 1)) <= 180 ->
    scheduled_refresh.cycles (snd (scheduled_refresh.start_scheduler n w 1)) = 3.

(** A stage of the cycle fails with [e]: the configuration load, the
    client construction, or the query of the projects table. *)
Definition cycle_fails_with (host : Host.t) (e : exn) : Prop :=
  Host.load_dotenv host "config/.env" = inl e \/
  (Host.load_dotenv host "config/.env" = inr tt /\
   Host.new_client host (opt_json (Host.getenv host "NOTION_API_KEY")) = inl e) \/
  (Host.load_dotenv host "config/.env" = inr tt /\
   exists notion db,
     Host.new_client host (opt_json (Host.getenv host "NOTION_API_KEY"))
       = inr notion /\
     Host.getenv host "NOTION_PROJECTS_DB" = Some db /\
     db <> "" /\
     notion databases_query [("database_id", JStr db)] = inl e).

(** An interrupt signal reached the scheduler within its first [fuel]
    turns: during a sleep, or while a cycle was running. *)
Definition interrupt_seen (w : scheduled_refresh.World) (fuel : nat) : Prop :=
  (exists i, i < fuel /\ scheduled_refresh.sleep_interrupted w i = true) \/
  (exists k now,
      outcome (scheduled_refresh.perform_refresh
                 (scheduled_refresh.cycle_host w k) now)
      = inl KeyboardInterrupt).

End Spec.

(** ** notion/post_tasks.py, the dashboard page *)

Module post_tasks_dashboard.
Import Py Eff.

Definition rich_text (content : string) : json :=
  JDict [("type", JStr "text"); ("text", JDict [("content", JStr content)])].

Definition bold_text (content : string) : json :=
  JDict [("type", JStr "text");
         ("text", JDict [("content", JStr content)]);
         ("annotations", JDict [("bold", JBool true)])].

(** A block of the given type whose text is the one run [run]. *)
Definition block (type : string) (run : json) : json :=
  JDict [("object", JStr "block");
         ("type", JStr type);
         (type, JDict [("rich_text", JList [run])])].

Definition divider : json :=
  JDict [("object", JStr "block");
         ("type", JStr "divider");
         ("divider", JDict [])].

Section Rendering.

(** How an f-string renders an interpolated value: Python's [str]. *)
Variable str : json -> string.

(** The paragraph of one opportunity. *)
Definition opportunity_block (opp : json) : result json :=
  match get opp "name" JNull with
  | inl e => inl e
  | inr name =>
      match get opp "profit" JNull with
      | inl e => inl e
      | inr profit =>
          inr (block "paragraph"
                 (rich_text (String.append (str name)
                               (String.append " - Potential profit: " (str profit)))))
      end
  end.

(** The [for] loop over the opportunities, appending to [content_blocks]. *)
Fixpoint opportunity_blocks (content_blocks : list json) (opps : list json)
  : result (list json) :=
  match opps with
  | [] => inr content_blocks
  | opp :: rest =>
      match opportunity_block opp with
      | inl e => inl e
      | inr b => opportunity_blocks (content_blocks ++ [b]) rest
      end
  end.

(** [now] is [datetime.now().strftime('%Y-%m-%d %H:%M')] at the call. *)
Definition update_tariff_dashboard (now : string) (notion : Client)
  (dashboard_page_id : json) (tariff_data : json) : M json :=
  try_except
    (log INFO "Updating TariffStrike dashboard {dashboard_page_id}"
       [AJson dashboard_page_id] ;;;
     active <- lift (get tariff_data "active_opportunities" (JInt 0)) ;;
     revenue <- lift (get tariff_data "total_revenue" (JStr "$0.00")) ;;
     let content_blocks :=
       [block "heading_2" (rich_text "TariffStrike Dashboard");
        block "paragraph" (rich_text (String.append "Last updated: " now));
        block "paragraph"
          (bold_text (String.append "Active arbitrage opportunities: " (str active)));
        block "paragraph"
          (bold_text (String.append "Total revenue generated: " (str revenue)));
        divider] in
     top <- lift (get tariff_data "top_opportunities" JNull) ;;
     content_blocks' <-
       (if truthy top then
          let with_heading :=
            content_blocks ++ [block "heading_3" (rich_text "Top Opportunities")] in
          top' <- lift (get tariff_data "top_opportunities" (JList [])) ;;
          opps <- lift (iter top') ;;
          lift (opportunity_blocks with_heading opps)
        else ret content_blocks) ;;
     response <- call notion blocks_children_append
                   [("block_id", dashboard_page_id);
                    ("children", JList content_blocks')] ;;
     log INFO "Successfully updated TariffStrike dashboard {dashboard_page_id}"
       [AJson dashboard_page_id] ;;;
     ret response)
    (fun e =>
       log ERROR "Error updating TariffStrike dashboard: {e}" [AExn e] ;;;
       raise e).

End Rendering.

End post_tasks_dashboard.

(** ** Effects over the audit file *)

Module FsEff.
Import Py Eff.

(** A computation of [M] that also reads and changes the files; what was
    written before an exception stays written. *)
Definition SM (A : Type) : Type := Fs.files -> M A * Fs.files.

Definition sret {A : Type} (a : A) : SM A := fun fs => (ret a, fs).

Definition slift {A : Type} (m : M A) : SM A := fun fs => (m, fs).

Definition sbind {A B : Type} (m : SM A) (k : A -> SM B) : SM B :=
  fun fs =>
    match m fs with
    | ((t, inl e), fs1) => ((t, inl e), fs1)
    | ((t, inr a), fs1) =>
        match k a fs1 with
        | ((t', r), fs2) => ((t ++ t', r), fs2)
        end
    end.

(** [try: body  except Exception as e: handler e] *)
Definition stry_except {A : Type} (body : SM A) (handler : exn -> SM A) : SM A :=
  fun fs =>
    match body fs with
    | ((t, inl (Exception cls msg)), fs1) =>
        match handler (Exception cls msg) fs1 with
        | ((t', r), fs2) => ((t ++ t', r), fs2)
        end
    | other => other
    end.

End FsEff.

(** ** notion/updater.py, the update run *)

Module updater_run.
Import Py Eff FsEff.

(** [c.lower()] on one character, and [s.lower()] as far as a comparison
    with an ASCII word can tell. *)
Definition lower_char (c : Ascii.ascii) : Ascii.ascii :=
  let n := Ascii.nat_of_ascii c in
  if Nat.leb 65 n && Nat.leb n 90 then Ascii.ascii_of_nat (n + 32) else c.

Fixpoint lower (s : string) : string :=
  match s with
  | EmptyString => EmptyString
  | String c s' => String (lower_char c) (lower s')
  end.

(** [os.getenv(name, default)] *)
Definition getenv_or (host : Host.t) (name default : string) : string :=
  match Host.getenv host name with
  | Some v => v
  | None => default
  end.

Section Runtime.

(** [int(s)] on a string: the number, or the message of the
    [ValueError] it raises. *)
Variable int_of : string -> string + Z.

(** [str(e)] on an exception. *)
Variable exn_str : exn -> string.

(** [logger.setLevel(getattr(logging, name))]: nothing when it goes
    through, else the class and message of what it raises. *)
Variable set_level : string -> option (string * string).

Definition load_config (host : Host.t) : M json :=
  lift (Host.load_dotenv host "config/.env") ;;;
  update_interval <-
    (match Host.getenv host "UPDATE_INTERVAL" with
     | None => ret (JInt 60)
     | Some s =>
         match int_of s with
         | inr n => ret (JInt n)
         | inl msg => raise (Exception "ValueError" msg)
         end
     end) ;;
  let config :=
    JDict [("notion_api_key", opt_json (Host.getenv host "NOTION_API_KEY"));
           ("notion_version", JStr (getenv_or host "NOTION_VERSION" "2022-06-28"));
           ("projects_db", opt_json (Host.getenv host "NOTION_PROJECTS_DB"));
           ("tasks_db", opt_json (Host.getenv host "NOTION_TASKS_DB"));
           ("prompts_db", opt_json (Host.getenv host "NOTION_PROMPTS_DB"));
           ("dashboards_db", opt_json (Host.getenv host "NOTION_DASHBOARDS_DB"));
           ("enable_tariffstrike",
             JBool (String.eqb (lower (getenv_or host "ENABLE_TARIFFSTRIKE_SYNC" "false"))
                      "true"));
           ("update_interval", update_interval);
           ("log_level", JStr (getenv_or host "LOG_LEVEL" "INFO"));
           ("enable_changelog",
             JBool (String.eqb (lower (getenv_or host "ENABLE_CHANGELOG" "true"))
                      "true"))] in
  match set_level (getenv_or host "LOG_LEVEL" "INFO") with
  | Some f => raise (Exception (fst f) (snd f))
  | None => ret config
  end.

Definition initialize_notion_client (host : Host.t) (config : json) : M Client :=
  try_except
    (auth <- lift (getitem config "notion_api_key") ;;
     notion <- lift (Host.new_client host auth) ;;
     log INFO "Notion client initialized successfully" [] ;;;
     ret notion)
    (fun e =>
       log ERROR "Failed to initialize Notion client: {e}" [AExn e] ;;;
       raise e).

(** [update_changelog] as a step that changes the files. *)
Definition changelog (ft : Fs.faults) (timestamp message status : string)
  : SM unit :=
  fun fs => updater.update_changelog ft fs timestamp message status.

(** [if config['enable_changelog']: update_changelog(message, status)] *)
Definition changelog_if_enabled (ft : Fs.faults) (config : json)
  (timestamp message status : string) : SM unit :=
  sbind (slift (lift (getitem config "enable_changelog")))
    (fun enabled =>
       if truthy enabled then changelog ft timestamp message status
       else sret tt).

(** The part of the [try] block of [run_update] that talks to the store
    and logs. *)
Definition fetch_and_process (config : json) (notion : Client) : M unit :=
  log INFO "Fetching data from Notion databases" [] ;;;
  projects_db <- lift (getitem config "projects_db") ;;
  fetch_pages.get_projects notion projects_db ;;;
  tasks_db <- lift (getitem config "tasks_db") ;;
  fetch_pages.get_tasks notion tasks_db ;;;
  log INFO "Processing data" [] ;;;
  log INFO "Posting updates back to Notion" [] ;;;
  tariffstrike <- lift (getitem config "enable_tariffstrike") ;;
  (if truthy tariffstrike
   then log INFO "Syncing TariffStrike data" []
   else ret tt).

(** The [try] block of [run_update]. *)
Definition update_body (ft : Fs.faults) (config : json) (notion : Client)
  (timestamp : string) : SM unit :=
  sbind (slift (fetch_and_process config notion)) (fun _ =>
  sbind (changelog_if_enabled ft config timestamp
           "Successful Notion update" "INFO") (fun _ =>
  slift (log INFO "Notion update process completed successfully" []))).

(** Its [except Exception as e] handler. *)
Definition update_handler (ft : Fs.faults) (config : json) (timestamp : string)
  (e : exn) : SM unit :=
  sbind (slift (log ERROR "Error during Notion update process: {e}" [AExn e]))
    (fun _ =>
  sbind (changelog_if_enabled ft config timestamp
           (String.append "Error: " (exn_str e)) "ERROR") (fun _ =>
  slift (raise e))).

(** [timestamp] is the clock reading [update_changelog] formats, when it
    is called. *)
Definition run_update (host : Host.t) (ft : Fs.faults) (timestamp : string)
  : SM unit :=
  sbind (slift (log INFO "Starting Notion AutoPilot update process" [])) (fun _ =>
  sbind (slift (load_config host)) (fun config =>
  sbind (slift (initialize_notion_client host config)) (fun notion =>
  stry_except
    (update_body ft config notion timestamp)
    (update_handler ft config timestamp)))).

End Runtime.

End updater_run.

(** ** What the readers make of a typed row *)

Module Views.
Import Py Eff Schema.

(** The value a row holds under a column name. *)
Fixpoint cell (name : string) (cells : list (string * value)) : option value :=
  match cells with
  | [] => None
  | (n, v) :: rest => if String.eqb name n then Some v else cell name rest
  end.

Definition no_text_field : exn := Exception "KeyError" "text".

(** The title [list_database_items] prints: the content of the first run
    of the first title column that holds a run, whatever the column is
    called, and Untitled when no title column holds one.  The run must be
    a text run: a mention or an equation has no text field. *)
Fixpoint first_title (cells : list (string * value)) : result string :=
  match cells with
  | [] => inr "Untitled"
  | (_, VTitle (Text s :: _)) :: _ => inr s
  | (_, VTitle (_ :: _)) :: _ => inl no_text_field
  | _ :: rest => first_title rest
  end.

Definition listing_line (title id : string) : event :=
  Log INFO "- {title} (ID: {item['id']})" [AJson (JStr title); AJson (JStr id)].

(** The lines [list_database_items] logs for the listed rows, in order,
    up to the first row whose title it cannot print, and how the listing
    ends. *)
Fixpoint listed (rows : list row) : trace * result unit :=
  match rows with
  | [] => ([], inr tt)
  | r :: rest =>
      match first_title (row_cells r) with
      | inl e => ([], inl e)
      | inr title =>
          (listing_line title (row_id r) :: fst (listed rest), snd (listed rest))
      end
  end.

Definition listing_query (database_id : json) : event :=
  Call databases_query [("database_id", database_id)].

Definition none_has_no_get : exn := Exception "AttributeError" "NoneType".
Definition empty_run : exn := Exception "IndexError" "list index out of range".

(** The title the readers of [fetch_pages] extract from column Name. *)
Definition title_view (cells : list (string * value)) (placeholder : string)
  : result string :=
  match cell "Name" cells with
  | Some (VTitle []) => inl empty_run
  | Some (VTitle (r :: _)) => inr (plain_text r)
  | _ => inr placeholder
  end.

Definition status_view (cells : list (string * value)) : result string :=
  match cell "Status" cells with
  | Some (VStatus (Some n)) => inr n
  | Some (VStatus None) => inl none_has_no_get
  | _ => inr "Not Started"
  end.

Definition select_view (column default : string) (cells : list (string * value))
  : result string :=
  match cell column cells with
  | Some (VSelect (Some n)) => inr n
  | Some (VSelect None) => inl none_has_no_get
  | _ => inr default
  end.

Definition due_date_view (cells : list (string * value)) : json :=
  match cell "Due Date" cells with
  | Some (VDate (Some s)) => JStr s
  | _ => JNull
  end.

Definition project_id_view (cells : list (string * value)) : json :=
  match cell "Project" cells with
  | Some (VRelation (i :: _)) => JStr i
  | _ => JNull
  end.

Definition tags_view (cells : list (string * value)) : list json :=
  match cell "Tags" cells with
  | Some (VMultiSelect ns) => map JStr ns
  | _ => []
  end.

Definition prompt_text_view (cells : list (string * value)) : string :=
  match cell "Prompt Text" cells with
  | Some (VRichText runs) => fold_right String.append "" (map plain_text runs)
  | _ => ""
  end.

Definition project_view (r : row) : result json :=
  match title_view (row_cells r) "Untitled Project" with
  | inl e => inl e
  | inr title =>
      match status_view (row_cells r) with
      | inl e => inl e
      | inr status =>
          match select_view "Priority" "Medium" (row_cells r) with
          | inl e => inl e
          | inr priority =>
              inr (JDict [("id", JStr (row_id r));
                          ("title", JStr title);
                          ("status", JStr status);
                          ("priority", JStr priority);
                          ("created_time", JStr (row_created_time r));
                          ("last_edited_time", JStr (row_last_edited_time r));
                          ("url", JStr (row_url r))])
          end
      end
  end.

Definition task_view (r : row) : result json :=
  match title_view (row_cells r) "Untitled Task" with
  | inl e => inl e
  | inr title =>
      match status_view (row_cells r) with
      | inl e => inl e
      | inr status =>
          inr (JDict [("id", JStr (row_id r));
                      ("title", JStr title);
                      ("status", JStr status);
                      ("due_date", due_date_view (row_cells r));
                      ("project_id", project_id_view (row_cells r));
                      ("created_time", JStr (row_created_time r));
                      ("last_edited_time", JStr (row_last_edited_time r));
                      ("url", JStr (row_url r))])
      end
  end.

Definition prompt_view (r : row) : result json :=
  match select_view "Category" "Uncategorized" (row_cells r) with
  | inl e => inl e
  | inr category =>
      match title_view (row_cells r) "Untitled Prompt" with
      | inl e => inl e
      | inr title =>
          inr (JDict [("id", JStr (row_id r));
                      ("title", JStr title);
                      ("category", JStr category);
                      ("tags", JList (tags_view (row_cells r)));
                      ("prompt_text", JStr (prompt_text_view (row_cells r)));
                      ("created_time", JStr (row_created_time r));
                      ("last_edited_time", JStr (row_last_edited_time r));
                      ("url", JStr (row_url r))])
      end
  end.

(** The views of all rows, or the failure of the first row that has one. *)
Fixpoint all_views (view : row -> result json) (rows : list row)
  : result (list json) :=
  match rows with
  | [] => inr []
  | r :: rest =>
      match view r with
      | inl e => inl e
      | inr v =>
          match all_views view rest with
          | inl e => inl e
          | inr vs => inr (v :: vs)
          end
      end
  end.

Definition as_str (r : result string) : result json :=
  match r with
  | inl e => inl e
  | inr s => inr (JStr s)
  end.

Definition as_list (r : result (list json)) : result json :=
  match r with
  | inl e => inl e
  | inr l => inr (JList l)
  end.

(** The query each reader of [fetch_pages] issues. *)
Definition projects_query (database_id : json) : list (string * json) :=
  [("database_id", database_id);
   ("filter", fetch_pages.status_filter);
   ("sorts", fetch_pages.sort_by "Priority" "descending")].

Definition tasks_query (database_id : json) : list (string * json) :=
  [("database_id", database_id);
   ("filter", fetch_pages.status_filter);
   ("sorts", fetch_pages.sort_by "Due Date" "ascending")].

Definition prompts_query (database_id : json) : list (string * json) :=
  [("database_id", database_id);
   ("sorts", fetch_pages.sort_by "Category" "ascending")].

End Views.

(** ** More rows and answers to exercise the properties *)

Module Samples.
Import Py Eff Schema.

Definition project_row : row :=
  Fixtures.mk_row "row-5"
    [("Name", VTitle [Text "Launch"; Text " plan"]);
     ("Status", VStatus (Some "In Progress"));
     ("Priority", VSelect (Some "High"))].

Definition task_row : row :=
  Fixtures.mk_row "row-6"
    [("Name", VTitle [Text "Write tests"]);
     ("Status", VStatus (Some "Not Started"));
     ("Due Date", VDate (Some "2024-02-01"));
     ("Project", VRelation ["row-5"; "row-7"])].

Definition prompt_row : row :=
  Fixtures.mk_row "row-8"
    [("Name", VTitle [Mention "Summarise"]);
     ("Category", VSelect (Some "Writing"));
     ("Tags", VMultiSelect ["short"; "draft"]);
     ("Prompt Text", VRichText [Text "Summarise "; Equation "this."])].

(** A project whose priority was never chosen. *)
Definition unranked_row : row :=
  Fixtures.mk_row "row-10"
    [("Name", VTitle [Text "Idea"]);
     ("Status", VStatus (Some "Not Started"));
     ("Priority", VSelect None)].

(** A table whose status column offers nothing to choose from. *)
Definition optionless_table : list column :=
  [ {| col_name := "Name"; col_kind := KTitle |};
    {| col_name := "Status"; col_kind := KStatus [] |} ].

(** A store that answers reads as [Fixtures.store] does and refuses every
    write with the given exception. *)
Definition read_only (cols : list column) (r : row) (e : exn) : Client :=
  fun ep kwargs =>
    match ep with
    | pages_create | pages_update | blocks_children_append => inl e
    | _ => Fixtures.store cols r ep kwargs
    end.

(** A store that creates rows and refuses to append blocks. *)
Definition no_append (e : exn) : Client :=
  fun ep kwargs =>
    match ep with
    | blocks_children_append => inl e
    | _ => Fixtures.store Fixtures.table Fixtures.entry ep kwargs
    end.

(** The record [create_new_entry] logs when the create call fails. *)
Definition create_error (e : exn) : event :=
  Log ERROR "Error creating entry: {e}" [AExn e].

(** The record [update_entry_status] logs when a call of its fails. *)
Definition update_error (e : exn) : event :=
  Log ERROR "Error updating entry status: {e}" [AExn e].

(** A store that lists the given rows and answers every other call as
    [Fixtures.store] does. *)
Definition listing (rows : list row) : Client :=
  fun ep kwargs =>
    match ep with
    | databases_query => inr (query_json rows)
    | _ => Fixtures.store Fixtures.table Fixtures.entry ep kwargs
    end.

(** A store that refuses every call with the given exception. *)
Definition refusing (e : exn) : Client := fun _ _ => inl e.

Definition rate_limited : exn := Exception "APIResponseError" "rate limited".

(** A store whose query answer carries no result list. *)
Definition bare : Client :=
  fun ep kwargs =>
    match ep with
    | databases_query => inr (JDict [("object", JStr "list")])
    | _ => Fixtures.store Fixtures.table Fixtures.entry ep kwargs
    end.

(** The calls of the writers of [post_tasks]. *)
Definition update_kwargs (page_id properties : json) : list (string * json) :=
  [("page_id", page_id); ("properties", properties)].

Definition create_kwargs (database_id properties : json) : list (string * json) :=
  [("parent", JDict [("database_id", database_id)]); ("properties", properties)].

Definition append_kwargs (block_id children : json) : list (string * json) :=
  [("block_id", block_id); ("children", children)].

Definition fixed_status (status : json) : json :=
  JDict [("Status", JDict [("status", JDict [("name", status)])])].

Definition dashboard_kwargs (now : string) (dashboard_id title : json)
  : list (string * json) :=
  [("parent", JDict [("database_id", dashboard_id)]);
   ("properties",
     JDict [("Name",
              JDict [("title",
                       JList [JDict [("text", JDict [("content", title)])]])]);
            ("Date", JDict [("date", JDict [("start", JStr now)])])])].

(** An opportunity of the tariff data, by name and profit. *)
Definition opportunity (np : json * json) : json :=
  JDict [("name", fst np); ("profit", snd np)].

(** The blocks of the dashboard as the page receives them, spelled out:
    a block of the given type whose text is one plain run, a paragraph
    whose one run is bold, and the divider. *)
Definition text_block (type content : string) : json :=
  JDict [("object", JStr "block");
         ("type", JStr type);
         (type,
           JDict [("rich_text",
                    JList [JDict [("type", JStr "text");
                                  ("text", JDict [("content", JStr content)])]])])].

Definition bold_paragraph (content : string) : json :=
  JDict [("object", JStr "block");
         ("type", JStr "paragraph");
         ("paragraph",
           JDict [("rich_text",
                    JList [JDict [("type", JStr "text");
                                  ("text", JDict [("content", JStr content)]);
                                  ("annotations", JDict [("bold", JBool true)])]])])].

Definition divider_block : json :=
  JDict [("object", JStr "block"); ("type", JStr "divider"); ("divider", JDict [])].

(** The paragraph the dashboard shows for an opportunity, under the
    rendering [str]. *)
Definition opportunity_paragraph (str : json -> string) (np : json * json) : json :=
  text_block "paragraph"
    (String.append (str (fst np))
       (String.append " - Potential profit: " (str (snd np)))).

(** The value of [key] in the tariff data, [default] when it has none. *)
Definition field_or (data : list (string * json)) (key : string) (default : json)
  : json :=
  match lookup key data with
  | Some v => v
  | None => default
  end.

(** The whole dashboard for the tariff data [data] that lists the
    opportunities [pairs]: five blocks, and when there are opportunities
    a heading and one paragraph for each. *)
Definition dashboard_blocks (str : json -> string) (now : string)
  (data : list (string * json)) (pairs : list (json * json)) : list json :=
  [text_block "heading_2" "TariffStrike Dashboard";
   text_block "paragraph" (String.append "Last updated: " now);
   bold_paragraph
     (String.append "Active arbitrage opportunities: "
        (str (field_or data "active_opportunities" (JInt 0))));
   bold_paragraph
     (String.append "Total revenue generated: "
        (str (field_or data "total_revenue" (JStr "$0.00"))));
   divider_block]
  ++ match pairs with
     | [] => []
     | _ :: _ =>
         text_block "heading_3" "Top Opportunities"
           :: map (opportunity_paragraph str) pairs
     end.

Definition tariff_data (opps : list (json * json)) : json :=
  JDict [("active_opportunities", JInt 3);
         ("total_revenue", JStr "$120.00");
         ("top_opportunities", JList (map opportunity opps))].

(** Python's [str] on the few values the samples render. *)
Definition plain_str (v : json) : string :=
  match v with
  | JStr s => s
  | JNull => "None"
  | JBool true => "True"
  | JBool false => "False"
  | JInt 3 => "3"
  | _ => "?"
  end.

(** The audit file as it reads on disk, spelled out: its path, the
    header row, and the row of one entry, each ended by a line feed. *)
Definition audit_file : string := "data/changelog.csv".

Definition line_feed : string :=
  String (Ascii.Ascii false true false true false false false false) EmptyString.

Definition csv_header : string :=
  String.append "timestamp,status,message" line_feed.

Definition csv_row (timestamp status message : string) : string :=
  String.append timestamp
    (String.append ","
       (String.append status
          (String.append "," (String.append message line_feed)))).

(** An audit entry: timestamp, message, status. *)
Definition entry_line (e : string * string * string) : string :=
  csv_row (fst (fst e)) (snd e) (snd (fst e)).

(** The files after [update_changelog] has been called once per entry, in
    order. *)
Fixpoint log_all (ft : Fs.faults) (fs : Fs.files)
  (entries : list (string * string * string)) : Fs.files :=
  match entries with
  | [] => fs
  | e :: rest =>
      log_all ft
        (snd (updater.update_changelog ft fs (fst (fst e)) (snd (fst e)) (snd e)))
        rest
  end.

Definition lines (entries : list (string * string * string)) : string :=
  fold_right String.append "" (map entry_line entries).

(** Whether the environment of [host] switches the changelog on. *)
Definition changelog_enabled (host : Host.t) : bool :=
  String.eqb
    (updater_run.lower (updater_run.getenv_or host "ENABLE_CHANGELOG" "true"))
    "true".

(** The dictionary [updater.load_config] returns on [host] when it
    returns, [interval] being the update interval it has read. *)
Definition config_of (host : Host.t) (interval : json) : json :=
  JDict [("notion_api_key", opt_json (Host.getenv host "NOTION_API_KEY"));
         ("notion_version",
           JStr (updater_run.getenv_or host "NOTION_VERSION" "2022-06-28"));
         ("projects_db", opt_json (Host.getenv host "NOTION_PROJECTS_DB"));
         ("tasks_db", opt_json (Host.getenv host "NOTION_TASKS_DB"));
         ("prompts_db", opt_json (Host.getenv host "NOTION_PROMPTS_DB"));
         ("dashboards_db", opt_json (Host.getenv host "NOTION_DASHBOARDS_DB"));
         ("enable_tariffstrike",
           JBool (String.eqb
                    (updater_run.lower
                       (updater_run.getenv_or host "ENABLE_TARIFFSTRIKE_SYNC" "false"))
                    "true"));
         ("update_interval", interval);
         ("log_level", JStr (updater_run.getenv_or host "LOG_LEVEL" "INFO"));
         ("enable_changelog", JBool (changelog_enabled host))].

(** The table identifiers [run_update] fetches from, and the key it
    hands to the client. *)
Definition projects_db (host : Host.t) : json :=
  opt_json (Host.getenv host "NOTION_PROJECTS_DB").

Definition tasks_db (host : Host.t) : json :=
  opt_json (Host.getenv host "NOTION_TASKS_DB").

Definition api_key (host : Host.t) : json :=
  opt_json (Host.getenv host "NOTION_API_KEY").

(** The files after the one audit entry of a run, when the changelog is
    switched on. *)
Definition audited (host : Host.t) (ft : Fs.faults) (fs : Fs.files)
  (timestamp message status : string) : Fs.files :=
  if changelog_enabled host
  then snd (updater.update_changelog ft fs timestamp message status)
  else fs.

(** A host with the given environment whose store is [notion]. *)
Definition host_with (env : string -> option string) (notion : Client) : Host.t :=
  {| Host.load_dotenv := fun _ => inr tt;
     Host.getenv := env;
     Host.new_client := fun _ => inr notion |}.

Definition no_environment : string -> option string := fun _ => None.

(** A host on which the interrupt signal arrives while the environment
    file is being read. *)
Definition interrupting_host : Host.t :=
  {| Host.load_dotenv := fun _ => inl KeyboardInterrupt;
     Host.getenv := no_environment;
     Host.new_client := fun _ => inr (fun _ _ => inl KeyboardInterrupt) |}.

(** The records [start_scheduler] logs before the first refresh. *)
Definition scheduler_header (interval_minutes : nat) : trace :=
  [Log INFO "Starting scheduler with {interval_minutes} minute interval"
     [AInt interval_minutes];
   Log INFO "Running initial refresh..." []].

Definition scheduler_stopped : event :=
  Log INFO "Scheduler stopped by user" [].

(** The first record of a cycle. *)
Definition refresh_started (now : nat) : event :=
  Log INFO "Starting scheduled refresh at {datetime.now().strftime('%Y-%m-%d %H:%M:%S')}"
    [AInt now].

(** An environment whose update interval is not a number. *)
Definition bad_interval : string -> option string :=
  fun name => if String.eqb name "UPDATE_INTERVAL" then Some "soon" else None.

(** An environment that names the two tables of a run. *)
Definition two_tables : string -> option string :=
  fun name =>
    if String.eqb name "NOTION_PROJECTS_DB" then Some "db-projects"
    else if String.eqb name "NOTION_TASKS_DB" then Some "db-tasks"
    else None.

(** A store that lists [rows] for the projects table and refuses every
    other call with the given exception. *)
Definition projects_only (rows : list row) (e : exn) : Client :=
  fun ep kwargs =>
    match ep, kwargs with
    | databases_query, ("database_id", JStr id) :: _ =>
        if String.eqb id "db-projects" then inr (query_json rows) else inl e
    | _, _ => inl e
    end.

(** Python's [int] on the strings the samples use: the number, or the
    message of the [ValueError], which quotes the string as [repr] does
    (for these samples, between single quotes). *)
Definition sample_int (s : string) : string + Z :=
  if String.eqb s "15" then inr 15%Z
  else inl (String.append "invalid literal for int() with base 10: '"
              (String.append s "'")).

(** Every level name is known to [logging]. *)
Definition any_level : string -> option (string * string) := fun _ => None.

Definition message_of (e : exn) : string :=
  match e with
  | Exception _ msg => msg
  | KeyboardInterrupt => ""
  end.

End Samples.

(** * Properties *)

(** ** The effect monad *)

Section EffFacts.
Import Py Eff.

Lemma bind_ret_l {A B : Type} (a : A) (k : A -> M B) :
  Eff.bind (ret a) k = k a.
Proof. unfold Eff.bind, ret. destruct (k a); reflexivity. Qed.

Lemma bind_ret_r {A : Type} (m : M A) : Eff.bind m ret = m.
Proof.
  destruct m as [t [e|a]]; cbn; [reflexivity|].
  rewrite app_nil_r; reflexivity.
Qed.

Lemma bind_assoc {A B C : Type} (m : M A) (k : A -> M B) (h : B -> M C) :
  Eff.bind (Eff.bind m k) h = Eff.bind m (fun a => Eff.bind (k a) h).
Proof.
  destruct m as [t [e|a]]; cbn; [reflexivity|].
  destruct (k a) as [t' [e|b]]; cbn; [reflexivity|].
  destruct (h b) as [t'' r]. rewrite app_assoc. reflexivity.
Qed.

(** A [try] whose body returns is its body; one whose body raises an
    [Exception] runs the handler after what the body did; an interrupt
    passes through. *)
Lemma try_except_returns {A : Type} (body : M A) (handler : exn -> M A) (a : A) :
  outcome body = inr a -> try_except body handler = body.
Proof. destruct body as [t r]; cbn; intros ->; reflexivity. Qed.

Lemma try_except_catches {A : Type} (body : M A) (handler : exn -> M A)
  (cls msg : string) :
  outcome body = inl (Exception cls msg) ->
  try_except body handler
  = (events body ++ events (handler (Exception cls msg)),
     outcome (handler (Exception cls msg))).
Proof.
  destruct body as [t r]; cbn; intros ->.
  destruct (handler (Exception cls msg)); reflexivity.
Qed.

Lemma try_except_interrupted {A : Type} (body : M A) (handler : exn -> M A) :
  outcome body = inl KeyboardInterrupt -> try_except body handler = body.
Proof. destruct body as [t r]; cbn; intros ->; reflexivity. Qed.

End EffFacts.

(** ** create_new_entry *)

Section CreateNewEntry.
Import Py Eff Schema basic_operations Spec.

Lemma option_names (options : list string) :
  mapM (fun option => lift (getitem option "name")) (map option_json options)
  = ([], inr (map JStr options)).
Proof.
  induction options as [|o options IH]; simpl; [reflexivity|].
  rewrite IH; reflexivity.
Qed.

Lemma scan_step_column (st : found) (c : column) :
  scan_step st (column_json c) = ([], inr (note st c)).
Proof.
  destruct c as [n k]; destruct k; unfold scan_step, note; simpl;
    try reflexivity.
  rewrite option_names; reflexivity.
Qed.

Lemma scan_columns (cols : list column) (st : found) :
  scan (map column_json cols) st = ([], inr (fold_left note cols st)).
Proof.
  revert st; induction cols as [|c cols IH]; intros st; [reflexivity|].
  cbn [map scan fold_left].
  rewrite scan_step_column; cbn [Eff.bind].
  rewrite IH; reflexivity.
Qed.

Lemma found_title (cols : list column) (st : found) :
  title_property (fold_left note cols st)
  = last_of (map Some (title_names cols)) (title_property st).
Proof.
  revert st; induction cols as [|[n k] cols IH]; intros st; [reflexivity|].
  cbn [fold_left]. rewrite IH. destruct k; reflexivity.
Qed.

Lemma found_status (cols : list column) (st : found) :
  status_property (fold_left note cols st)
  = last_of (map (fun c => Some (fst c)) (status_columns cols)) (status_property st).
Proof.
  revert st; induction cols as [|[n k] cols IH]; intros st; [reflexivity|].
  cbn [fold_left]. rewrite IH. destruct k; reflexivity.
Qed.

Lemma found_options (cols : list column) (st : found) :
  status_options (fold_left note cols st)
  = last_of (map (fun c => map JStr (snd c)) (status_columns cols)) (status_options st).
Proof.
  revert st; induction cols as [|[n k] cols IH]; intros st; [reflexivity|].
  cbn [fold_left]. rewrite IH. destruct k; reflexivity.
Qed.

Lemma no_title_names (cols : list column) :
  (forall c, In c cols -> col_kind c <> KTitle) -> title_names cols = [].
Proof.
  induction cols as [|[n k] cols IH]; intros H; [reflexivity|].
  unfold title_names in *; cbn [flat_map].
  rewrite IH by (intros c Hc; apply H; right; exact Hc).
  destruct k; try reflexivity.
  exfalso; apply (H {| col_name := n; col_kind := KTitle |}); [left|]; reflexivity.
Qed.

Lemma no_status_columns (cols : list column) :
  (forall c options, In c cols -> col_kind c <> KStatus options) ->
  status_columns cols = [].
Proof.
  induction cols as [|[n k] cols IH]; intros H; [reflexivity|].
  unfold status_columns in *; cbn [flat_map].
  rewrite IH by (intros c o Hc; apply H; right; exact Hc).
  destruct k; try reflexivity.
  exfalso; apply (H {| col_name := n; col_kind := KStatus options |} options);
    [left|]; reflexivity.
Qed.

Lemma found_eq (cols : list column) (st : found) :
  fold_left note cols st
  = {| title_property :=
         last_of (map Some (title_names cols)) (title_property st);
       status_property :=
         last_of (map (fun c => Some (fst c)) (status_columns cols))
           (status_property st);
       status_options :=
         last_of (map (fun c => map JStr (snd c)) (status_columns cols))
           (status_options st) |}.
Proof.
  rewrite <- found_title, <- found_status, <- found_options.
  destruct (fold_left note cols st); reflexivity.
Qed.

(** On a table with columns [cols] the call is the two opening events
    followed by [create_with] on what the scan of [cols] finds. *)
Lemma create_new_entry_on_schema (notion : Client) (database_id : json)
  (title : string) (status : option string) (cols : list column) :
  notion databases_retrieve [("database_id", database_id)]
    = inr (database_json cols) ->
  create_new_entry notion database_id title status
  = (Log INFO "Creating new entry: {title}" [AJson (JStr title)]
       :: Call databases_retrieve [("database_id", database_id)]
       :: events (create_with notion database_id title status
                    (fold_left note cols nothing_found)),
     outcome (create_with notion database_id title status
                (fold_left note cols nothing_found))).
Proof.
  intros Hdb. unfold create_new_entry, call. rewrite Hdb.
  cbn [Eff.bind log lift database_json getitem lookup String.eqb Ascii.eqb
       Bool.eqb items app].
  rewrite scan_columns. cbn [Eff.bind app]. fold nothing_found.
  destruct (create_with notion database_id title status
              (fold_left note cols nothing_found)) as [t r].
  reflexivity.
Qed.

Lemma str_truthy_true (s : string) : s <> "" -> str_truthy s = true.
Proof.
  intros H. unfold str_truthy.
  destruct (String.eqb_spec s ""); [contradiction | reflexivity].
Qed.

Lemma status_in_spec (s : string) (l : list string) :
  status_in s (map JStr l) = true <-> In s l.
Proof.
  unfold status_in. induction l as [|x l IH]; simpl.
  - split; [discriminate | tauto].
  - rewrite Bool.orb_true_iff, IH.
    destruct (String.eqb_spec x s); intuition congruence.
Qed.

Lemma status_in_false (s : string) (l : list string) :
  ~ In s l -> status_in s (map JStr l) = false.
Proof.
  intros H. destruct (status_in s (map JStr l)) eqn:E; [|reflexivity].
  apply status_in_spec in E. contradiction.
Qed.

(** The closing [try] block issues the create call and nothing else, and
    hands back the new row's identifier when the store answers with one. *)
Lemma create_page_events (notion : Client) (database_id : json)
  (properties : list (string * json)) :
  let m := create_page notion database_id properties in
  Writes.calls (events m) = [create_call database_id properties] /\
  calls_to pages_create (events m) = [create_call database_id properties] /\
  Writes.warnings (events m) = [].
Proof.
  unfold create_page, call, create_call; cbn.
  destruct (notion pages_create _) as [[cls msg|]|page]; cbn;
    try (repeat split; reflexivity).
  destruct (getitem page "id") as [[cls msg|]|id]; cbn;
    repeat split; reflexivity.
Qed.

Lemma create_page_outcome (notion : Client) (database_id : json)
  (properties : list (string * json)) (page id : json) :
  notion pages_create
    [("parent", JDict [("database_id", database_id)]);
     ("properties", JDict properties)] = inr page ->
  getitem page "id" = inr id ->
  outcome (create_page notion database_id properties) = inr id.
Proof.
  intros Hp Hid. unfold create_page, call. rewrite Hp. cbn.
  rewrite Hid. reflexivity.
Qed.

(** Two columns of a dictionary-shaped schema that carry the same name are
    the same column. *)
Lemma same_name_same_column (cols : list column) (c1 c2 : column) :
  NoDup (names cols) -> In c1 cols -> In c2 cols ->
  col_name c1 = col_name c2 -> c1 = c2.
Proof.
  unfold names. induction cols as [|c cols IH]; intros Hnd H1 H2 Heq; [contradiction|].
  cbn [map] in Hnd. inversion Hnd as [|x l Hnotin Hnd']; subst.
  destruct H1 as [<-|H1], H2 as [<-|H2].
  - reflexivity.
  - exfalso; apply Hnotin. rewrite Heq. apply in_map; exact H2.
  - exfalso; apply Hnotin. rewrite <- Heq. apply in_map; exact H1.
  - apply IH; assumption.
Qed.

Lemma title_names_in (cols : list column) (tp : string) :
  In tp (title_names cols) ->
  In {| col_name := tp; col_kind := KTitle |} cols.
Proof.
  unfold title_names. rewrite in_flat_map. intros [[n k] [Hin Hk]].
  destruct k; cbn in Hk; try contradiction.
  destruct Hk as [<-|[]]. exact Hin.
Qed.

Lemma status_columns_in (cols : list column) (sp : string) (options : list string) :
  In (sp, options) (status_columns cols) ->
  In {| col_name := sp; col_kind := KStatus options |} cols.
Proof.
  unfold status_columns. rewrite in_flat_map. intros [[n k] [Hin Hk]].
  destruct k; cbn in Hk; try contradiction.
  destruct Hk as [Hk|[]]. inversion Hk; subst. exact Hin.
Qed.

Lemma title_is_not_status (cols : list column) (tp sp : string)
  (options : list string) :
  NoDup (names cols) ->
  In tp (title_names cols) -> In (sp, options) (status_columns cols) ->
  sp <> tp.
Proof.
  intros Hnd Ht Hs Heq.
  apply title_names_in in Ht. apply status_columns_in in Hs.
  assert (H : {| col_name := sp; col_kind := KStatus options |}
              = {| col_name := tp; col_kind := KTitle |})
    by (apply (same_name_same_column cols); assumption).
  discriminate H.
Qed.

Lemma title_names_names (cols : list column) (tp : string) :
  In tp (title_names cols) -> In tp (names cols).
Proof.
  intros H. apply title_names_in in H.
  unfold names. change tp with (col_name {| col_name := tp; col_kind := KTitle |}).
  apply in_map. exact H.
Qed.

Lemma status_columns_names (cols : list column) (sp : string) :
  In sp (map fst (status_columns cols)) -> In sp (names cols).
Proof.
  rewrite in_map_iff. intros [[n o] [Heq Hin]]. cbn in Heq; subst.
  apply status_columns_in in Hin.
  unfold names.
  change sp with (col_name {| col_name := sp; col_kind := KStatus o |}).
  apply in_map. exact Hin.
Qed.

Lemma well_formed_title (cols : list column) (tp : string) :
  well_formed cols -> In tp (title_names cols) -> tp <> "".
Proof.
  intros [_ Hne] Hin Heq. subst. apply Hne, title_names_names, Hin.
Qed.

Lemma well_formed_status (cols : list column) (sp : string)
  (options : list string) :
  well_formed cols -> In (sp, options) (status_columns cols) -> sp <> "".
Proof.
  intros [_ Hne] Hin Heq. subst. apply Hne, status_columns_names.
  change "" with (fst ("", options)). apply in_map. exact Hin.
Qed.

(** C5.  On a table whose schema has no title column, [create_new_entry]
    logs the missing title column, returns [None] and issues no create
    call: the schema retrieval is the only call it makes. *)
Theorem create_new_entry_without_title_column :
  forall (notion : Client) (database_id : json) (title : string)
         (status : option string) (cols : list column),
    notion databases_retrieve [("database_id", database_id)]
      = inr (database_json cols) ->
    (forall c, In c cols -> col_kind c <> KTitle) ->
    let m := create_new_entry notion database_id title status in
    outcome m = inr JNull /\
    calls_to pages_create (events m) = [] /\
    Writes.calls (events m)
    = [Call databases_retrieve [("database_id", database_id)]] /\
    Writes.errors (events m)
    = [Log ERROR "Could not find title property in database" []].
Proof.
  intros notion database_id title status cols Hdb Hno m; subst m.
  rewrite (create_new_entry_on_schema _ _ _ _ _ Hdb).
  rewrite found_eq, (no_title_names _ Hno).
  repeat split; reflexivity.
Qed.

Lemma create_new_entry_without_title_column_witness :
  let m := create_new_entry (Fixtures.store Fixtures.untitled_table Fixtures.entry)
             (JStr "db-1") "Test Entry" (Some "Done") in
  outcome m = inr JNull /\
  calls_to pages_create (events m) = [] /\
  Writes.calls (events m)
  = [Call databases_retrieve [("database_id", JStr "db-1")]] /\
  Writes.errors (events m)
  = [Log ERROR "Could not find title property in database" []].
Proof.
  apply (create_new_entry_without_title_column
           (Fixtures.store Fixtures.untitled_table Fixtures.entry)
           (JStr "db-1") "Test Entry" (Some "Done") Fixtures.untitled_table).
  - reflexivity.
  - intros c [<-|[]]; discriminate.
Defined.

(** C6.  On a table whose schema has a title column and no status
    column, [create_new_entry] issues one create call whose property map
    holds the title alone, whatever status was asked for, and it returns
    the identifier of the row the store answers with. *)
Theorem create_new_entry_without_status_column :
  forall (notion : Client) (database_id : json) (title : string)
         (status : option string) (cols : list column) (tp : string),
    notion databases_retrieve [("database_id", database_id)]
      = inr (database_json cols) ->
    well_formed cols ->
    title_names cols = [tp] ->
    (forall c options, In c cols -> col_kind c <> KStatus options) ->
    let m := create_new_entry notion database_id title status in
    Writes.calls (events m)
    = [Call databases_retrieve [("database_id", database_id)];
       create_call database_id [(tp, title_value title)]] /\
    (forall page id,
        notion pages_create
          [("parent", JDict [("database_id", database_id)]);
           ("properties", JDict [(tp, title_value title)])] = inr page ->
        getitem page "id" = inr id ->
        outcome m = inr id).
Proof.
  intros notion database_id title status cols tp Hdb Hwf Htitle Hno m; subst m.
  assert (Htp : tp <> "").
  { apply (well_formed_title cols); [exact Hwf|]. rewrite Htitle; left; reflexivity. }
  rewrite (create_new_entry_on_schema _ _ _ _ _ Hdb).
  rewrite found_eq, Htitle, (no_status_columns _ Hno).
  unfold create_with, add_status; cbn.
  rewrite (str_truthy_true _ Htp); cbn.
  pose proof (create_page_events notion database_id [(tp, title_value title)])
    as [Hcalls _].
  pose proof (create_page_outcome notion database_id [(tp, title_value title)])
    as Hout.
  destruct (create_page notion database_id [(tp, title_value title)]) as [t r].
  cbn in *. split.
  - rewrite Hcalls. reflexivity.
  - exact Hout.
Qed.

Lemma create_new_entry_without_status_column_witness :
  let m := create_new_entry (Fixtures.store Fixtures.plain_table Fixtures.plain_entry)
             (JStr "db-1") "Test Entry" (Some "Done") in
  Writes.calls (events m)
  = [Call databases_retrieve [("database_id", JStr "db-1")];
     create_call (JStr "db-1") [("Name", title_value "Test Entry")]] /\
  outcome m = inr (JStr "row-9").
Proof.
  destruct (create_new_entry_without_status_column
              (Fixtures.store Fixtures.plain_table Fixtures.plain_entry)
              (JStr "db-1") "Test Entry" (Some "Done") Fixtures.plain_table "Name")
    as [Hcalls Hout].
  - reflexivity.
  - split; [repeat constructor|]; simpl; intuition discriminate.
  - reflexivity.
  - intros c options [<-|[<-|[]]]; discriminate.
  - split; [exact Hcalls|].
    apply (Hout (JDict [("object", JStr "page"); ("id", JStr "row-9")]));
      reflexivity.
Defined.

(** What [create_new_entry] does when no status was asked for ([None], or
    the empty string, which is falsy): the first option is written and
    the default is logged at info level. *)
Lemma create_new_entry_defaults (notion : Client) (database_id : json)
  (title : string) (status : option string) (cols : list column)
  (tp sp o1 : string) (rest : list string) :
  notion databases_retrieve [("database_id", database_id)]
    = inr (database_json cols) ->
  well_formed cols ->
  title_names cols = [tp] ->
  status_columns cols = [(sp, o1 :: rest)] ->
  opt_truthy status = false ->
  let m := create_new_entry notion database_id title status in
  created_with_status m database_id tp title sp o1 /\
  Writes.warnings (events m) = [] /\
  In (default_logged o1) (events m).
Proof.
  intros Hdb Hwf Htitle Hstatus Hnone m; subst m.
  assert (Hint : In tp (title_names cols)) by (rewrite Htitle; left; reflexivity).
  assert (Hins : In (sp, o1 :: rest) (status_columns cols))
    by (rewrite Hstatus; left; reflexivity).
  pose proof (well_formed_title cols tp Hwf Hint) as Htp.
  pose proof (well_formed_status cols sp _ Hwf Hins) as Hsp.
  assert (Hne : sp <> tp)
    by (apply (title_is_not_status cols tp sp (o1 :: rest)); [apply Hwf | |];
        assumption).
  unfold created_with_status, default_logged.
  rewrite (create_new_entry_on_schema _ _ _ _ _ Hdb).
  rewrite found_eq, Htitle, Hstatus.
  unfold create_with, add_status; cbn [map last_of fst snd title_property
    status_property status_options opt_truthy].
  rewrite (str_truthy_true _ Htp), (str_truthy_true _ Hsp), Hnone.
  cbn [andb setitem]. apply String.eqb_neq in Hne. rewrite Hne.
  pose proof (create_page_events notion database_id
                [(tp, title_written title); (sp, status_written o1)])
    as (_ & Hcreate & Hwarn).
  cbn -[create_page] in *.
  destruct (create_page _ _ _) as [t r]. cbn in *.
  rewrite Hwarn. repeat split; [exact Hcreate | tauto].
Qed.

(** C1, amended.  On a table whose schema has the title column [tp] and
    the status column [sp] with options [o1 :: rest], creation with a
    non-empty desired status sends that status when it is among the
    options, and otherwise sends [o1] and logs the substitution as a
    warning.  The empty desired status is handled as if none had been
    given: the row is sent with [o1], the default is logged at info
    level, and no warning is logged.  In each case the create call
    carries the title as one text run and the status by its name. *)
Theorem create_new_entry_status_substitution :
  forall (notion : Client) (database_id : json) (title desired : string)
         (cols : list column) (tp sp o1 : string) (rest : list string),
    notion databases_retrieve [("database_id", database_id)]
      = inr (database_json cols) ->
    well_formed cols ->
    title_names cols = [tp] ->
    status_columns cols = [(sp, o1 :: rest)] ->
    status_choice notion database_id title desired tp sp o1 rest.
Proof.
  intros notion database_id title desired cols tp sp o1 rest
         Hdb Hwf Htitle Hstatus.
  split.
  - intros Hdesired.
    assert (Hint : In tp (title_names cols)) by (rewrite Htitle; left; reflexivity).
    assert (Hins : In (sp, o1 :: rest) (status_columns cols))
      by (rewrite Hstatus; left; reflexivity).
    pose proof (well_formed_title cols tp Hwf Hint) as Htp.
    pose proof (well_formed_status cols sp _ Hwf Hins) as Hsp.
    assert (Hne : sp <> tp)
      by (apply (title_is_not_status cols tp sp (o1 :: rest)); [apply Hwf | |];
          assumption).
    unfold status_substitution, created_with_status.
    rewrite (create_new_entry_on_schema _ _ _ _ _ Hdb).
    rewrite found_eq, Htitle, Hstatus.
    unfold create_with, add_status; cbn [map last_of fst snd title_property
      status_property status_options opt_truthy].
    rewrite (str_truthy_true _ Htp), (str_truthy_true _ Hsp),
      (str_truthy_true _ Hdesired).
    cbn [andb setitem]. apply String.eqb_neq in Hne. rewrite Hne.
    change (JStr o1 :: map JStr rest) with (map JStr (o1 :: rest)).
    split; intros Hin.
    + apply status_in_spec in Hin. rewrite Hin.
      pose proof (create_page_events notion database_id
                    [(tp, title_written title); (sp, status_written desired)])
        as (_ & Hcreate & _).
      cbn -[create_page] in *.
      destruct (create_page _ _ _) as [t r]. exact Hcreate.
    + rewrite (status_in_false _ _ Hin).
      pose proof (create_page_events notion database_id
                    [(tp, title_written title); (sp, status_written o1)])
        as (_ & Hcreate & Hwarn).
      cbn -[create_page] in *.
      destruct (create_page _ _ _) as [t r]. cbn in *.
      rewrite Hwarn. split; [exact Hcreate | reflexivity].
  - intros ->.
    apply (create_new_entry_defaults notion database_id title (Some "") cols
             tp sp o1 rest Hdb Hwf Htitle Hstatus).
    reflexivity.
Qed.

Lemma create_new_entry_status_substitution_witness :
  status_choice (Fixtures.store Fixtures.table Fixtures.entry)
    (JStr "db-1") "T2" "Bogus" "Name" "Status" "Not Started"
    ["In Progress"; "Done"] /\
  status_choice (Fixtures.store Fixtures.table Fixtures.entry)
    (JStr "db-1") "T2" "" "Name" "Status" "Not Started"
    ["In Progress"; "Done"].
Proof.
  split;
    apply (create_new_entry_status_substitution
             (Fixtures.store Fixtures.table Fixtures.entry)
             (JStr "db-1") "T2" _ Fixtures.table);
    try reflexivity;
    (split; [repeat constructor|]; simpl; intuition discriminate).
Defined.

(** C1 as stated fails for the empty desired status: it is not among the
    options of the scenario table, the row is created with the first
    option, and yet no warning is logged. *)
Lemma create_new_entry_empty_status_not_warned :
  ~ status_substitution (Fixtures.store Fixtures.table Fixtures.entry)
      (JStr "db-1") "T2" "" "Name" "Status" "Not Started"
      ["In Progress"; "Done"].
Proof.
  intros [_ H].
  destruct H as [_ Hwarn].
  - simpl; intuition discriminate.
  - vm_compute in Hwarn. discriminate Hwarn.
Qed.

(** The spec's scenarios on the table
    [{Name: title, Status: status[Not Started, In Progress, Done]}]. *)
Example create_test_entry :
  let m := create_new_entry (Fixtures.store Fixtures.table Fixtures.entry)
             (JStr "db-1") "Test Entry" None in
  created_with_status m (JStr "db-1") "Name" "Test Entry" "Status" "Not Started" /\
  outcome m = inr (JStr "row-9").
Proof. split; reflexivity. Qed.

Example create_bogus_status :
  let m := create_new_entry (Fixtures.store Fixtures.table Fixtures.entry)
             (JStr "db-1") "T2" (Some "Bogus") in
  created_with_status m (JStr "db-1") "Name" "T2" "Status" "Not Started" /\
  Writes.warnings (events m) = [substitution_warning "Bogus" "Not Started"].
Proof. split; reflexivity. Qed.

(** What the empty desired status does instead: the branch for a status
    that was not specified. *)
Example create_empty_status :
  let m := create_new_entry (Fixtures.store Fixtures.table Fixtures.entry)
             (JStr "db-1") "T2" (Some "") in
  created_with_status m (JStr "db-1") "Name" "T2" "Status" "Not Started" /\
  Writes.warnings (events m) = [] /\
  In (Log INFO "No status specified. Using '{status_options[0]}' by default."
        [AJson (JStr "Not Started")]) (events m).
Proof. repeat split; try reflexivity. simpl; tauto. Qed.

End CreateNewEntry.

(** ** update_entry_status *)

Section UpdateEntryStatus.
Import Py Eff Schema basic_operations Spec.

Lemma find_status_cells (cells : list (string * value)) :
  find_status (map cell_json cells) = ([], inr (status_cell cells)).
Proof.
  induction cells as [|[n v] cells IH]; [reflexivity|].
  cbn [map find_status cell_json fst snd status_cell].
  destruct v; cbn; rewrite ?IH; reflexivity.
Qed.

Lemma status_cell_in (cells : list (string * value)) (sp : string) :
  status_cell cells = Some sp -> In sp (map fst cells).
Proof.
  induction cells as [|[n v] cells IH]; cbn; [discriminate|].
  destruct (is_status_value v).
  - intros H; inversion H; tauto.
  - intros H; right; apply IH; exact H.
Qed.

(** C9.  With a missing or empty row identifier, [update_entry_status]
    returns [False] after logging the refusal; it issues no call at all,
    neither a retrieve nor an update. *)
Theorem update_entry_status_without_page_id :
  forall (notion : Client) (page_id : json) (new_status : string),
    truthy page_id = false ->
    let m := update_entry_status notion page_id new_status in
    outcome m = inr false /\
    Writes.calls (events m) = [] /\
    events m = [Log ERROR "Cannot update entry: No page ID provided" []].
Proof.
  intros notion page_id new_status Hid m; subst m.
  unfold update_entry_status. rewrite Hid.
  repeat split; reflexivity.
Qed.

Lemma update_entry_status_without_page_id_witness :
  (let m := update_entry_status (Fixtures.store Fixtures.table Fixtures.entry)
              (JStr "") "Done" in
   outcome m = inr false /\
   Writes.calls (events m) = [] /\
   events m = [Log ERROR "Cannot update entry: No page ID provided" []]) /\
  (let m := update_entry_status (Fixtures.store Fixtures.table Fixtures.entry)
              JNull "Done" in
   outcome m = inr false /\
   Writes.calls (events m) = [] /\
   events m = [Log ERROR "Cannot update entry: No page ID provided" []]).
Proof.
  split.
  - apply (update_entry_status_without_page_id
             (Fixtures.store Fixtures.table Fixtures.entry) (JStr "") "Done").
    reflexivity.
  - apply (update_entry_status_without_page_id
             (Fixtures.store Fixtures.table Fixtures.entry) JNull "Done").
    reflexivity.
Defined.

(** C4.  [update_entry_status] first retrieves the row and looks through
    its columns for the first one that holds a status.  When there is
    none it returns [False] and the retrieve is the only call it made.
    When there is one, [sp], it issues the update that sets [sp] to the
    status named [new_status], the string exactly as given: no schema is
    retrieved and the value is compared with nothing. *)
Theorem update_entry_status_verbatim :
  forall (notion : Client) (page_id : json) (new_status : string) (r : row),
    truthy page_id = true ->
    notion pages_retrieve [("page_id", page_id)] = inr (row_json r) ->
    ~ In "" (cell_names r) ->
    let m := update_entry_status notion page_id new_status in
    (status_cell (row_cells r) = None ->
       outcome m = inr false /\
       Writes.calls (events m) = [Call pages_retrieve [("page_id", page_id)]] /\
       Writes.errors (events m)
       = [Log ERROR "Could not find status property in the page" []]) /\
    (forall sp,
        status_cell (row_cells r) = Some sp ->
        Writes.calls (events m)
        = [Call pages_retrieve [("page_id", page_id)];
           update_call page_id sp new_status] /\
        (forall answer,
            notion pages_update (status_update_kwargs page_id sp new_status)
            = inr answer ->
            outcome m = inr true)).
Proof.
  intros notion page_id new_status r Hid Hrow Hnames m; subst m.
  unfold update_entry_status, call. rewrite Hid, Hrow.
  cbn -[find_status]. rewrite find_status_cells.
  split.
  - intros ->. repeat split; reflexivity.
  - intros sp Hcell.
    assert (Hsp : sp <> "").
    { intros ->. apply Hnames, status_cell_in, Hcell. }
    rewrite Hcell. cbn. rewrite (str_truthy_true _ Hsp). cbn.
    unfold update_call, status_update_kwargs, status_written.
    change (status_value (JStr new_status))
      with (JDict [("status", JDict [("name", JStr new_status)])]).
    destruct (notion pages_update _) as [[cls msg|]|answer']; cbn;
      (split; [reflexivity | intros answer Ha; congruence]).
Qed.

Lemma update_entry_status_verbatim_witness :
  (let m := update_entry_status (Fixtures.store Fixtures.table Fixtures.entry)
              (JStr "row-1") "Bogus" in
   Writes.calls (events m)
   = [Call pages_retrieve [("page_id", JStr "row-1")];
      update_call (JStr "row-1") "Status" "Bogus"] /\
   outcome m = inr true) /\
  (let m := update_entry_status
              (Fixtures.store Fixtures.plain_table Fixtures.plain_entry)
              (JStr "row-2") "Done" in
   outcome m = inr false /\
   Writes.calls (events m) = [Call pages_retrieve [("page_id", JStr "row-2")]] /\
   Writes.errors (events m)
   = [Log ERROR "Could not find status property in the page" []]).
Proof.
  split.
  - destruct (update_entry_status_verbatim
                (Fixtures.store Fixtures.table Fixtures.entry)
                (JStr "row-1") "Bogus" Fixtures.entry) as [_ H];
      [reflexivity | reflexivity | simpl; intuition discriminate |].
    destruct (H "Status") as [Hcalls Hout]; [reflexivity |].
    split; [exact Hcalls|].
    apply (Hout (row_json Fixtures.entry)). reflexivity.
  - destruct (update_entry_status_verbatim
                (Fixtures.store Fixtures.plain_table Fixtures.plain_entry)
                (JStr "row-2") "Done" Fixtures.plain_entry) as [H _];
      [reflexivity | reflexivity | simpl; intuition discriminate |].
    apply H. reflexivity.
Defined.

(** The spec's scenario: [updateStatus(rowId, "Done")] on a row with a
    status column. *)
Example update_status_done :
  let m := update_entry_status (Fixtures.store Fixtures.table Fixtures.entry)
             (JStr "row-1") "Done" in
  Writes.calls (events m)
  = [Call pages_retrieve [("page_id", JStr "row-1")];
     update_call (JStr "row-1") "Status" "Done"] /\
  outcome m = inr true.
Proof. split; reflexivity. Qed.

End UpdateEntryStatus.

(** ** Which columns the write paths target *)

Section WritePaths.
Import Py Eff Schema basic_operations post_tasks Spec.

Lemma within_app (columns : list string) (t1 t2 : trace) :
  Writes.within columns (t1 ++ t2)
  = Writes.within columns t1 && Writes.within columns t2.
Proof. unfold Writes.within. apply forallb_app. Qed.

Lemma mem_in (k : string) (l : list string) : In k l -> Writes.mem k l = true.
Proof.
  intros H. unfold Writes.mem. apply existsb_exists.
  exists k. split; [exact H | apply String.eqb_refl].
Qed.

Lemma setitem_keys (k k0 : string) (v : json) (d : list (string * json)) :
  In k (keys (setitem k0 v d)) -> In k (keys d) \/ k = k0.
Proof.
  unfold keys. induction d as [|[k' v'] d IH]; cbn.
  - intros [<-|[]]; right; reflexivity.
  - destruct (String.eqb k0 k'); cbn.
    + tauto.
    + intros [H|H]; [tauto|]. destruct (IH H); tauto.
Qed.

Lemma keys_within (columns : list string) (props : list (string * json)) :
  (forall k, In k (keys props) -> In k columns) ->
  forallb (fun k => Writes.mem k columns) (keys props) = true.
Proof.
  intros H. apply forallb_forall. intros k Hk. apply mem_in, H, Hk.
Qed.

Lemma create_page_within (columns : list string) (notion : Client)
  (database_id : json) (props : list (string * json)) :
  (forall k, In k (keys props) -> In k columns) ->
  Writes.within columns (events (create_page notion database_id props)) = true.
Proof.
  intros H. apply keys_within in H.
  unfold create_page, call; cbn.
  destruct (notion pages_create _) as [[cls msg|]|page]; cbn;
    rewrite ?H; try reflexivity.
  destruct (getitem page "id") as [[cls msg|]|id]; cbn; rewrite ?H; reflexivity.
Qed.

(** The status ladder only logs, and the one key it may add to the
    property map is the status column the scan found. *)
Lemma add_status_keys (columns : list string) (st : found)
  (status : option string) (props : list (string * json)) :
  exists t props',
    add_status st status props = (t, inr props') /\
    Writes.within columns t = true /\
    (forall k, In k (keys props') ->
               In k (keys props) \/ status_property st = Some k).
Proof.
  unfold add_status.
  destruct (status_property st) as [sp|];
    [|exists [], props; repeat split; tauto].
  destruct (str_truthy sp && opt_truthy status).
  - destruct status as [s|]; [|exists [], props; repeat split; tauto].
    destruct (status_in s (status_options st)).
    + eexists; eexists; split; [reflexivity|]; split; [reflexivity|].
      intros k Hk. apply setitem_keys in Hk. destruct Hk; [tauto|subst; tauto].
    + destruct (status_options st) as [|first rest].
      * exists [], props; repeat split; tauto.
      * eexists; eexists; split; [reflexivity|]; split; [reflexivity|].
        intros k Hk. apply setitem_keys in Hk. destruct Hk; [tauto|subst; tauto].
  - destruct (str_truthy sp); [|exists [], props; repeat split; tauto].
    destruct (status_options st) as [|first rest].
    + exists [], props; repeat split; tauto.
    + eexists; eexists; split; [reflexivity|]; split; [reflexivity|].
      intros k Hk. apply setitem_keys in Hk. destruct Hk; [tauto|subst; tauto].
Qed.

Lemma create_with_within (columns : list string) (notion : Client)
  (database_id : json) (title : string) (status : option string) (st : found) :
  (forall tp, title_property st = Some tp -> In tp columns) ->
  (forall sp, status_property st = Some sp -> In sp columns) ->
  Writes.within columns
    (events (create_with notion database_id title status st)) = true.
Proof.
  intros Ht Hs. unfold create_with.
  destruct (title_property st) as [tp|] eqn:Etp; cbn; [|reflexivity].
  destruct (str_truthy tp); cbn; [|reflexivity].
  destruct (add_status_keys columns st status [(tp, title_value title)])
    as (t & props' & Hadd & Hlogs & Hkeys).
  rewrite Hadd. cbn -[create_page].
  assert (Hpage : Writes.within columns
                    (events (create_page notion database_id props')) = true).
  { apply create_page_within. intros k Hk.
    destruct (Hkeys k Hk) as [[<-|[]]|Hsp].
    - apply Ht; reflexivity.
    - apply Hs; exact Hsp. }
  destruct (create_page notion database_id props') as [t' r].
  cbn [events fst] in *. cbn [Writes.within forallb Writes.written andb].
  fold (Writes.within columns (t ++ t')).
  rewrite within_app, Hlogs, Hpage. reflexivity.
Qed.

Lemma last_of_some_in {A : Type} (l : list A) (d : option A) (x : A) :
  last_of (map Some l) d = Some x -> In x l \/ d = Some x.
Proof.
  revert d; induction l as [|y l IH]; intros d; cbn.
  - tauto.
  - intros H. destruct (IH _ H) as [Hin|Heq]; [tauto|].
    inversion Heq; subst; tauto.
Qed.

Lemma create_new_entry_within (notion : Client) (database_id : json)
  (title : string) (status : option string) (cols : list column) :
  notion databases_retrieve [("database_id", database_id)]
    = inr (database_json cols) ->
  writes_exist_in (names cols) (create_new_entry notion database_id title status).
Proof.
  intros Hdb. unfold writes_exist_in.
  rewrite (create_new_entry_on_schema _ _ _ _ _ Hdb).
  cbn [events fst]. change (?a :: ?b :: ?t) with ([a; b] ++ t).
  rewrite within_app. cbn [Writes.within forallb Writes.written andb].
  apply create_with_within.
  - intros tp H. rewrite found_title in H.
    apply last_of_some_in in H. destruct H as [H|H]; [|discriminate].
    apply title_names_names; exact H.
  - intros sp H. rewrite found_status in H.
    rewrite <- (map_map fst Some) in H.
    apply last_of_some_in in H. destruct H as [H|H]; [|discriminate].
    apply status_columns_names; exact H.
Qed.

Lemma update_entry_status_within (notion : Client) (page_id : json)
  (new_status : string) (r : row) :
  notion pages_retrieve [("page_id", page_id)] = inr (row_json r) ->
  writes_exist_in (cell_names r)
    (update_entry_status notion page_id new_status).
Proof.
  intros Hrow. unfold writes_exist_in, update_entry_status, cell_names.
  destruct (truthy page_id); cbn [negb]; [|reflexivity].
  unfold call. rewrite Hrow. cbn -[find_status]. rewrite find_status_cells.
  destruct (status_cell (row_cells r)) as [sp|] eqn:Ecell; cbn; [|reflexivity].
  destruct (str_truthy sp); cbn; [|reflexivity].
  apply status_cell_in in Ecell. apply mem_in in Ecell.
  destruct (notion pages_update _) as [[cls msg|]|answer]; cbn;
    rewrite Ecell; reflexivity.
Qed.

Lemma update_project_status_calls (notion : Client) (project_id status : json) :
  Writes.calls (events (update_project_status notion project_id status))
  = [project_status_call project_id status].
Proof.
  unfold update_project_status, call, project_status_call; cbn.
  destruct (notion pages_update _) as [[cls msg|]|answer]; reflexivity.
Qed.

Lemma create_dashboard_update_calls (now : string) (notion : Client)
  (dashboard_id title content_blocks : json) :
  exists rest,
    Writes.calls (events (create_dashboard_update now notion dashboard_id title
                            content_blocks))
    = dashboard_call now dashboard_id title :: rest /\
    (rest = [] \/
     exists id, rest = [Call blocks_children_append
                          [("block_id", id); ("children", content_blocks)]]).
Proof.
  unfold create_dashboard_update, call, dashboard_call; cbn.
  destruct (notion pages_create _) as [[cls msg|]|page]; cbn;
    try (exists []; split; [reflexivity | left; reflexivity]).
  destruct (truthy content_blocks); cbn.
  - destruct (getitem page "id") as [[cls msg|]|id]; cbn;
      try (exists []; split; [reflexivity | left; reflexivity]).
    destruct (notion blocks_children_append _) as [[cls msg|]|answer]; cbn;
      eexists; (split; [reflexivity | right; eexists; reflexivity]).
  - destruct (getitem page "id") as [[cls msg|]|id]; cbn;
      exists []; (split; [reflexivity | left; reflexivity]).
Qed.

(** C2, amended.  The two writers of [basic_operations] write only to
    columns they have just found by introspection: [create_new_entry] to
    columns of the schema it retrieved, [update_entry_status] to a column
    of the row it retrieved.  The two writers of [post_tasks] do not look:
    [update_project_status] issues one update of the column named Status
    and nothing else, and [create_dashboard_update] opens with a create
    that names the columns Name and Date, followed at most by the append
    of the content blocks. *)
Theorem write_paths_columns :
  (forall notion database_id title status cols,
      notion databases_retrieve [("database_id", database_id)]
        = inr (database_json cols) ->
      writes_exist_in (names cols)
        (create_new_entry notion database_id title status)) /\
  (forall notion page_id new_status r,
      notion pages_retrieve [("page_id", page_id)] = inr (row_json r) ->
      writes_exist_in (cell_names r)
        (update_entry_status notion page_id new_status)) /\
  (forall notion project_id status,
      Writes.calls (events (update_project_status notion project_id status))
      = [project_status_call project_id status]) /\
  (forall now notion dashboard_id title content_blocks,
      exists rest,
        Writes.calls (events (create_dashboard_update now notion dashboard_id
                                title content_blocks))
        = dashboard_call now dashboard_id title :: rest /\
        (rest = [] \/
         exists id, rest = [Call blocks_children_append
                              [("block_id", id); ("children", content_blocks)]])).
Proof.
  split; [|split; [|split]].
  - intros; apply create_new_entry_within; assumption.
  - intros; apply update_entry_status_within; assumption.
  - intros; apply update_project_status_calls.
  - intros; apply create_dashboard_update_calls.
Qed.

Lemma write_paths_columns_witness :
  writes_exist_in (names Fixtures.stage_table)
    (create_new_entry (Fixtures.store Fixtures.stage_table Fixtures.stage_entry)
       (JStr "db-1") "Launch" (Some "Closed")) /\
  writes_exist_in ["Title"; "Stage"]
    (update_entry_status (Fixtures.store Fixtures.stage_table Fixtures.stage_entry)
       (JStr "row-3") "Closed").
Proof.
  destruct write_paths_columns as (Hcreate & Hupdate & _).
  split.
  - apply Hcreate. reflexivity.
  - apply (Hupdate _ _ _ Fixtures.stage_entry). reflexivity.
Defined.

(** C2 as stated fails on the two writers of [post_tasks]: on a table
    whose columns are Title and Stage they still write to Status, and to
    Name and Date. *)
Lemma post_tasks_write_missing_columns :
  ~ writes_exist_in (names Fixtures.stage_table)
      (update_project_status
         (Fixtures.store Fixtures.stage_table Fixtures.stage_entry)
         (JStr "row-3") (JStr "Closed")) /\
  ~ writes_exist_in (names Fixtures.stage_table)
      (create_dashboard_update "2024-01-03T00:00:00"
         (Fixtures.store Fixtures.stage_table Fixtures.stage_entry)
         (JStr "db-1") (JStr "Weekly update") (JList [])).
Proof.
  split; intros H; vm_compute in H; discriminate H.
Qed.

End WritePaths.

(** ** The readers of fetch_pages *)

Section FetchPages.
Import Py Eff Schema basic_operations fetch_pages Spec.

(** No column called Name: the placeholder. *)
Lemma title_of_absent (props : list (string * json)) (placeholder : string) :
  lookup "Name" props = None ->
  title_of (JDict props) placeholder = inr (JStr placeholder).
Proof. intros H. unfold title_of, get. rewrite H. reflexivity. Qed.

(** A title with at least one run: the text of the first run. *)
Lemma title_of_first_run (props : list (string * json)) (placeholder : string)
  (r : run) (runs : list run) :
  lookup "Name" props = Some (value_json (VTitle (r :: runs))) ->
  title_of (JDict props) placeholder = inr (JStr (plain_text r)).
Proof. intros H. unfold title_of, get. rewrite H. destruct r; reflexivity. Qed.

(** A title column that is there and holds no run: the default [[{}]]
    only stands in for a missing key, so indexing the empty list raises. *)
Lemma title_of_blank (props : list (string * json)) (placeholder : string) :
  lookup "Name" props = Some (value_json (VTitle [])) ->
  title_of (JDict props) placeholder
  = inl (Exception "IndexError" "list index out of range").
Proof. intros H. unfold title_of, get. rewrite H. reflexivity. Qed.

(** Any row with a blank title stops [get_projects] at that row. *)
Lemma format_project_blank (r : row) :
  lookup "Name" (map cell_json (row_cells r)) = Some (value_json (VTitle [])) ->
  outcome (format_project (row_json r))
  = inl (Exception "IndexError" "list index out of range").
Proof.
  intros H. unfold format_project, row_json. cbn.
  rewrite (title_of_blank _ _ H). reflexivity.
Qed.

(** C3, at the failing input.  The store lists one row whose title column
    Name is present and empty.  None of the three readers returns the
    placeholder: each raises [IndexError], after logging it. *)
Theorem readers_raise_on_blank_title :
  let notion := Fixtures.store Fixtures.table Fixtures.blank_entry in
  let index_error := Exception "IndexError" "list index out of range" in
  outcome (get_projects notion (JStr "db-1")) = inl index_error /\
  outcome (get_tasks notion (JStr "db-1")) = inl index_error /\
  outcome (get_prompt_library notion (JStr "db-1")) = inl index_error /\
  Writes.errors (events (get_projects notion (JStr "db-1")))
  = [Log ERROR "Error fetching projects: {e}" [AExn index_error]].
Proof. repeat split; reflexivity. Qed.

(** The rows the readers do handle: a missing Name column gives the
    placeholder, a title with text gives the text of its first run. *)
Example readers_on_missing_name :
  outcome (get_projects
             (Fixtures.store Fixtures.stage_table Fixtures.stage_entry)
             (JStr "db-1"))
  = inr (JList [JDict [("id", JStr "row-3");
                       ("title", JStr "Untitled Project");
                       ("status", JStr "Not Started");
                       ("priority", JStr "Medium");
                       ("created_time", JStr "2024-01-01T00:00:00.000Z");
                       ("last_edited_time", JStr "2024-01-02T00:00:00.000Z");
                       ("url", JStr "https://www.notion.so/row")]]).
Proof. reflexivity. Qed.

Example readers_on_titled_row :
  outcome (get_tasks (Fixtures.store Fixtures.table Fixtures.entry) (JStr "db-1"))
  = inr (JList [JDict [("id", JStr "row-1");
                       ("title", JStr "Test Entry");
                       ("status", JStr "Not Started");
                       ("due_date", JNull);
                       ("project_id", JNull);
                       ("created_time", JStr "2024-01-01T00:00:00.000Z");
                       ("last_edited_time", JStr "2024-01-02T00:00:00.000Z");
                       ("url", JStr "https://www.notion.so/row")]]).
Proof. reflexivity. Qed.

(** The sibling reader [list_database_items] tests the run before it
    indexes it, and gets through the same row. *)
Example list_database_items_on_blank_title :
  let m := list_database_items
             (Fixtures.store Fixtures.table Fixtures.blank_entry) (JStr "db-1") in
  outcome m = inr (JList [row_json Fixtures.blank_entry]) /\
  In (Log INFO "- {title} (ID: {item['id']})"
        [AJson (JStr "Untitled"); AJson (JStr "row-4")]) (events m).
Proof. split; [reflexivity | simpl; tauto]. Qed.

End FetchPages.

(** ** The audit sink *)

Section Changelog.
Import Py Eff updater Spec.

Lemma with_open_write_result (ft : Fs.faults) (fs : Fs.files)
  (path mode data : string) :
  (exists f, fst (Fs.with_open_write ft fs path mode data)
             = inl (Fs.failure f)) \/
  fst (Fs.with_open_write ft fs path mode data) = inr tt.
Proof.
  unfold Fs.with_open_write.
  destruct (ft (Fs.Open path mode)) as [m1|]; [left; eexists; reflexivity|].
  destruct (ft (Fs.Write path data)) as [m2|];
    destruct (ft (Fs.Close path)) as [m3|]; cbn;
    try (left; eexists; reflexivity).
  right; reflexivity.
Qed.


(** The first entry creates the file with its header; later entries are
    appended below. *)
Example changelog_first_entry :
  snd (update_changelog Fixtures.sound_disk [] "2024-01-01 09:00:00"
         "Successful Notion update" "INFO")
  = [(changelog_path,
      String.append changelog_header
        (changelog_line "2024-01-01 09:00:00" "INFO" "Successful Notion update"))].
Proof. reflexivity. Qed.

Example changelog_second_entry :
  snd (update_changelog Fixtures.sound_disk [(changelog_path, changelog_header)]
         "2024-01-01 10:00:00" "Error: rate limited" "ERROR")
  = [(changelog_path,
      String.append changelog_header
        (changelog_line "2024-01-01 10:00:00" "ERROR" "Error: rate limited"))].
Proof. reflexivity. Qed.

Example changelog_on_full_disk :
  let m := fst (update_changelog Fixtures.full_disk [] "2024-01-01 09:00:00"
                  "Successful Notion update" "INFO") in
  outcome m = inr tt /\
  events m = [changelog_error ("OSError", "[Errno 28] No space left on device")].
Proof. split; reflexivity. Qed.

End Changelog.

(** ** The refresh cycle *)

Section Refresh.
Import Py Eff basic_operations scheduled_refresh Spec.

Lemma no_interrupt_ret {A : Type} (a : A) : no_interrupt (ret a).
Proof. unfold no_interrupt; cbn; discriminate. Qed.

Lemma no_interrupt_log (lv : level) (fmt : string) (args : list arg) :
  no_interrupt (log lv fmt args).
Proof. unfold no_interrupt; cbn; discriminate. Qed.

Lemma no_interrupt_lift {A : Type} (r : result A) :
  r <> inl KeyboardInterrupt -> no_interrupt (lift r).
Proof. intros H; exact H. Qed.

Lemma no_interrupt_bind {A B : Type} (m : M A) (k : A -> M B) :
  no_interrupt m -> (forall a, outcome m = inr a -> no_interrupt (k a)) ->
  no_interrupt (Eff.bind m k).
Proof.
  unfold no_interrupt. destruct m as [t [e|a]]; cbn; intros Hm Hk.
  - intros H; apply Hm; congruence.
  - specialize (Hk a eq_refl). destruct (k a) as [t' r]; exact Hk.
Qed.

Lemma no_interrupt_mapM {A B : Type} (f : A -> M B) (l : list A) :
  (forall x, no_interrupt (f x)) -> no_interrupt (mapM f l).
Proof.
  intros Hf. induction l as [|x l IH]; cbn [mapM].
  - apply no_interrupt_ret.
  - apply no_interrupt_bind; [apply Hf|]. intros y _.
    apply no_interrupt_bind; [exact IH|]. intros ys _. apply no_interrupt_ret.
Qed.

Lemma no_interrupt_call (notion : Client) (ep : endpoint)
  (kwargs : list (string * json)) :
  quiet_client notion -> no_interrupt (call notion ep kwargs).
Proof. intros H; apply H. Qed.

(** Python's own accessors raise subclasses of [Exception] only. *)
Lemma getitem_quiet (v : json) (k : string) : getitem v k <> inl KeyboardInterrupt.
Proof. destruct v; cbn; try discriminate. destruct (lookup k d); discriminate. Qed.

Lemma getitem0_quiet (v : json) : getitem0 v <> inl KeyboardInterrupt.
Proof.
  destruct v as [| | |s|l|d]; cbn; try discriminate.
  - destruct s; discriminate.
  - destruct l; discriminate.
Qed.

Lemma get_quiet (v : json) (k : string) (d : json) :
  get v k d <> inl KeyboardInterrupt.
Proof. destruct v; cbn; try discriminate. destruct (lookup k d0); discriminate. Qed.

Lemma items_quiet (v : json) : items v <> inl KeyboardInterrupt.
Proof. destruct v; cbn; discriminate. Qed.

Lemma iter_quiet (v : json) : iter v <> inl KeyboardInterrupt.
Proof. destruct v; cbn; discriminate. Qed.

Lemma len_quiet (v : json) : len v <> inl KeyboardInterrupt.
Proof. destruct v; cbn; discriminate. Qed.

Ltac quiet :=
  repeat match goal with
    | |- no_interrupt (ret _) => apply no_interrupt_ret
    | |- no_interrupt (log _ _ _) => apply no_interrupt_log
    | |- no_interrupt (lift (getitem _ _)) => apply no_interrupt_lift, getitem_quiet
    | |- no_interrupt (lift (getitem0 _)) => apply no_interrupt_lift, getitem0_quiet
    | |- no_interrupt (lift (get _ _ _)) => apply no_interrupt_lift, get_quiet
    | |- no_interrupt (lift (items _)) => apply no_interrupt_lift, items_quiet
    | |- no_interrupt (lift (iter _)) => apply no_interrupt_lift, iter_quiet
    | |- no_interrupt (lift (len _)) => apply no_interrupt_lift, len_quiet
    | |- no_interrupt (Eff.bind _ _) => apply no_interrupt_bind; [|intros ? ?]
    | |- no_interrupt (if ?b then _ else _) => destruct b
    end.

Lemma item_title_quiet (props : list (string * json)) :
  no_interrupt (item_title props).
Proof.
  induction props as [|[prop_name prop_data] props IH]; cbn [item_title].
  - apply no_interrupt_ret.
  - quiet; exact IH.
Qed.

Lemma log_item_quiet (item : json) : no_interrupt (log_item item).
Proof. unfold log_item. quiet. apply item_title_quiet. Qed.

Lemma list_database_items_quiet (notion : Client) (database_id : json) :
  quiet_client notion -> no_interrupt (list_database_items notion database_id).
Proof.
  intros Hq. unfold list_database_items. quiet.
  - apply no_interrupt_call; exact Hq.
  - apply no_interrupt_mapM. apply log_item_quiet.
Qed.

Lemma refresh_body_quiet (host : Host.t) :
  quiet_host host -> no_interrupt (refresh_body host).
Proof.
  intros (Hload & Hnew & Hclient).
  unfold refresh_body, load_config, initialize_notion_client.
  apply no_interrupt_bind.
  { quiet. apply no_interrupt_lift, Hload. }
  intros config _. apply no_interrupt_bind.
  { apply no_interrupt_bind; [quiet|]. intros auth _.
    apply no_interrupt_lift, Hnew. }
  intros notion Hnotion.
  assert (Hq : quiet_client notion).
  { destruct (lift (getitem config "notion_api_key")) as [t [e|auth]] eqn:E;
      cbn in Hnotion; [discriminate|].
    destruct (Host.new_client host auth) as [e|c] eqn:Enew; cbn in Hnotion;
      [discriminate|].
    inversion Hnotion; subst. apply (Hclient auth); exact Enew. }
  quiet. apply list_database_items_quiet; exact Hq.
Qed.

Lemma returns_only_ret {A : Type} (v : A) : returns_only v (ret v).
Proof. intros a H; cbn in H; congruence. Qed.

Lemma returns_only_bind {A B : Type} (v : B) (m : M A) (k : A -> M B) :
  (forall a, returns_only v (k a)) -> returns_only v (Eff.bind m k).
Proof.
  unfold returns_only. destruct m as [t [e|a]]; cbn; intros Hk b H;
    [discriminate|].
  specialize (Hk a b). destruct (k a) as [t' r]; cbn in *. exact (Hk H).
Qed.

Lemma refresh_body_true (host : Host.t) : returns_only true (refresh_body host).
Proof.
  unfold refresh_body.
  repeat (apply returns_only_bind; intros ?). apply returns_only_ret.
Qed.

(** The three ways a cycle can end: the body returned and so does the
    cycle; the body raised an [Exception], which is logged and turned
    into [False]; an interrupt went through. *)
Lemma perform_refresh_cases (host : Host.t) (now : nat) :
  (outcome (refresh_body host) = inr true /\
   outcome (perform_refresh host now) = inr true) \/
  (exists cls msg,
      outcome (refresh_body host) = inl (Exception cls msg) /\
      outcome (perform_refresh host now) = inr false /\
      events (perform_refresh host now)
      = Log INFO "Starting scheduled refresh at {datetime.now().strftime('%Y-%m-%d %H:%M:%S')}" [AInt now]
          :: events (refresh_body host) ++ [refresh_error (Exception cls msg)]) \/
  (outcome (refresh_body host) = inl KeyboardInterrupt /\
   outcome (perform_refresh host now) = inl KeyboardInterrupt).
Proof.
  unfold perform_refresh. pose proof (refresh_body_true host) as Htrue.
  destruct (refresh_body host) as [t [[cls msg|]|b]]; cbn.
  - right; left. exists cls, msg. repeat split; reflexivity.
  - right; right. split; reflexivity.
  - left. rewrite (Htrue b eq_refl). split; reflexivity.
Qed.

Lemma perform_refresh_no_exception (host : Host.t) (now : nat)
  (cls msg : string) :
  outcome (perform_refresh host now) <> inl (Exception cls msg).
Proof.
  destruct (perform_refresh_cases host now)
    as [[_ H]|[(c & m & _ & H & _)|[_ H]]]; rewrite H; discriminate.
Qed.

Lemma perform_refresh_quiet (host : Host.t) (now : nat) :
  quiet_host host -> exists b, outcome (perform_refresh host now) = inr b.
Proof.
  intros Hq. apply refresh_body_quiet in Hq.
  destruct (perform_refresh_cases host now)
    as [[_ H]|[(c & m & _ & H & _)|[Hb _]]].
  - exists true; exact H.
  - exists false; exact H.
  - contradiction.
Qed.

End Refresh.

(** ** The scheduler *)

Section Scheduler.
Import Py Eff basic_operations scheduled_refresh Spec.

Lemma run_job_eq (w : World) (st : sched) :
  run_job w st
  = (outcome (perform_refresh (cycle_host w (cycles st)) (clock st)),
     {| clock := clock st + cycle_elapsed w (cycles st);
        jobs := jobs st;
        cycles := S (cycles st);
        turns := turns st;
        logged := logged st
                  ++ events (perform_refresh (cycle_host w (cycles st)) (clock st)) |}).
Proof.
  unfold run_job.
  destruct (perform_refresh (cycle_host w (cycles st)) (clock st)); reflexivity.
Qed.

(** Whatever the jobs of a poll raise is an interrupt. *)
Lemma run_jobs_raises (w : World) (ids : list nat) (st : sched) (e : exn) :
  fst (run_jobs w ids st) = inl e -> e = KeyboardInterrupt.
Proof.
  revert st; induction ids as [|i ids IH]; intros st; cbn [run_jobs];
    [discriminate|].
  rewrite run_job_eq.
  destruct (outcome (perform_refresh _ _)) as [[cls msg|]|b] eqn:E.
  - exfalso. exact (perform_refresh_no_exception _ _ _ _ E).
  - cbn. congruence.
  - apply IH.
Qed.

Lemma run_pending_raises (w : World) (st : sched) (e : exn) :
  fst (run_pending w st) = inl e -> e = KeyboardInterrupt.
Proof. apply run_jobs_raises. Qed.

Lemma sleep1_raises (w : World) (st : sched) (e : exn) :
  fst (sleep1 w st) = inl e -> e = KeyboardInterrupt.
Proof.
  unfold sleep1. destruct (sleep_interrupted w (turns st)); cbn;
    [congruence | discriminate].
Qed.

(** No [Exception] ever leaves the loop. *)
Lemma loop_no_exception (fuel : nat) (w : World) (st : sched) :
  fst (loop fuel w st) = Looping \/ fst (loop fuel w st) = Returned.
Proof.
  revert st; induction fuel as [|fuel IH]; intros st; cbn [loop]; [left; reflexivity|].
  pose proof (run_pending_raises w st) as Hp.
  destruct (run_pending w st) as [[e|u] st1]; cbn in Hp.
  - rewrite (Hp e eq_refl). right; reflexivity.
  - pose proof (sleep1_raises w st1) as Hs.
    destruct (sleep1 w st1) as [[e|u'] st2]; cbn in Hs.
    + rewrite (Hs e eq_refl). right; reflexivity.
    + apply IH.
Qed.

(** What a job that returns leaves behind. *)
Lemma ran_eq (w : World) (i : nat) (st : sched) :
  ran w i st
  = {| clock := clock st + cycle_elapsed w (cycles st);
       jobs := reschedule i (clock st + cycle_elapsed w (cycles st)) (jobs st);
       cycles := S (cycles st);
       turns := turns st;
       logged := logged st
                 ++ events (perform_refresh (cycle_host w (cycles st)) (clock st)) |}.
Proof. unfold ran. rewrite run_job_eq. reflexivity. Qed.

Lemma polled_turns (w : World) (ids : list nat) (st : sched) :
  turns (polled w ids st) = turns st.
Proof.
  revert st; induction ids as [|i ids IH]; intros st; [reflexivity|].
  cbn [polled fold_left]. fold (polled w ids (ran w i st)).
  rewrite IH, ran_eq. reflexivity.
Qed.

(** On hosts where no interrupt arrives during a cycle, every due job
    runs and returns. *)
Lemma run_jobs_quiet (w : World) (ids : list nat) (st : sched) :
  (forall k, quiet_host (cycle_host w k)) ->
  run_jobs w ids st = (inr tt, polled w ids st).
Proof.
  intros Hq. revert st; induction ids as [|i ids IH]; intros st; [reflexivity|].
  change (polled w (i :: ids) st) with (polled w ids (ran w i st)).
  cbn [run_jobs]. rewrite ran_eq, run_job_eq.
  destruct (perform_refresh_quiet _ (clock st) (Hq (cycles st))) as [b ->].
  rewrite IH. reflexivity.
Qed.

Lemma run_pending_quiet (w : World) (st : sched) :
  (forall k, quiet_host (cycle_host w k)) ->
  exists st1, run_pending w st = (inr tt, st1) /\ turns st1 = turns st.
Proof.
  intros Hq. unfold run_pending. rewrite (run_jobs_quiet w _ st Hq).
  eexists; split; [reflexivity | apply polled_turns].
Qed.

(** Without an interrupt the loop is still turning after any number of
    turns, however the cycles went. *)
Lemma loop_keeps_turning (fuel : nat) (w : World) (st : sched) :
  (forall k, quiet_host (cycle_host w k)) ->
  (forall i, turns st <= i -> i < turns st + fuel ->
             sleep_interrupted w i = false) ->
  fst (loop fuel w st) = Looping.
Proof.
  intros Hq. revert st; induction fuel as [|fuel IH]; intros st Hs; cbn [loop];
    [reflexivity|].
  destruct (run_pending_quiet w st Hq) as (st1 & -> & Ht).
  unfold sleep1. rewrite Ht, (Hs (turns st)) by lia.
  apply IH. cbn [turns]. intros i H1 H2. apply Hs; lia.
Qed.

Lemma refresh_body_stage_failure (host : Host.t) (e : exn) :
  cycle_fails_with host e -> outcome (refresh_body host) = inl e.
Proof.
  unfold cycle_fails_with, refresh_body, load_config, initialize_notion_client.
  intros [H|[[Hload H]|[Hload (notion & db & Hnew & Hdb & Hne & Hq)]]].
  - rewrite H. reflexivity.
  - rewrite Hload. cbn. rewrite H. reflexivity.
  - rewrite Hload. cbn. rewrite Hnew. cbn. rewrite Hdb. cbn.
    apply str_truthy_true in Hne. unfold str_truthy in Hne. rewrite Hne. cbn.
    unfold list_database_items, call. cbn. rewrite Hq. reflexivity.
Qed.

(** The jobs of a poll either all return, and no turn is counted, or one
    of them is interrupted. *)
Lemma run_jobs_cases (w : World) (ids : list nat) (st : sched) :
  (exists st1, run_jobs w ids st = (inr tt, st1) /\ turns st1 = turns st) \/
  (exists st1, run_jobs w ids st = (inl KeyboardInterrupt, st1) /\
     exists k now,
       outcome (perform_refresh (cycle_host w k) now) = inl KeyboardInterrupt).
Proof.
  revert st; induction ids as [|i ids IH]; intros st; cbn [run_jobs].
  - left. exists st. split; reflexivity.
  - rewrite run_job_eq.
    destruct (outcome (perform_refresh _ _)) as [[cls msg|]|b] eqn:E.
    + exfalso. exact (perform_refresh_no_exception _ _ _ _ E).
    + right. eexists; split; [reflexivity|]. eexists; eexists; exact E.
    + destruct (IH (reschedule_job i
                      {| clock := clock st + cycle_elapsed w (cycles st);
                         jobs := jobs st;
                         cycles := S (cycles st);
                         turns := turns st;
                         logged := logged st
                           ++ events (perform_refresh (cycle_host w (cycles st))
                                        (clock st)) |}))
        as [(st1 & H1 & H2)|(st1 & H1 & H2)].
      * left. exists st1. split; [exact H1 | exact H2].
      * right. exists st1. split; [exact H1 | exact H2].
Qed.

(** A stop of the loop is a clean return, and an interrupt was seen. *)
Lemma loop_stops_on_interrupt (fuel : nat) (w : World) (st : sched) :
  fst (loop fuel w st) <> Looping ->
  (exists i, turns st <= i /\ i < turns st + fuel /\
             sleep_interrupted w i = true) \/
  (exists k now,
      outcome (perform_refresh (cycle_host w k) now) = inl KeyboardInterrupt).
Proof.
  revert st; induction fuel as [|fuel IH]; intros st; cbn [loop];
    [intros H; contradiction H; reflexivity|].
  unfold run_pending.
  destruct (run_jobs_cases w (runnable (clock st) (jobs st)) st)
    as [(st1 & -> & Ht)|(st1 & -> & Hk)].
  - unfold sleep1. rewrite Ht.
    destruct (sleep_interrupted w (turns st)) eqn:Es.
    + intros _. left. exists (turns st). repeat split; [lia | lia | exact Es].
    + intros H. destruct (IH _ H) as [(i & H1 & H2 & H3)|Hk]; [|right; exact Hk].
      cbn [turns] in H1, H2. left. exists i. repeat split; [lia | lia | exact H3].
  - intros _. right. exact Hk.
Qed.

Lemma start_eq (w : World) (interval_minutes : nat) :
  exists t,
    start w interval_minutes
    = (outcome (perform_refresh (cycle_host w 0) 0),
       {| clock := cycle_elapsed w 0;
          jobs := registered w
                  ++ [{| period := 60 * interval_minutes;
                         next_run := Z.of_nat (60 * interval_minutes) |}];
          cycles := 1;
          turns := 0;
          logged := t |}).
Proof. unfold start. rewrite run_job_eq. eexists. reflexivity. Qed.

(** Rescheduling one job leaves the last job of the list as it was, or
    reschedules it. *)
Lemma last_reschedule (i now : nat) (js : list job) (d : job) :
  js <> [] ->
  reschedule i now js <> [] /\
  (last (reschedule i now js) d = last js d \/
   last (reschedule i now js) d = rescheduled now (last js d)).
Proof.
  revert i; induction js as [|j js IH]; intros i Hne;
    [contradiction Hne; reflexivity|].
  destruct i as [|i]; cbn [reschedule].
  - split; [discriminate|].
    destruct js as [|j' js]; [right; reflexivity | left; reflexivity].
  - split; [discriminate|].
    destruct js as [|j' js]; [left; destruct i; reflexivity|].
    destruct (IH i) as [Hn Hl]; [discriminate|].
    change (last (j :: j' :: js) d) with (last (j' :: js) d).
    destruct (reschedule i now (j' :: js)) as [|r rs] eqn:E;
      [contradiction Hn; reflexivity|].
    change (last (j :: r :: rs) d) with (last (r :: rs) d). exact Hl.
Qed.

Lemma ran_keeps_pace (w : World) (i : nat) (st : sched) (P : nat) :
  1 <= P ->
  keeps_pace P st ->
  keeps_pace P (ran w i st) /\
  (Z.of_nat (turns st) + 1 <= Z.of_nat (P * cycles (ran w i st)))%Z.
Proof.
  intros HP (Hne & Hper & Hpace). rewrite ran_eq.
  unfold keeps_pace, own_job, wait in *. cbn [jobs clock cycles turns].
  destruct (last_reschedule i (clock st + cycle_elapsed w (cycles st)) (jobs st)
              {| period := 0; next_run := 0%Z |} Hne) as [Hne' [Hl|Hl]];
    rewrite Hl; cbn [rescheduled period next_run];
    (split; [split; [exact Hne' | split; [exact Hper|]]|]); try rewrite Hper; nia.
Qed.

Lemma polled_keeps_pace (w : World) (ids : list nat) (st : sched) (P : nat) :
  1 <= P ->
  keeps_pace P st ->
  keeps_pace P (polled w ids st) /\
  (ids <> [] ->
   (Z.of_nat (turns st) + 1 <= Z.of_nat (P * cycles (polled w ids st)))%Z).
Proof.
  intros HP. revert st; induction ids as [|i ids IH]; intros st Hk.
  - split; [exact Hk | intros H; contradiction H; reflexivity].
  - change (polled w (i :: ids) st) with (polled w ids (ran w i st)).
    destruct (ran_keeps_pace w i st P HP Hk) as [Hk1 Hb1].
    destruct (IH _ Hk1) as [Hk2 Hb2]. split; [exact Hk2|]. intros _.
    destruct ids as [|i' ids]; [exact Hb1|].
    assert (Ht : turns (ran w i st) = turns st) by (rewrite ran_eq; reflexivity).
    rewrite <- Ht. apply Hb2. discriminate.
Qed.

Lemma insert_job_not_nil (x : nat * job) (l : list (nat * job)) :
  insert_job x l <> [].
Proof.
  destruct l as [|y l]; cbn; [discriminate|].
  destruct (Z.ltb _ _); discriminate.
Qed.

Lemma sorted_nil (l acc : list (nat * job)) :
  fold_left (fun acc x => insert_job x acc) l acc = [] -> l = [] /\ acc = [].
Proof.
  revert acc; induction l as [|x l IH]; intros acc; cbn; [tauto|].
  intros H. destruct (IH _ H) as [_ H']. exfalso.
  exact (insert_job_not_nil _ _ H').
Qed.

Lemma in_indexed (j : job) (js : list job) (s : nat) :
  In j js -> exists i, In (i, j) (combine (seq s (List.length js)) js).
Proof.
  revert s; induction js as [|j' js IH]; intros s; cbn; [tauto|].
  intros [->|H].
  - exists s. left; reflexivity.
  - destruct (IH (S s) H) as [i Hi]. exists i. right; exact Hi.
Qed.

(** A poll that finds nothing to run finds no job due. *)
Lemma runnable_nil (now : nat) (js : list job) (j : job) :
  runnable now js = [] -> In j js -> should_run now j = false.
Proof.
  unfold runnable, sorted. intros H Hin.
  apply map_eq_nil in H. apply sorted_nil in H. destruct H as [H _].
  destruct (in_indexed j js 0 Hin) as [i Hi].
  destruct (should_run now j) eqn:E; [|reflexivity].
  assert (Hf : In (i, j) (filter (fun x => should_run now (snd x))
                            (combine (seq 0 (List.length js)) js))).
  { apply filter_In. split; [exact Hi | exact E]. }
  rewrite H in Hf. contradiction.
Qed.

Lemma own_job_in (st : sched) : jobs st <> [] -> In (own_job st) (jobs st).
Proof.
  unfold own_job. generalize {| period := 0; next_run := 0%Z |}.
  induction (jobs st) as [|j js IH]; intros d Hne;
    [contradiction Hne; reflexivity|].
  destruct js as [|j' js]; [left; reflexivity|].
  right. apply IH. discriminate.
Qed.

(** One turn of the loop keeps the pace, whatever jobs were due. *)
Lemma turn_keeps_pace (w : World) (P : nat) (st : sched) :
  1 <= P ->
  (forall k, quiet_host (cycle_host w k)) ->
  sleep_interrupted w (turns st) = false ->
  keeps_pace P st ->
  exists st1 st2,
    run_pending w st = (inr tt, st1) /\
    sleep1 w st1 = (inr tt, st2) /\
    keeps_pace P st2 /\
    turns st2 = S (turns st).
Proof.
  intros HP Hq Hs Hk. unfold run_pending.
  rewrite (run_jobs_quiet w _ st Hq).
  remember (runnable (clock st) (jobs st)) as ids eqn:E. symmetry in E.
  destruct (polled_keeps_pace w ids st P HP Hk) as [(Hne & Hper & Hpace) Hb].
  pose proof (polled_turns w ids st) as Ht.
  eexists; eexists. split; [reflexivity|].
  unfold sleep1. rewrite Ht, Hs. split; [reflexivity|].
  split; [|reflexivity].
  unfold keeps_pace, own_job, wait in *. cbn [jobs clock cycles turns].
  split; [exact Hne|]. split; [exact Hper|].
  rewrite Ht in Hpace.
  destruct ids as [|i ids'].
  - cbn [polled fold_left] in *.
    destruct Hk as (Hne0 & _ & _).
    pose proof (runnable_nil (clock st) (jobs st) _ E (own_job_in st Hne0)) as Hdue.
    unfold should_run, own_job in Hdue. apply Z.leb_gt in Hdue. lia.
  - assert (Hb' := Hb ltac:(discriminate)). lia.
Qed.

Lemma loop_keeps_pace (fuel : nat) (w : World) (P : nat) (st : sched) :
  1 <= P ->
  (forall k, quiet_host (cycle_host w k)) ->
  (forall i, turns st <= i -> i < turns st + fuel ->
             sleep_interrupted w i = false) ->
  keeps_pace P st ->
  exists st',
    loop fuel w st = (Looping, st') /\
    keeps_pace P st' /\
    turns st' = turns st + fuel.
Proof.
  intros HP Hq. revert st; induction fuel as [|fuel IH]; intros st Hs Hk;
    cbn [loop].
  - exists st. split; [reflexivity|]. split; [exact Hk | lia].
  - destruct (turn_keeps_pace w P st HP Hq) as (st1 & st2 & -> & -> & Hk2 & Ht2);
      [apply Hs; lia | exact Hk |].
    destruct (IH st2) as (st' & Hl & Hk' & Ht'); [|exact Hk2|].
    + intros i H1 H2. apply Hs; lia.
    + exists st'. split; [exact Hl|]. split; [exact Hk' | lia].
Qed.

(** C7.  A cycle that fails does not stop the scheduler.  Whatever
    [Exception] the cycle's body raises, in particular one from the
    configuration load, from the client construction or from the query,
    [perform_refresh] returns [False] with the error logged last.  Hence
    no [Exception] ever leaves [start_scheduler]; as long as no interrupt
    arrives the loop is still turning, however many cycles failed, and it
    goes on to the next interval: after [fuel] turns it has slept [fuel]
    times and has run at least one cycle for every interval of sleep,
    whatever became of the cycles before; and when the scheduler is found
    stopped, an interrupt was seen. *)
Theorem cycle_failure_never_stops_scheduler :
  (forall host now cls msg,
      cycle_fails_with host (Exception cls msg) \/
      outcome (refresh_body host) = inl (Exception cls msg) ->
      outcome (perform_refresh host now) = inr false /\
      exists t, events (perform_refresh host now)
                = t ++ [refresh_error (Exception cls msg)]) /\
  (forall fuel w interval_minutes cls msg,
      fst (start_scheduler fuel w interval_minutes)
      <> Raised (Exception cls msg)) /\
  (forall fuel w interval_minutes,
      (forall k, quiet_host (cycle_host w k)) ->
      (forall i, i < fuel -> sleep_interrupted w i = false) ->
      fst (start_scheduler fuel w interval_minutes) = Looping) /\
  (forall fuel w interval_minutes,
      1 <= interval_minutes ->
      (forall k, quiet_host (cycle_host w k)) ->
      (forall i, i < fuel -> sleep_interrupted w i = false) ->
      turns (snd (start_scheduler fuel w interval_minutes)) = fuel /\
      fuel <= 60 * interval_minutes
              * cycles (snd (start_scheduler fuel w interval_minutes))) /\
  (forall fuel w interval_minutes,
      fst (start_scheduler fuel w interval_minutes) <> Looping ->
      interrupt_seen w fuel).
Proof.
  split; [|split; [|split; [|split]]].
  - intros host now cls msg H.
    assert (Hb : outcome (refresh_body host) = inl (Exception cls msg)).
    { destruct H as [H|H]; [apply refresh_body_stage_failure|]; exact H. }
    destruct (perform_refresh_cases host now)
      as [[H1 _]|[(c & m & H1 & H2 & H3)|[H1 _]]]; try congruence.
    split; [exact H2|].
    rewrite H3. rewrite Hb in H1. inversion H1; subst.
    eexists (_ :: _). reflexivity.
  - intros fuel w interval_minutes cls msg. unfold start_scheduler.
    destruct (start_eq w interval_minutes) as [t ->].
    destruct (outcome (perform_refresh (cycle_host w 0) 0))
      as [[c m|]|b] eqn:E.
    + exfalso. exact (perform_refresh_no_exception _ _ _ _ E).
    + cbn. discriminate.
    + match goal with
      | |- fst (loop fuel w ?st) <> _ =>
          destruct (loop_no_exception fuel w st) as [H|H]; rewrite H; discriminate
      end.
  - intros fuel w interval_minutes Hq Hs. unfold start_scheduler.
    destruct (start_eq w interval_minutes) as [t ->].
    destruct (perform_refresh_quiet _ 0 (Hq 0)) as [b ->].
    apply loop_keeps_turning; [exact Hq|].
    cbn [add_log turns]. intros i _ Hi. apply Hs. lia.
  - intros fuel w interval_minutes Hm Hq Hs. unfold start_scheduler.
    destruct (start_eq w interval_minutes) as [t ->].
    destruct (perform_refresh_quiet _ 0 (Hq 0)) as [b ->].
    match goal with
    | |- context [loop fuel w ?s] => set (st := s)
    end.
    destruct (loop_keeps_pace fuel w (60 * interval_minutes) st)
      as (st' & -> & (_ & _ & Hpace) & Ht).
    + lia.
    + exact Hq.
    + subst st; cbn [add_log turns]. intros i _ Hi. apply Hs. lia.
    + subst st. unfold keeps_pace, own_job, wait.
      cbn [add_log jobs clock cycles turns]. rewrite last_last.
      cbn [period next_run]. split; [|split; [reflexivity | lia]].
      destruct (registered w); discriminate.
    + cbn [snd]. subst st; cbn [add_log turns] in Ht.
      split; [lia|]. unfold wait in Hpace. lia.
  - intros fuel w interval_minutes. unfold start_scheduler, interrupt_seen.
    destruct (start_eq w interval_minutes) as [t ->].
    destruct (outcome (perform_refresh (cycle_host w 0) 0))
      as [[c m|]|b] eqn:E.
    + exfalso. exact (perform_refresh_no_exception _ _ _ _ E).
    + intros _. right. exists 0, 0. exact E.
    + intros H. apply loop_stops_on_interrupt in H.
      cbn [add_log turns] in H.
      destruct H as [(i & _ & H2 & H3)|Hk]; [left|right; exact Hk].
      exists i. split; [lia | exact H3].
Qed.

Lemma failing_host_quiet : quiet_host Fixtures.failing_host.
Proof.
  unfold quiet_host; cbn. repeat split; try discriminate.
  intros auth c H. inversion H; subst. intros ep kwargs. discriminate.
Qed.

Lemma healthy_host_quiet : quiet_host Fixtures.healthy_host.
Proof.
  unfold quiet_host; cbn. repeat split; try discriminate.
  intros auth c H. inversion H; subst. intros ep kwargs.
  destruct ep; discriminate.
Qed.

Lemma cycle_failure_never_stops_scheduler_witness :
  (outcome (perform_refresh Fixtures.failing_host 0) = inr false /\
   exists t, events (perform_refresh Fixtures.failing_host 0)
             = t ++ [refresh_error (Exception "APIResponseError" "rate limited")]) /\
  fst (start_scheduler 200 (Fixtures.calm Fixtures.failing_host) 1) = Looping /\
  turns (snd (start_scheduler 200 (Fixtures.calm Fixtures.failing_host) 1)) = 200 /\
  200 <= 60 * 1
         * cycles (snd (start_scheduler 200 (Fixtures.calm Fixtures.failing_host) 1)).
Proof.
  destruct cycle_failure_never_stops_scheduler as (Hcatch & _ & Hloop & Hnext & _).
  split; [|split].
  - apply Hcatch. left. right; right. split; [reflexivity|].
    exists (fun _ _ => inl (Exception "APIResponseError" "rate limited")), "db-1".
    repeat split; try reflexivity. discriminate.
  - apply Hloop.
    + intros k. exact failing_host_quiet.
    + intros i _. reflexivity.
  - apply Hnext.
    + lia.
    + intros k. exact failing_host_quiet.
    + intros i _. reflexivity.
Defined.

(** A poll of a scheduler that holds one job. *)
Lemma run_pending_single (w : World) (st : sched) (j : job) :
  jobs st = [j] ->
  run_pending w st
  = if should_run (clock st) j then
      match run_job w st with
      | (inl e, st1) => (inl e, st1)
      | (inr _, st1) => (inr tt, reschedule_job 0 st1)
      end
    else (inr tt, st).
Proof.
  intros Hj. unfold run_pending, runnable, sorted. rewrite Hj. cbn.
  destruct (should_run (clock st) j); cbn; [|reflexivity].
  destruct (run_job w st) as [[e|b] st1]; reflexivity.
Qed.

(** One turn of the loop keeps the one job on schedule. *)
Lemma turn_on_schedule (w : World) (P e : nat) (st : sched) :
  1 <= P ->
  on_schedule P e st ->
  quiet_host (cycle_host w (cycles st)) ->
  sleep_interrupted w (turns st) = false ->
  exists st1 st2,
    run_pending w st = (inr tt, st1) /\
    sleep1 w st1 = (inr tt, st2) /\
    on_schedule P e st2 /\
    turns st2 = S (turns st) /\
    (cycle_elapsed w (cycles st) = 0 -> clock st2 = S (clock st)).
Proof.
  intros HP (nr & due & Hj & Hd & Hle & Hlt & Heq & Hup & H0) Hq Hs.
  rewrite (run_pending_single w st _ Hj). unfold should_run. cbn [next_run].
  destruct (Z.leb_spec nr (Z.of_nat (clock st))) as [Hdue|Hnot].
  - assert (Ht : turns st = due).
    { destruct (Nat.eq_dec (turns st) due) as [H|H]; [exact H|].
      assert (H' : turns st < due) by lia. specialize (Hlt H'). lia. }
    rewrite run_job_eq.
    destruct (perform_refresh_quiet _ (clock st) Hq) as [b ->].
    eexists; eexists. split; [reflexivity|].
    unfold sleep1, reschedule_job. cbn [turns clock jobs cycles logged].
    rewrite Hs. split; [reflexivity|].
    split; [|split; [reflexivity | intros ->; cbn [clock]; lia]].
    unfold on_schedule. cbn [turns clock jobs cycles logged].
    rewrite Hj. cbn [reschedule rescheduled period next_run].
    eexists; exists (due + P). split; [reflexivity|].
    cbn [period]. repeat split; intros; nia.
  - assert (Ht : turns st < due).
    { destruct (Nat.eq_dec (turns st) due) as [H|H]; [specialize (Heq H); lia | lia]. }
    specialize (Hlt Ht).
    eexists; eexists. split; [reflexivity|].
    unfold sleep1. rewrite Hs. split; [reflexivity|].
    split; [|split; [reflexivity | intros _; cbn [clock]; lia]].
    unfold on_schedule. cbn [turns clock jobs cycles logged].
    exists nr, due. split; [exact Hj|].
    repeat split; intros; lia.
Qed.

Lemma loop_on_schedule (fuel : nat) (w : World) (P e : nat) (st : sched) :
  1 <= P ->
  on_schedule P e st ->
  (forall k, quiet_host (cycle_host w k)) ->
  (forall i, turns st <= i -> i < turns st + fuel ->
             sleep_interrupted w i = false) ->
  exists st',
    loop fuel w st = (Looping, st') /\
    on_schedule P e st' /\
    turns st' = turns st + fuel /\
    ((forall k, cycle_elapsed w k = 0) -> clock st' = clock st + fuel).
Proof.
  intros HP Hon Hq. revert st Hon.
  induction fuel as [|fuel IH]; intros st Hon Hs; cbn [loop].
  - exists st. split; [reflexivity|]. split; [exact Hon|]. split; intros; lia.
  - destruct (turn_on_schedule w P e st HP Hon (Hq _)) as
      (st1 & st2 & -> & -> & Hon2 & Ht2 & Hc2); [apply Hs; lia|].
    destruct (IH st2 Hon2) as (st' & Hloop & Hon' & Ht' & Hc').
    + intros i H1 H2. apply Hs; lia.
    + exists st'. split; [exact Hloop|]. split; [exact Hon'|].
      split; [lia|]. intros Hel. rewrite (Hc' Hel), (Hc2 (Hel _)). lia.
Qed.

(** The cycles a scheduler on schedule has run after [n] turns. *)
Lemma on_schedule_count (P e : nat) (st : sched) :
  1 <= P ->
  on_schedule P e st ->
  1 <= turns st ->
  cycles st = 1 + (turns st - 1 + e) / P.
Proof.
  intros HP (nr & due & _ & Hd & Hle & _ & _ & Hup & _) Ht.
  specialize (Hup Ht).
  destruct (cycles st) as [|c]; [nia|].
  cbn [Nat.add]. f_equal.
  apply (Nat.div_unique (turns st - 1 + e) P c (turns st - 1 + e - P * c)); nia.
Qed.

(** C8, amended.  On the first call of [start_scheduler] in a process
    (no job left on the scheduler by an earlier call), with an interval of
    at least one minute and no interrupt: one cycle runs before the loop
    begins; the loop then polls once for every second it sleeps, and a
    cycle runs each time a whole interval has been slept since the
    previous scheduled cycle ended (for the first scheduled cycle: since
    the start of the call, the seconds the initial cycle took counting
    toward it).  So after [n] turns, with [P] the interval in seconds and
    [d] the duration of the initial cycle, [1 + (n - 1 + min d P) / P]
    cycles have run.  When cycles take no clock time the clock reads [n]
    and the count is [1 + (n - 1) / P]: for an interval of one minute,
    once the poll at clock 120 (two intervals) has taken place, and until
    the poll at clock 180, exactly three cycles have run. *)
Theorem scheduler_runs_once_per_interval :
  forall (w : World) (interval_minutes n : nat),
    1 <= interval_minutes ->
    registered w = [] ->
    (forall k, quiet_host (cycle_host w k)) ->
    (forall i, i < n -> sleep_interrupted w i = false) ->
    (cycles (snd (start w interval_minutes)) = 1 /\
     turns (snd (start w interval_minutes)) = 0) /\
    fst (start_scheduler n w interval_minutes) = Looping /\
    turns (snd (start_scheduler n w interval_minutes)) = n /\
    (1 <= n ->
     cycles (snd (start_scheduler n w interval_minutes))
     = 1 + (n - 1 + Nat.min (cycle_elapsed w 0) (60 * interval_minutes))
           / (60 * interval_minutes)) /\
    ((forall k, cycle_elapsed w k = 0) ->
     clock (snd (start_scheduler n w interval_minutes)) = n /\
     cycles (snd (start_scheduler n w interval_minutes))
     = 1 + (n - 1) / (60 * interval_minutes) /\
     (interval_minutes = 1 -> 120 < n -> n <= 180 ->
      cycles (snd (start_scheduler n w interval_minutes)) = 3)).
Proof.
  intros w interval_minutes n Hm Hreg Hq Hs.
  unfold start_scheduler.
  destruct (start_eq w interval_minutes) as [t ->].
  split; [split; reflexivity|].
  destruct (perform_refresh_quiet _ 0 (Hq 0)) as [b ->].
  rewrite Hreg. cbn [app].
  set (P := 60 * interval_minutes).
  set (e := Nat.min (cycle_elapsed w 0) P).
  set (st := add_log _ _).
  assert (HP : 1 <= P) by (unfold P; lia).
  assert (Hon : on_schedule P e st).
  { unfold on_schedule, st; cbn [add_log clock jobs turns cycles].
    exists (Z.of_nat P), (P - e). split; [reflexivity|].
    unfold e. repeat split; intros; lia. }
  destruct (loop_on_schedule n w P e st HP Hon Hq)
    as (st' & -> & Hon' & Ht' & Hc').
  { intros i _ Hi. apply Hs. exact Hi. }
  assert (Hturns : turns st' = n) by (rewrite Ht'; reflexivity).
  cbn [fst snd]. split; [reflexivity|]. split; [exact Hturns|].
  split.
  - intros Hn. rewrite (on_schedule_count P e st' HP Hon') by lia.
    rewrite Hturns. reflexivity.
  - intros Hel.
    assert (Hclock : clock st' = n).
    { rewrite (Hc' Hel). unfold st; cbn [add_log clock]. rewrite Hel. reflexivity. }
    assert (He : e = 0) by (unfold e; rewrite Hel; reflexivity).
    assert (Hcount : cycles st' = 1 + (n - 1) / P).
    { destruct n as [|n'].
      - destruct Hon' as (nr & due & _ & _ & _ & _ & _ & _ & H0).
        rewrite (H0 Hturns). cbn [Nat.sub]. rewrite Nat.Div0.div_0_l. reflexivity.
      - rewrite (on_schedule_count P e st' HP Hon') by lia.
        rewrite Hturns, He, Nat.add_0_r. reflexivity. }
    split; [exact Hclock|]. split; [exact Hcount|].
    intros -> Hlo Hhi. rewrite Hcount. unfold P.
    replace ((n - 1) / (60 * 1)) with 2; [reflexivity|].
    apply (Nat.div_unique (n - 1) (60 * 1) 2 (n - 1 - 120)); lia.
Qed.

Lemma scheduler_runs_once_per_interval_witness :
  (fst (start_scheduler 121 (Fixtures.calm Fixtures.healthy_host) 1) = Looping /\
   clock (snd (start_scheduler 121 (Fixtures.calm Fixtures.healthy_host) 1)) = 121 /\
   cycles (snd (start_scheduler 121 (Fixtures.calm Fixtures.healthy_host) 1)) = 3) /\
  cycles (snd (start_scheduler 111 (Fixtures.slow 5 Fixtures.healthy_host) 1))
  = 1 + (111 - 1 + Nat.min 5 (60 * 1)) / (60 * 1).
Proof.
  split.
  - destruct (scheduler_runs_once_per_interval
                (Fixtures.calm Fixtures.healthy_host) 1 121)
      as (_ & Hloop & _ & _ & Hcalm).
    + lia.
    + reflexivity.
    + intros k. exact healthy_host_quiet.
    + intros i _. reflexivity.
    + destruct Hcalm as (Hclock & _ & Hthree); [intros k; reflexivity|].
      split; [exact Hloop|]. split; [exact Hclock|].
      apply Hthree; [reflexivity|lia|lia].
  - destruct (scheduler_runs_once_per_interval
                (Fixtures.slow 5 Fixtures.healthy_host) 1 111)
      as (_ & _ & _ & Hcount & _).
    + lia.
    + reflexivity.
    + intros k. exact healthy_host_quiet.
    + intros i _. reflexivity.
    + apply Hcount. lia.
Defined.

(** C8 as stated fails in two ways.  When every cycle takes five
    seconds, the second scheduled cycle is due at clock 125, so at clock
    121 only two cycles have run.  And in a process where an earlier call
    has left its job on the scheduler, that job runs as well: at clock 121
    five cycles have run. *)
Lemma scheduler_count_depends_on_cycle_time :
  ~ three_cycles_after_two_intervals (Fixtures.slow 5 Fixtures.healthy_host) /\
  ~ three_cycles_after_two_intervals
      (Fixtures.second_call 30 Fixtures.healthy_host).
Proof.
  split; intros H.
  - assert (Hc : cycles (snd (start_scheduler 111
                                (Fixtures.slow 5 Fixtures.healthy_host) 1)) = 3)
      by (apply H; vm_compute; lia).
    vm_compute in Hc. discriminate Hc.
  - assert (Hc : cycles (snd (start_scheduler 121
                                (Fixtures.second_call 30 Fixtures.healthy_host) 1)) = 3)
      by (apply H; vm_compute; lia).
    vm_compute in Hc. discriminate Hc.
Qed.

(** The scenario run turn by turn: one cycle during the first minute, two
    once the poll at clock 60 has taken place, three once the poll at
    clock 120 has. *)
Example cycles_through_two_intervals :
  map (fun n => cycles (snd (start_scheduler n (Fixtures.calm Fixtures.healthy_host) 1)))
      [0; 1; 60; 61; 120; 121; 180]
  = [1; 1; 1; 2; 2; 3; 3].
Proof. vm_compute. reflexivity. Qed.

(** The same with cycles of five seconds: clock and cycles after 55, 56,
    111, 115 and 116 turns. *)
Example slow_cycles_drift :
  map (fun n =>
         let st := snd (start_scheduler n (Fixtures.slow 5 Fixtures.healthy_host) 1) in
         (clock st, cycles st))
      [55; 56; 111; 115; 116]
  = [(60, 1); (66, 2); (121, 2); (125, 2); (131, 3)].
Proof. vm_compute. reflexivity. Qed.

(** A store that refuses every call: each cycle fails and is logged, and
    the scheduler keeps its pace. *)
Example failing_cycles_keep_pace :
  let r := start_scheduler 121 (Fixtures.calm Fixtures.failing_host) 1 in
  fst r = Looping /\
  cycles (snd r) = 3 /\
  List.length (Writes.errors (logged (snd r))) = 3.
Proof. vm_compute. repeat split; reflexivity. Qed.

(** An interrupt during the sleep of turn 5 ends the loop with a clean
    return. *)
Example interrupt_returns :
  let r := start_scheduler 121 (Fixtures.interrupted_at 5 Fixtures.healthy_host) 1 in
  fst r = Returned /\
  turns (snd r) = 5 /\
  last (logged (snd r)) (Log INFO "" []) = Log INFO "Scheduler stopped by user" [].
Proof. vm_compute. repeat split; reflexivity. Qed.

End Scheduler.

(** ** The readers on typed rows *)

Section Readers.
Import Py Eff Schema basic_operations fetch_pages Spec Views.

Lemma lookup_cells (name : string) (cells : list (string * value)) :
  lookup name (map cell_json cells) = option_map value_json (cell name cells).
Proof.
  induction cells as [|[n v] cells IH]; [reflexivity|].
  cbn [map cell_json fst snd lookup cell].
  destruct (String.eqb name n); [reflexivity | exact IH].
Qed.

Lemma item_title_cells (cells : list (string * value)) :
  item_title (map cell_json cells)
  = ([], match first_title cells with
         | inl e => inl e
         | inr s => inr (JStr s)
         end).
Proof.
  induction cells as [|[n v] cells IH]; [reflexivity|].
  cbn [map cell_json fst snd item_title first_title].
  destruct v as [runs|runs|o|o|ns|o|ids]; cbn; rewrite ?IH; try reflexivity.
  destruct runs as [|[s|s|s] runs]; cbn; rewrite ?IH; reflexivity.
Qed.

Lemma log_item_row (r : row) :
  log_item (row_json r)
  = match first_title (row_cells r) with
    | inl e => ([], inl e)
    | inr title => ([listing_line title (row_id r)], inr tt)
    end.
Proof.
  unfold log_item, row_json, listing_line. cbn -[item_title].
  rewrite item_title_cells. destruct (first_title (row_cells r)); reflexivity.
Qed.

Lemma log_items_rows (rows : list row) :
  events (mapM log_item (map row_json rows)) = fst (listed rows) /\
  outcome (mapM log_item (map row_json rows))
  = match snd (listed rows) with
    | inl e => inl e
    | inr _ => inr (map (fun _ => tt) rows)
    end.
Proof.
  induction rows as [|r rows [IHe IHo]]; [split; reflexivity|].
  cbn [map mapM listed]. rewrite log_item_row.
  destruct (first_title (row_cells r)) as [e|title]; [split; reflexivity|].
  cbn [Eff.bind fst snd].
  destruct (mapM log_item (map row_json rows)) as [t res].
  cbn [events outcome fst snd] in IHe, IHo. subst t res.
  destruct (snd (listed rows)) as [e|u]; cbn; rewrite ?app_nil_r;
    split; reflexivity.
Qed.

Lemma list_database_items_eq (notion : Client) (database_id : json)
  (rows : list row) :
  notion databases_query [("database_id", database_id)] = inr (query_json rows) ->
  list_database_items notion database_id
  = (Log INFO "Fetching items from database {database_id}" [AJson database_id]
       :: listing_query database_id
       :: Log INFO "Found {len(items)} items" [AInt (List.length rows)]
       :: fst (listed rows),
     match snd (listed rows) with
     | inl e => inl e
     | inr _ => inr (JList (map row_json rows))
     end).
Proof.
  intros Hq. unfold list_database_items, call, listing_query. rewrite Hq.
  cbn -[mapM]. destruct (log_items_rows rows) as [He Ho].
  destruct (mapM log_item (map row_json rows)) as [t res].
  cbn [events outcome fst snd] in He, Ho. subst t res.
  rewrite length_map.
  destruct (snd (listed rows)) as [e|u]; cbn; rewrite ?app_nil_r; reflexivity.
Qed.

(** X1.  On the rows of a store, [list_database_items] issues one query
    that carries the table identifier alone, logs the count, and then
    logs one line per row, in order, titled by the content of the first
    run of the first title column that holds a run (whatever its name) and
    by Untitled when there is none.  It hands back the listed rows as they
    came, unless the title of some row starts with a run that is no text
    run (a mention or an equation): the listing stops at the first such
    row and the call raises [KeyError]. *)
Theorem list_database_items_lists_rows :
  forall (notion : Client) (database_id : json) (rows : list row),
    notion databases_query [("database_id", database_id)]
      = inr (query_json rows) ->
    let m := list_database_items notion database_id in
    outcome m
    = match snd (listed rows) with
      | inl e => inl e
      | inr _ => inr (JList (map row_json rows))
      end /\
    events m
    = Log INFO "Fetching items from database {database_id}" [AJson database_id]
        :: listing_query database_id
        :: Log INFO "Found {len(items)} items" [AInt (List.length rows)]
        :: fst (listed rows).
Proof.
  intros notion database_id rows Hq m; subst m.
  rewrite (list_database_items_eq notion database_id rows Hq).
  split; reflexivity.
Qed.

Lemma list_database_items_lists_rows_witness :
  (let m := list_database_items
              (Samples.listing [Fixtures.blank_entry; Fixtures.stage_entry])
              (JStr "db-1") in
   outcome m
   = inr (JList [row_json Fixtures.blank_entry; row_json Fixtures.stage_entry]) /\
   events m
   = [Log INFO "Fetching items from database {database_id}" [AJson (JStr "db-1")];
      listing_query (JStr "db-1");
      Log INFO "Found {len(items)} items" [AInt 2];
      listing_line "Untitled" "row-4";
      listing_line "Launch" "row-3"]) /\
  (let m := list_database_items
              (Samples.listing [Fixtures.entry; Samples.prompt_row; Fixtures.stage_entry])
              (JStr "db-1") in
   outcome m = inl no_text_field /\
   events m
   = [Log INFO "Fetching items from database {database_id}" [AJson (JStr "db-1")];
      listing_query (JStr "db-1");
      Log INFO "Found {len(items)} items" [AInt 3];
      listing_line "Test Entry" "row-1"]).
Proof.
  split.
  - apply (list_database_items_lists_rows
             (Samples.listing [Fixtures.blank_entry; Fixtures.stage_entry])
             (JStr "db-1") [Fixtures.blank_entry; Fixtures.stage_entry]).
    reflexivity.
  - apply (list_database_items_lists_rows
             (Samples.listing [Fixtures.entry; Samples.prompt_row; Fixtures.stage_entry])
             (JStr "db-1")
             [Fixtures.entry; Samples.prompt_row; Fixtures.stage_entry]).
    reflexivity.
Defined.

Lemma title_of_cells (cells : list (string * value)) (placeholder : string) :
  title_of (JDict (map cell_json cells)) placeholder
  = as_str (title_view cells placeholder).
Proof.
  unfold title_of, title_view, get. rewrite lookup_cells.
  destruct (cell "Name" cells) as [[runs|runs|o|o|ns|o|ids]|]; cbn;
    try reflexivity.
  destruct runs as [|[s|s|s] runs]; reflexivity.
Qed.

Lemma status_of_cells (cells : list (string * value)) :
  name_of (JDict (map cell_json cells)) "Status" "status" "Not Started"
  = as_str (status_view cells).
Proof.
  unfold name_of, status_view, get. rewrite lookup_cells.
  destruct (cell "Status" cells) as [[runs|runs|o|o|ns|o|ids]|]; cbn;
    try reflexivity.
  destruct o; reflexivity.
Qed.

Lemma select_of_cells (cells : list (string * value)) (column default : string) :
  name_of (JDict (map cell_json cells)) column "select" default
  = as_str (select_view column default cells).
Proof.
  unfold name_of, select_view, get. rewrite lookup_cells.
  destruct (cell column cells) as [[runs|runs|o|o|ns|o|ids]|]; cbn;
    try reflexivity.
  destruct o; reflexivity.
Qed.

Lemma format_project_row (r : row) :
  format_project (row_json r) = ([], project_view r).
Proof.
  unfold format_project, project_view, row_json. cbn.
  rewrite title_of_cells, status_of_cells, select_of_cells.
  destruct (title_view _ _); cbn; [reflexivity|].
  destruct (status_view _); cbn; [reflexivity|].
  destruct (select_view _ _ _); cbn; reflexivity.
Qed.

Lemma append_assoc (a b c : string) :
  String.append (String.append a b) c = String.append a (String.append b c).
Proof. induction a as [|x a IH]; cbn; [reflexivity | rewrite IH; reflexivity]. Qed.

Lemma append_empty (a : string) : String.append a "" = a.
Proof. induction a as [|x a IH]; cbn; [reflexivity | rewrite IH; reflexivity]. Qed.

Lemma concat_text_runs (acc : string) (runs : list run) :
  concat_text acc (map run_json runs)
  = inr (String.append acc (fold_right String.append "" (map plain_text runs))).
Proof.
  revert acc; induction runs as [|[s|s|s] runs IH]; intros acc; cbn;
    rewrite ?append_empty, ?IH, ?append_assoc; reflexivity.
Qed.

Lemma tag_names_options (ns : list string) :
  tag_names (map option_json ns) = inr (map JStr ns).
Proof.
  induction ns as [|n ns IH]; cbn; [reflexivity|].
  cbn in IH. rewrite IH. reflexivity.
Qed.

Lemma get_cells (cells : list (string * value)) (name : string) (d : json) :
  get (JDict (map cell_json cells)) name d
  = inr (match cell name cells with
         | Some v => value_json v
         | None => d
         end).
Proof.
  unfold get. rewrite lookup_cells. destruct (cell name cells); reflexivity.
Qed.

Ltac split_cells :=
  repeat match goal with
    | |- context [cell ?name ?cells] =>
        destruct (cell name cells) as [[]|]
    end;
  cbn;
  repeat match goal with
    | |- context [match ?x with _ => _ end] => is_var x; destruct x; cbn
    | |- context [match map _ ?x with _ => _ end] => is_var x; destruct x; cbn
    end.

Lemma format_task_row (r : row) :
  format_task (row_json r) = ([], task_view r).
Proof.
  unfold format_task, task_view, row_json, due_date_view, project_id_view.
  cbn -[title_of name_of get].
  rewrite !get_cells, title_of_cells, status_of_cells.
  destruct (title_view _ _); destruct (status_view _);
    split_cells; reflexivity.
Qed.

Lemma format_prompt_row (r : row) :
  format_prompt (row_json r) = ([], prompt_view r).
Proof.
  unfold format_prompt, prompt_view, row_json, tags_view, prompt_text_view.
  cbn -[title_of name_of get tag_names concat_text].
  rewrite !get_cells, title_of_cells, select_of_cells.
  destruct (title_view _ _); destruct (select_view _ _ _);
    split_cells;
    rewrite ?tag_names_options, ?concat_text_runs; cbn;
    rewrite ?tag_names_options, ?concat_text_runs; try reflexivity.
Qed.

Lemma mapM_views (format : json -> M json) (view : row -> result json)
  (rows : list row) :
  (forall r, format (row_json r) = ([], view r)) ->
  mapM format (map row_json rows) = ([], all_views view rows).
Proof.
  intros H. induction rows as [|r rows IH]; [reflexivity|].
  cbn [map mapM all_views]. rewrite H. cbn [Eff.bind].
  destruct (view r) as [e|v]; [reflexivity|].
  rewrite IH. cbn. destruct (all_views view rows); reflexivity.
Qed.

(** X2.  On the rows of a store [get_projects] issues the one query
    (status filter, priority sort) and maps every row, in order, to its
    identifier, its title (the first run of column Name; the placeholder
    when Name is missing or is no title column), its status (the name
    selected in column Status; Not Started when there is no such status
    column), its priority (likewise from the select column Priority,
    default Medium) and its timestamps and address.  A row with a blank
    title raises [IndexError], one with an unset status or priority raises
    [AttributeError], and the first such row fails the whole call. *)
Theorem get_projects_views :
  forall (notion : Client) (database_id : json) (rows : list row),
    notion databases_query (projects_query database_id) = inr (query_json rows) ->
    let m := get_projects notion database_id in
    outcome m = as_list (all_views project_view rows) /\
    Writes.calls (events m) = [Call databases_query (projects_query database_id)].
Proof.
  intros notion database_id rows Hq m; subst m.
  unfold get_projects, call, projects_query in *. rewrite Hq.
  cbn -[mapM]. rewrite (mapM_views _ _ rows format_project_row).
  destruct (all_views project_view rows) as [[cls msg|]|l]; cbn;
    split; reflexivity.
Qed.

(** X3.  [get_tasks] on the rows of a store: the same title and status as
    [get_projects] (placeholder Untitled Task), the due date as the start
    of column Due Date and the project as the first identifier of
    relation Project, each [None] when the column is missing, of another
    kind, or empty. *)
Theorem get_tasks_views :
  forall (notion : Client) (database_id : json) (rows : list row),
    notion databases_query (tasks_query database_id) = inr (query_json rows) ->
    let m := get_tasks notion database_id in
    outcome m = as_list (all_views task_view rows) /\
    Writes.calls (events m) = [Call databases_query (tasks_query database_id)].
Proof.
  intros notion database_id rows Hq m; subst m.
  unfold get_tasks, call, tasks_query in *. rewrite Hq.
  cbn -[mapM]. rewrite (mapM_views _ _ rows format_task_row).
  destruct (all_views task_view rows) as [[cls msg|]|l]; cbn;
    split; reflexivity.
Qed.

(** X4.  [get_prompt_library] on the rows of a store: no filter, sorted
    by category; the tags are the names selected in column Tags, in
    order, and the prompt text is the concatenation of the runs of column
    Prompt Text, in order; both are empty when the column is missing or of
    another kind.  An unset category raises [AttributeError]. *)
Theorem get_prompt_library_views :
  forall (notion : Client) (database_id : json) (rows : list row),
    notion databases_query (prompts_query database_id) = inr (query_json rows) ->
    let m := get_prompt_library notion database_id in
    outcome m = as_list (all_views prompt_view rows) /\
    Writes.calls (events m) = [Call databases_query (prompts_query database_id)].
Proof.
  intros notion database_id rows Hq m; subst m.
  unfold get_prompt_library, call, prompts_query in *. rewrite Hq.
  cbn -[mapM]. rewrite (mapM_views _ _ rows format_prompt_row).
  destruct (all_views prompt_view rows) as [[cls msg|]|l]; cbn;
    split; reflexivity.
Qed.

Lemma get_projects_views_witness :
  outcome (get_projects (Samples.listing [Samples.project_row]) (JStr "db-1"))
  = inr (JList [JDict [("id", JStr "row-5");
                       ("title", JStr "Launch");
                       ("status", JStr "In Progress");
                       ("priority", JStr "High");
                       ("created_time", JStr "2024-01-01T00:00:00.000Z");
                       ("last_edited_time", JStr "2024-01-02T00:00:00.000Z");
                       ("url", JStr "https://www.notion.so/row")]]).
Proof.
  apply (get_projects_views (Samples.listing [Samples.project_row]) (JStr "db-1")
           [Samples.project_row]).
  reflexivity.
Defined.

Lemma get_tasks_views_witness :
  outcome (get_tasks (Samples.listing [Samples.task_row]) (JStr "db-2"))
  = inr (JList [JDict [("id", JStr "row-6");
                       ("title", JStr "Write tests");
                       ("status", JStr "Not Started");
                       ("due_date", JStr "2024-02-01");
                       ("project_id", JStr "row-5");
                       ("created_time", JStr "2024-01-01T00:00:00.000Z");
                       ("last_edited_time", JStr "2024-01-02T00:00:00.000Z");
                       ("url", JStr "https://www.notion.so/row")]]).
Proof.
  apply (get_tasks_views (Samples.listing [Samples.task_row]) (JStr "db-2")
           [Samples.task_row]).
  reflexivity.
Defined.

Lemma get_prompt_library_views_witness :
  outcome (get_prompt_library (Samples.listing [Samples.prompt_row]) (JStr "db-3"))
  = inr (JList [JDict [("id", JStr "row-8");
                       ("title", JStr "Summarise");
                       ("category", JStr "Writing");
                       ("tags", JList [JStr "short"; JStr "draft"]);
                       ("prompt_text", JStr "Summarise this.");
                       ("created_time", JStr "2024-01-01T00:00:00.000Z");
                       ("last_edited_time", JStr "2024-01-02T00:00:00.000Z");
                       ("url", JStr "https://www.notion.so/row")]]).
Proof.
  apply (get_prompt_library_views (Samples.listing [Samples.prompt_row])
           (JStr "db-3") [Samples.prompt_row]).
  reflexivity.
Defined.

(** X5.  A project whose priority select is unset stops [get_projects]:
    the default Medium only stands in for a missing column, so the unset
    value raises [AttributeError], whatever rows follow. *)
Theorem get_projects_unset_priority :
  forall (notion : Client) (database_id : json) (r : row) (rest : list row)
         (title status : string),
    notion databases_query (projects_query database_id)
      = inr (query_json (r :: rest)) ->
    title_view (row_cells r) "Untitled Project" = inr title ->
    status_view (row_cells r) = inr status ->
    cell "Priority" (row_cells r) = Some (VSelect None) ->
    outcome (get_projects notion database_id) = inl none_has_no_get.
Proof.
  intros notion database_id r rest title status Hq Ht Hs Hp.
  destruct (get_projects_views notion database_id (r :: rest) Hq) as [-> _].
  cbn [all_views]. unfold project_view, select_view. rewrite Ht, Hs, Hp.
  reflexivity.
Qed.

Lemma get_projects_unset_priority_witness :
  outcome (get_projects (Samples.listing [Samples.unranked_row; Samples.project_row])
             (JStr "db-1"))
  = inl none_has_no_get.
Proof.
  apply (get_projects_unset_priority
           (Samples.listing [Samples.unranked_row; Samples.project_row])
           (JStr "db-1") Samples.unranked_row [Samples.project_row]
           "Idea" "Not Started"); reflexivity.
Defined.

Lemma mapM_fails {A B : Type} (f : A -> M B) (l : list A) (x : A) :
  In x l -> (exists e, outcome (f x) = inl e) ->
  exists e, outcome (mapM f l) = inl e.
Proof.
  intros Hin [e He]. induction l as [|y l IH]; [contradiction|].
  cbn [mapM]. destruct (f y) as [t [e'|b]] eqn:Ey; cbn.
  - exists e'; reflexivity.
  - destruct Hin as [->|Hin].
    + rewrite Ey in He. discriminate He.
    + destruct (IH Hin) as [e' He'].
      destruct (mapM f l) as [t' [e''|bs]]; cbn in *; [|discriminate].
      exists e''. reflexivity.
Qed.

Lemma reraised {A : Type} (body : M A) (handler_log : exn -> M unit) :
  (forall e, exists t, handler_log e = (t, inr tt)) ->
  (exists e, outcome body = inl e) ->
  exists e, outcome (try_except body (fun e => handler_log e ;;; raise e)) = inl e.
Proof.
  intros Hh [e He]. destruct body as [t r]. cbn in He. subst r.
  destruct e as [cls msg|]; cbn.
  - destruct (Hh (Exception cls msg)) as [t' ->]. cbn. eexists; reflexivity.
  - eexists; reflexivity.
Qed.

(** X6.  The readers return a whole list or none: whatever the store
    lists, if formatting fails on one of the listed items the reader
    raises, and what it had formatted before is dropped. *)
Theorem readers_fail_as_a_whole :
  forall (notion : Client) (database_id response : json) (items : list json)
         (item : json),
    get response "results" (JList []) = inr (JList items) ->
    In item items ->
    (notion databases_query (projects_query database_id) = inr response ->
     (exists e, outcome (format_project item) = inl e) ->
     exists e, outcome (get_projects notion database_id) = inl e) /\
    (notion databases_query (tasks_query database_id) = inr response ->
     (exists e, outcome (format_task item) = inl e) ->
     exists e, outcome (get_tasks notion database_id) = inl e) /\
    (notion databases_query (prompts_query database_id) = inr response ->
     (exists e, outcome (format_prompt item) = inl e) ->
     exists e, outcome (get_prompt_library notion database_id) = inl e).
Proof.
  intros notion database_id response items item Hres Hin.
  repeat split; intros Hq Hfail.
  - unfold get_projects. apply reraised; [intros; eexists; reflexivity|].
    unfold call, projects_query in *. rewrite Hq. cbn -[mapM get].
    rewrite Hres. cbn -[mapM].
    destruct (mapM_fails format_project items item Hin Hfail) as [e He].
    destruct (mapM format_project items) as [t r]; cbn in He; subst r.
    cbn. eexists; reflexivity.
  - unfold get_tasks. apply reraised; [intros; eexists; reflexivity|].
    unfold call, tasks_query in *. rewrite Hq. cbn -[mapM get].
    rewrite Hres. cbn -[mapM].
    destruct (mapM_fails format_task items item Hin Hfail) as [e He].
    destruct (mapM format_task items) as [t r]; cbn in He; subst r.
    cbn. eexists; reflexivity.
  - unfold get_prompt_library. apply reraised; [intros; eexists; reflexivity|].
    unfold call, prompts_query in *. rewrite Hq. cbn -[mapM get].
    rewrite Hres. cbn -[mapM].
    destruct (mapM_fails format_prompt items item Hin Hfail) as [e He].
    destruct (mapM format_prompt items) as [t r]; cbn in He; subst r.
    cbn. eexists; reflexivity.
Qed.

Lemma readers_fail_as_a_whole_witness :
  exists e,
    outcome (get_projects
               (Samples.listing [Samples.project_row; Fixtures.blank_entry])
               (JStr "db-1")) = inl e.
Proof.
  destruct (readers_fail_as_a_whole
              (Samples.listing [Samples.project_row; Fixtures.blank_entry])
              (JStr "db-1")
              (query_json [Samples.project_row; Fixtures.blank_entry])
              [row_json Samples.project_row; row_json Fixtures.blank_entry]
              (row_json Fixtures.blank_entry)) as (H & _).
  - reflexivity.
  - right; left; reflexivity.
  - apply H; [reflexivity | eexists; reflexivity].
Defined.

(** X7.  When the query itself fails, the failure reaches the caller of
    every reader unchanged and nothing else is called.
    [list_database_items] has no handler and logs nothing about it; the
    readers of [fetch_pages] log one error record first. *)
Theorem query_failure_reaches_caller :
  forall (notion : Client) (database_id : json) (e : exn),
    (notion databases_query [("database_id", database_id)] = inl e ->
     outcome (list_database_items notion database_id) = inl e /\
     Writes.calls (events (list_database_items notion database_id))
     = [listing_query database_id] /\
     Writes.errors (events (list_database_items notion database_id)) = []) /\
    (notion databases_query (projects_query database_id) = inl e ->
     outcome (get_projects notion database_id) = inl e /\
     Writes.calls (events (get_projects notion database_id))
     = [Call databases_query (projects_query database_id)] /\
     (e <> KeyboardInterrupt ->
      Writes.errors (events (get_projects notion database_id))
      = [Log ERROR "Error fetching projects: {e}" [AExn e]])) /\
    (notion databases_query (tasks_query database_id) = inl e ->
     outcome (get_tasks notion database_id) = inl e /\
     Writes.calls (events (get_tasks notion database_id))
     = [Call databases_query (tasks_query database_id)] /\
     (e <> KeyboardInterrupt ->
      Writes.errors (events (get_tasks notion database_id))
      = [Log ERROR "Error fetching tasks: {e}" [AExn e]])) /\
    (notion databases_query (prompts_query database_id) = inl e ->
     outcome (get_prompt_library notion database_id) = inl e /\
     Writes.calls (events (get_prompt_library notion database_id))
     = [Call databases_query (prompts_query database_id)] /\
     (e <> KeyboardInterrupt ->
      Writes.errors (events (get_prompt_library notion database_id))
      = [Log ERROR "Error fetching prompts: {e}" [AExn e]])).
Proof.
  intros notion database_id e. split; [|split; [|split]]; intros Hq.
  - unfold list_database_items, call. rewrite Hq. repeat split; reflexivity.
  - unfold get_projects, call, projects_query in *. rewrite Hq.
    destruct e; (split; [reflexivity|]; split; [reflexivity|]);
      [reflexivity | intros H; contradiction H; reflexivity].
  - unfold get_tasks, call, tasks_query in *. rewrite Hq.
    destruct e; (split; [reflexivity|]; split; [reflexivity|]);
      [reflexivity | intros H; contradiction H; reflexivity].
  - unfold get_prompt_library, call, prompts_query in *. rewrite Hq.
    destruct e; (split; [reflexivity|]; split; [reflexivity|]);
      [reflexivity | intros H; contradiction H; reflexivity].
Qed.

Lemma query_failure_reaches_caller_witness :
  outcome (list_database_items (Samples.refusing Samples.rate_limited) (JStr "db-1"))
  = inl Samples.rate_limited /\
  outcome (get_tasks (Samples.refusing Samples.rate_limited) (JStr "db-2"))
  = inl Samples.rate_limited.
Proof.
  destruct (query_failure_reaches_caller (Samples.refusing Samples.rate_limited)
              (JStr "db-1") Samples.rate_limited) as (Hlist & _).
  destruct (query_failure_reaches_caller (Samples.refusing Samples.rate_limited)
              (JStr "db-2") Samples.rate_limited) as (_ & _ & Htasks & _).
  split.
  - apply Hlist. reflexivity.
  - apply Htasks. reflexivity.
Defined.

(** X8.  A query answer that carries no result list is read as an empty
    table: every reader returns the empty list and reports zero rows. *)
Theorem answer_without_results :
  forall (notion : Client) (database_id : json) (answer : list (string * json)),
    lookup "results" answer = None ->
    (notion databases_query [("database_id", database_id)] = inr (JDict answer) ->
     outcome (list_database_items notion database_id) = inr (JList []) /\
     In (Log INFO "Found {len(items)} items" [AInt 0])
        (events (list_database_items notion database_id))) /\
    (notion databases_query (projects_query database_id) = inr (JDict answer) ->
     outcome (get_projects notion database_id) = inr (JList [])) /\
    (notion databases_query (tasks_query database_id) = inr (JDict answer) ->
     outcome (get_tasks notion database_id) = inr (JList [])) /\
    (notion databases_query (prompts_query database_id) = inr (JDict answer) ->
     outcome (get_prompt_library notion database_id) = inr (JList [])).
Proof.
  intros notion database_id answer Hres. split; [|split; [|split]]; intros Hq.
  - unfold list_database_items, call. rewrite Hq. cbn. rewrite Hres.
    split; [reflexivity | cbn; tauto].
  - unfold get_projects, call, projects_query in *. rewrite Hq. cbn.
    rewrite Hres. reflexivity.
  - unfold get_tasks, call, tasks_query in *. rewrite Hq. cbn.
    rewrite Hres. reflexivity.
  - unfold get_prompt_library, call, prompts_query in *. rewrite Hq. cbn.
    rewrite Hres. reflexivity.
Qed.

Lemma answer_without_results_witness :
  outcome (list_database_items Samples.bare (JStr "db-1")) = inr (JList []) /\
  outcome (get_prompt_library Samples.bare (JStr "db-3")) = inr (JList []).
Proof.
  destruct (answer_without_results Samples.bare (JStr "db-1")
              [("object", JStr "list")] eq_refl) as (Hlist & _).
  destruct (answer_without_results Samples.bare (JStr "db-3")
              [("object", JStr "list")] eq_refl) as (_ & _ & _ & Hprompts).
  split.
  - apply Hlist. reflexivity.
  - apply Hprompts. reflexivity.
Defined.

End Readers.

(** ** More of create_new_entry and update_entry_status *)

Section Entries.
Import Py Eff Schema basic_operations Spec.

(** X9.  Without a desired status ([None], or the empty string, which
    counts as none) creation on a table with a status column picks the
    first option and says so at info level; no warning is logged. *)
Theorem create_new_entry_default_status :
  forall (notion : Client) (database_id : json) (title : string)
         (status : option string) (cols : list column) (tp sp o1 : string)
         (rest : list string),
    notion databases_retrieve [("database_id", database_id)]
      = inr (database_json cols) ->
    well_formed cols ->
    title_names cols = [tp] ->
    status_columns cols = [(sp, o1 :: rest)] ->
    opt_truthy status = false ->
    let m := create_new_entry notion database_id title status in
    created_with_status m database_id tp title sp o1 /\
    Writes.warnings (events m) = [] /\
    In (Log INFO "No status specified. Using '{status_options[0]}' by default."
          [AJson (JStr o1)]) (events m).
Proof.
  intros notion database_id title status cols tp sp o1 rest
         Hdb Hwf Htitle Hstatus Hnone.
  exact (create_new_entry_defaults notion database_id title status cols
           tp sp o1 rest Hdb Hwf Htitle Hstatus Hnone).
Qed.

Lemma create_new_entry_default_status_witness :
  let m := create_new_entry (Fixtures.store Fixtures.table Fixtures.entry)
             (JStr "db-1") "Test Entry" None in
  created_with_status m (JStr "db-1") "Name" "Test Entry" "Status" "Not Started" /\
  Writes.warnings (events m) = [] /\
  In (Log INFO "No status specified. Using '{status_options[0]}' by default."
        [AJson (JStr "Not Started")]) (events m).
Proof.
  apply (create_new_entry_default_status
           (Fixtures.store Fixtures.table Fixtures.entry)
           (JStr "db-1") "Test Entry" None Fixtures.table "Name" "Status"
           "Not Started" ["In Progress"; "Done"]).
  - reflexivity.
  - split; [repeat constructor|]; simpl; intuition discriminate.
  - reflexivity.
  - reflexivity.
  - reflexivity.
Defined.

(** X10.  When the status column offers no option at all, no status is
    written, not even one that was asked for, and nothing is logged about
    it: the row is created with its title alone. *)
Theorem create_new_entry_status_without_options :
  forall (notion : Client) (database_id : json) (title : string)
         (status : option string) (cols : list column) (tp sp : string),
    notion databases_retrieve [("database_id", database_id)]
      = inr (database_json cols) ->
    well_formed cols ->
    title_names cols = [tp] ->
    status_columns cols = [(sp, [])] ->
    let m := create_new_entry notion database_id title status in
    Writes.calls (events m)
    = [Call databases_retrieve [("database_id", database_id)];
       create_call database_id [(tp, title_value title)]] /\
    Writes.warnings (events m) = [].
Proof.
  intros notion database_id title status cols tp sp
         Hdb Hwf Htitle Hstatus m; subst m.
  assert (Hint : In tp (title_names cols)) by (rewrite Htitle; left; reflexivity).
  pose proof (well_formed_title cols tp Hwf Hint) as Htp.
  rewrite (create_new_entry_on_schema _ _ _ _ _ Hdb).
  rewrite found_eq, Htitle, Hstatus.
  unfold create_with, add_status; cbn [map last_of fst snd title_property
    status_property status_options opt_truthy].
  rewrite (str_truthy_true _ Htp).
  pose proof (create_page_events notion database_id [(tp, title_value title)])
    as (Hcalls & _ & Hwarn).
  destruct (str_truthy sp); destruct status as [s|];
    cbn -[create_page] in *; try destruct (str_truthy s);
    cbn -[create_page] in *;
    destruct (create_page _ _ _) as [t r]; cbn in *;
    rewrite Hcalls, Hwarn; split; reflexivity.
Qed.

Lemma create_new_entry_status_without_options_witness :
  let m := create_new_entry
             (Fixtures.store Samples.optionless_table Fixtures.entry)
             (JStr "db-1") "Test Entry" (Some "Done") in
  Writes.calls (events m)
  = [Call databases_retrieve [("database_id", JStr "db-1")];
     create_call (JStr "db-1") [("Name", title_value "Test Entry")]] /\
  Writes.warnings (events m) = [].
Proof.
  apply (create_new_entry_status_without_options
           (Fixtures.store Samples.optionless_table Fixtures.entry)
           (JStr "db-1") "Test Entry" (Some "Done") Samples.optionless_table
           "Name" "Status").
  - reflexivity.
  - split; [repeat constructor|]; simpl; intuition discriminate.
  - reflexivity.
  - reflexivity.
Defined.

Lemma create_page_refused (notion : Client) (database_id : json)
  (properties : list (string * json)) (cls msg : string) :
  notion pages_create
    [("parent", JDict [("database_id", database_id)]);
     ("properties", JDict properties)] = inl (Exception cls msg) ->
  outcome (create_page notion database_id properties) = inr JNull /\
  Writes.errors (events (create_page notion database_id properties))
  = [Samples.create_error (Exception cls msg)].
Proof.
  intros H. unfold create_page, call. rewrite H. split; reflexivity.
Qed.

Lemma add_status_logs (st : found) (status : option string)
  (props : list (string * json)) :
  exists t props',
    add_status st status props = (t, inr props') /\
    Writes.errors t = [] /\ Writes.calls t = [].
Proof.
  unfold add_status.
  destruct (status_property st) as [sp|];
    [|exists [], props; repeat split].
  destruct (str_truthy sp && opt_truthy status).
  - destruct status as [s|]; [|exists [], props; repeat split].
    destruct (status_in s (status_options st));
      [eexists; eexists; repeat split|].
    destruct (status_options st); eexists; eexists; repeat split.
  - destruct (str_truthy sp); [|exists [], props; repeat split].
    destruct (status_options st); eexists; eexists; repeat split.
Qed.

(** X11.  The two remote calls of [create_new_entry] fail differently.
    A failure of the schema retrieval is not handled: it reaches the
    caller as it is, and nothing is created.  A failure of the create
    call is swallowed: the function logs it and returns [None]. *)
Theorem create_new_entry_failures :
  forall (notion : Client) (database_id : json) (title : string)
         (status : option string),
    (forall e,
        notion databases_retrieve [("database_id", database_id)] = inl e ->
        outcome (create_new_entry notion database_id title status) = inl e /\
        Writes.calls (events (create_new_entry notion database_id title status))
        = [Call databases_retrieve [("database_id", database_id)]]) /\
    (forall cols tp cls msg,
        notion databases_retrieve [("database_id", database_id)]
          = inr (database_json cols) ->
        well_formed cols ->
        title_names cols = [tp] ->
        (forall kwargs, notion pages_create kwargs = inl (Exception cls msg)) ->
        outcome (create_new_entry notion database_id title status) = inr JNull /\
        Writes.errors (events (create_new_entry notion database_id title status))
        = [Samples.create_error (Exception cls msg)]).
Proof.
  intros notion database_id title status. split.
  - intros e He. unfold create_new_entry, call. rewrite He.
    split; reflexivity.
  - intros cols tp cls msg Hdb Hwf Htitle Hrefuse.
    assert (Hint : In tp (title_names cols))
      by (rewrite Htitle; left; reflexivity).
    pose proof (well_formed_title cols tp Hwf Hint) as Htp.
    rewrite (create_new_entry_on_schema _ _ _ _ _ Hdb).
    rewrite found_eq, Htitle.
    unfold create_with. cbn [title_property opt_truthy map last_of].
    rewrite (str_truthy_true _ Htp).
    match goal with
    | |- context [add_status ?st status ?props] =>
        destruct (add_status_logs st status props)
          as (t & props' & Hadd & Herr & _);
        rewrite Hadd
    end.
    destruct (create_page_refused notion database_id props' cls msg (Hrefuse _))
      as [Hout Herr'].
    cbn -[create_page] in *.
    destruct (create_page notion database_id props') as [t' r].
    cbn in *. unfold Writes.errors in *. rewrite filter_app, Herr, Herr'.
    split; [exact Hout | reflexivity].
Qed.

Lemma create_new_entry_failures_witness :
  outcome (create_new_entry (Samples.refusing Samples.rate_limited)
             (JStr "db-1") "Test Entry" None)
  = inl Samples.rate_limited /\
  outcome (create_new_entry
             (Samples.read_only Fixtures.table Fixtures.entry Samples.rate_limited)
             (JStr "db-1") "Test Entry" None)
  = inr JNull.
Proof.
  split.
  - destruct (create_new_entry_failures (Samples.refusing Samples.rate_limited)
                (JStr "db-1") "Test Entry" None) as [H _].
    apply H. reflexivity.
  - destruct (create_new_entry_failures
                (Samples.read_only Fixtures.table Fixtures.entry Samples.rate_limited)
                (JStr "db-1") "Test Entry" None) as [_ H].
    apply (H Fixtures.table "Name" "APIResponseError" "rate limited").
    + reflexivity.
    + split; [repeat constructor|]; simpl; intuition discriminate.
    + reflexivity.
    + intros kwargs. reflexivity.
Defined.

Lemma find_status_silent (props : list (string * json)) :
  events (find_status props) = [].
Proof.
  induction props as [|[n d] props IH]; [reflexivity|].
  cbn [find_status]. destruct (getitem d "type") as [e|ty]; cbn; [reflexivity|].
  destruct (eq_str ty "status"); cbn; [reflexivity|].
  destruct (find_status props) as [t r]. cbn in *. subst t. reflexivity.
Qed.

(** X12.  [update_entry_status] never lets an [Exception] out, whatever
    the store answers and however the row is shaped, and it answers
    [True] only after an update call that the store accepted. *)
Theorem update_entry_status_reports :
  forall (notion : Client) (page_id : json) (new_status : string),
    let m := update_entry_status notion page_id new_status in
    (forall cls msg, outcome m <> inl (Exception cls msg)) /\
    (outcome m = inr true ->
     exists sp answer,
       In (update_call page_id sp new_status) (events m) /\
       notion pages_update
         [("page_id", page_id);
          ("properties", JDict [(sp, status_value (JStr new_status))])]
       = inr answer).
Proof.
  intros notion page_id new_status m; subst m.
  unfold update_entry_status, update_call.
  destruct (truthy page_id); cbn [negb];
    [|split; [intros; discriminate | intros H; discriminate H]].
  unfold call.
  destruct (notion pages_retrieve _) as [[cls msg|]|page]; cbn;
    try (split; [intros; discriminate | intros H; discriminate H]).
  destruct (getitem page "properties") as [[cls msg|]|props]; cbn;
    try (split; [intros; discriminate | intros H; discriminate H]).
  destruct (items props) as [[cls msg|]|its]; cbn;
    try (split; [intros; discriminate | intros H; discriminate H]).
  pose proof (find_status_silent its) as Hsilent.
  destruct (find_status its) as [t [[cls msg|]|[sp|]]]; cbn in *; subst t; cbn;
    try (split; [intros; discriminate | intros H; discriminate H]).
  destruct (str_truthy sp); cbn;
    try (split; [intros; discriminate | intros H; discriminate H]).
  destruct (notion pages_update _) as [[cls msg|]|answer] eqn:Hup; cbn;
    try (split; [intros; discriminate | intros H; discriminate H]).
  split; [intros; discriminate|]. intros _.
  exists sp, answer. split; [cbn; tauto | exact Hup].
Qed.

Lemma update_entry_status_reports_witness :
  let notion := Fixtures.store Fixtures.table Fixtures.entry in
  let m := update_entry_status notion (JStr "row-1") "Done" in
  outcome m = inr true /\
  exists sp answer,
    In (update_call (JStr "row-1") sp "Done") (events m) /\
    notion pages_update
      [("page_id", JStr "row-1");
       ("properties", JDict [(sp, status_value (JStr "Done"))])]
    = inr answer.
Proof.
  destruct (update_entry_status_reports
              (Fixtures.store Fixtures.table Fixtures.entry) (JStr "row-1") "Done")
    as [_ H].
  split; [reflexivity | exact (H eq_refl)].
Defined.

(** X13.  A store failure during [update_entry_status] comes back as
    [False] with one error record: a failed retrieve ends the call before
    any update is issued; a failed update is reported the same way. *)
Theorem update_entry_status_store_failures :
  forall (notion : Client) (page_id : json) (new_status cls msg : string),
    truthy page_id = true ->
    (notion pages_retrieve [("page_id", page_id)] = inl (Exception cls msg) ->
     let m := update_entry_status notion page_id new_status in
     outcome m = inr false /\
     Writes.calls (events m) = [Call pages_retrieve [("page_id", page_id)]] /\
     Writes.errors (events m) = [Samples.update_error (Exception cls msg)]) /\
    (forall r sp,
        notion pages_retrieve [("page_id", page_id)] = inr (row_json r) ->
        ~ In "" (cell_names r) ->
        status_cell (row_cells r) = Some sp ->
        notion pages_update
          [("page_id", page_id);
           ("properties", JDict [(sp, status_value (JStr new_status))])]
        = inl (Exception cls msg) ->
        let m := update_entry_status notion page_id new_status in
        outcome m = inr false /\
        Writes.errors (events m) = [Samples.update_error (Exception cls msg)]).
Proof.
  intros notion page_id new_status cls msg Hid. split.
  - intros Hret m; subst m. unfold update_entry_status, call.
    rewrite Hid, Hret. repeat split; reflexivity.
  - intros r sp Hret Hnames Hcell Hup m; subst m.
    assert (Hsp : sp <> "").
    { intros ->. apply Hnames, status_cell_in, Hcell. }
    unfold update_entry_status, call. rewrite Hid, Hret.
    cbn -[find_status]. rewrite find_status_cells, Hcell.
    cbn. rewrite (str_truthy_true _ Hsp). cbn. rewrite Hup.
    split; reflexivity.
Qed.

Lemma update_entry_status_store_failures_witness :
  (let m := update_entry_status (Samples.refusing Samples.rate_limited)
              (JStr "row-1") "Done" in
   outcome m = inr false /\
   Writes.calls (events m) = [Call pages_retrieve [("page_id", JStr "row-1")]] /\
   Writes.errors (events m) = [Samples.update_error Samples.rate_limited]) /\
  (let m := update_entry_status
              (Samples.read_only Fixtures.table Fixtures.entry Samples.rate_limited)
              (JStr "row-1") "Done" in
   outcome m = inr false /\
   Writes.errors (events m) = [Samples.update_error Samples.rate_limited]).
Proof.
  split.
  - destruct (update_entry_status_store_failures
                (Samples.refusing Samples.rate_limited) (JStr "row-1") "Done"
                "APIResponseError" "rate limited" eq_refl) as [H _].
    apply H. reflexivity.
  - destruct (update_entry_status_store_failures
                (Samples.read_only Fixtures.table Fixtures.entry Samples.rate_limited)
                (JStr "row-1") "Done" "APIResponseError" "rate limited" eq_refl)
      as [_ H].
    apply (H Fixtures.entry "Status").
    + reflexivity.
    + simpl; intuition discriminate.
    + reflexivity.
    + reflexivity.
Defined.

End Entries.

(** ** The writers of post_tasks *)

Section PostTasks.
Import Py Eff Schema post_tasks post_tasks_dashboard Spec Samples.

(** X14.  [update_task], [append_to_page] and [update_project_status]
    are transparent: each issues exactly one call, with its arguments as
    given, and its outcome is the store's answer to that call, returned
    when the store answers and raised again when the store fails.
    [create_task] does the same whenever the created row carries an
    identifier. *)
Theorem post_tasks_writers_are_transparent :
  forall (notion : Client) (id properties status : json),
    (outcome (update_task notion id properties)
       = notion pages_update (update_kwargs id properties) /\
     Writes.calls (events (update_task notion id properties))
       = [Call pages_update (update_kwargs id properties)]) /\
    (outcome (append_to_page notion id properties)
       = notion blocks_children_append (append_kwargs id properties) /\
     Writes.calls (events (append_to_page notion id properties))
       = [Call blocks_children_append (append_kwargs id properties)]) /\
    (outcome (update_project_status notion id status)
       = notion pages_update (update_kwargs id (fixed_status status)) /\
     Writes.calls (events (update_project_status notion id status))
       = [Call pages_update (update_kwargs id (fixed_status status))]) /\
    ((forall answer, notion pages_create (create_kwargs id properties) = inr answer ->
                     exists new_id, getitem answer "id" = inr new_id) ->
     outcome (create_task notion id properties)
       = notion pages_create (create_kwargs id properties) /\
     Writes.calls (events (create_task notion id properties))
       = [Call pages_create (create_kwargs id properties)]).
Proof.
  intros notion id properties status.
  unfold update_task, append_to_page, update_project_status, create_task, call,
    update_kwargs, append_kwargs, create_kwargs, fixed_status.
  split; [|split; [|split]].
  - destruct (notion pages_update _) as [[cls msg|]|answer]; split; reflexivity.
  - destruct (notion blocks_children_append _) as [[cls msg|]|answer];
      split; reflexivity.
  - destruct (notion pages_update _) as [[cls msg|]|answer]; split; reflexivity.
  - intros Hid.
    destruct (notion pages_create _) as [[cls msg|]|answer];
      try (split; reflexivity).
    destruct (Hid answer eq_refl) as [new_id Hnew]. cbn. rewrite Hnew.
    split; reflexivity.
Qed.

Lemma post_tasks_writers_are_transparent_witness :
  outcome (create_task (Fixtures.store Fixtures.table Fixtures.entry)
             (JStr "db-1") (JDict []))
  = inr (JDict [("object", JStr "page"); ("id", JStr "row-9")]).
Proof.
  destruct (post_tasks_writers_are_transparent
              (Fixtures.store Fixtures.table Fixtures.entry)
              (JStr "db-1") (JDict []) JNull) as (_ & _ & _ & H).
  apply H. intros answer Ha. inversion Ha; subst. eexists; reflexivity.
Defined.

(** X15.  [create_dashboard_update] creates the row first and appends
    the content afterwards, to the row it has just created.  Without
    content it stops after the create.  With content, a failure of the
    append reaches the caller although the row already exists: nothing
    undoes the create. *)
Theorem create_dashboard_update_steps :
  forall (now : string) (notion : Client)
         (dashboard_id title content_blocks page new_id : json),
    notion pages_create (dashboard_kwargs now dashboard_id title) = inr page ->
    getitem page "id" = inr new_id ->
    let m := create_dashboard_update now notion dashboard_id title content_blocks in
    (truthy content_blocks = false ->
     outcome m = inr page /\
     Writes.calls (events m)
     = [Call pages_create (dashboard_kwargs now dashboard_id title)]) /\
    (truthy content_blocks = true ->
     outcome m
     = match notion blocks_children_append (append_kwargs new_id content_blocks) with
       | inl e => inl e
       | inr _ => inr page
       end /\
     Writes.calls (events m)
     = [Call pages_create (dashboard_kwargs now dashboard_id title);
        Call blocks_children_append (append_kwargs new_id content_blocks)]).
Proof.
  intros now notion dashboard_id title content_blocks page new_id Hc Hid m;
    subst m.
  unfold create_dashboard_update, call, dashboard_kwargs, append_kwargs in *.
  rewrite Hc. split; intros Ht; cbn; rewrite Ht; cbn; rewrite Hid; cbn.
  - split; reflexivity.
  - destruct (notion blocks_children_append _) as [[cls msg|]|answer]; cbn;
      rewrite ?Hid; split; reflexivity.
Qed.

Lemma create_dashboard_update_steps_witness :
  let m := create_dashboard_update "2024-01-03T00:00:00"
             (Samples.no_append Samples.rate_limited)
             (JStr "db-1") (JStr "Weekly update") (JList [divider]) in
  outcome m = inl Samples.rate_limited /\
  Writes.calls (events m)
  = [Call pages_create
       (dashboard_kwargs "2024-01-03T00:00:00" (JStr "db-1") (JStr "Weekly update"));
     Call blocks_children_append (append_kwargs (JStr "row-9") (JList [divider]))].
Proof.
  destruct (create_dashboard_update_steps "2024-01-03T00:00:00"
              (Samples.no_append Samples.rate_limited)
              (JStr "db-1") (JStr "Weekly update") (JList [divider])
              (JDict [("object", JStr "page"); ("id", JStr "row-9")])
              (JStr "row-9")) as [_ H]; [reflexivity | reflexivity |].
  apply H. reflexivity.
Defined.

Lemma opportunity_blocks_typed (str : json -> string) (acc : list json)
  (pairs : list (json * json)) :
  opportunity_blocks str acc (map opportunity pairs)
  = inr (acc ++ map (opportunity_paragraph str) pairs).
Proof.
  revert acc; induction pairs as [|[n p] pairs IH]; intros acc; cbn.
  - rewrite app_nil_r. reflexivity.
  - cbn in IH. rewrite IH, <- app_assoc. reflexivity.
Qed.

(** X16.  On tariff data that lists its opportunities by name and
    profit, [update_tariff_dashboard] appends, in one call to the given
    page, exactly the blocks of [dashboard_blocks]: the heading, the time
    of the update, the two bold figures (with their defaults when the data
    lacks them) and the divider, and, when there are opportunities, a
    second heading followed by one paragraph per opportunity that reads
    name - Potential profit: profit, in the order of the list.  Its
    outcome is the store's answer to that call. *)
Theorem update_tariff_dashboard_blocks :
  forall (str : json -> string) (now : string) (notion : Client)
         (page_id : json) (data : list (string * json))
         (pairs : list (json * json)),
    lookup "top_opportunities" data = Some (JList (map opportunity pairs)) ->
    let m := update_tariff_dashboard str now notion page_id (JDict data) in
    let blocks := dashboard_blocks str now data pairs in
    Writes.calls (events m)
    = [Call blocks_children_append (append_kwargs page_id (JList blocks))] /\
    outcome m
    = notion blocks_children_append (append_kwargs page_id (JList blocks)).
Proof.
  intros str now notion page_id data pairs Htop m blocks; subst m blocks.
  unfold update_tariff_dashboard, call, append_kwargs, get, dashboard_blocks,
    field_or.
  rewrite Htop.
  destruct (lookup "active_opportunities" data) as [active|];
    destruct (lookup "total_revenue" data) as [revenue|];
    destruct pairs as [|np pairs];
    cbn -[String.append opportunity_blocks opportunity_paragraph];
    try (change (opportunity np :: map opportunity pairs)
           with (map opportunity (np :: pairs));
         rewrite opportunity_blocks_typed;
         cbn -[String.append opportunity_paragraph]);
    match goal with
    | |- context [notion blocks_children_append ?k] =>
        destruct (notion blocks_children_append k) as [[cls msg|]|answer] eqn:Hans
    end;
    cbn -[String.append opportunity_paragraph];
    (split; [reflexivity | first [reflexivity | symmetry; exact Hans]]).
Qed.

Lemma update_tariff_dashboard_blocks_witness :
  let m := update_tariff_dashboard plain_str "2024-01-03 09:00"
             (Fixtures.store Fixtures.table Fixtures.entry) (JStr "page-1")
             (tariff_data [(JStr "Steel", JStr "$40.00");
                           (JStr "Copper", JStr "$80.00")]) in
  Writes.calls (events m)
  = [Call blocks_children_append
       (append_kwargs (JStr "page-1")
          (JList [text_block "heading_2" "TariffStrike Dashboard";
                  text_block "paragraph" "Last updated: 2024-01-03 09:00";
                  bold_paragraph "Active arbitrage opportunities: 3";
                  bold_paragraph "Total revenue generated: $120.00";
                  divider_block;
                  text_block "heading_3" "Top Opportunities";
                  text_block "paragraph" "Steel - Potential profit: $40.00";
                  text_block "paragraph" "Copper - Potential profit: $80.00"]))] /\
  outcome m = inr (JDict [("object", JStr "list")]).
Proof.
  destruct (update_tariff_dashboard_blocks plain_str "2024-01-03 09:00"
              (Fixtures.store Fixtures.table Fixtures.entry) (JStr "page-1")
              [("active_opportunities", JInt 3);
               ("total_revenue", JStr "$120.00");
               ("top_opportunities",
                 JList (map opportunity [(JStr "Steel", JStr "$40.00");
                                         (JStr "Copper", JStr "$80.00")]))]
              [(JStr "Steel", JStr "$40.00"); (JStr "Copper", JStr "$80.00")])
    as (Hcalls & Hout); [reflexivity|].
  split; [exact Hcalls | exact Hout].
Defined.

(** X17.  [update_tariff_dashboard] builds all its blocks before it
    calls the store.  So either nothing is called and the call raises
    (tariff data that is no dictionary, an opportunity that is none), or
    exactly one append is issued and the outcome is the store's answer to
    it: a dashboard is never left half written. *)
Theorem update_tariff_dashboard_builds_first :
  forall (str : json -> string) (now : string) (notion : Client)
         (page_id tariff_data : json),
    let m := update_tariff_dashboard str now notion page_id tariff_data in
    (Writes.calls (events m) = [] /\ exists e, outcome m = inl e) \/
    (exists blocks,
        Writes.calls (events m)
        = [Call blocks_children_append (append_kwargs page_id (JList blocks))] /\
        outcome m
        = notion blocks_children_append (append_kwargs page_id (JList blocks))).
Proof.
  intros str now notion page_id tariff_data m; subst m.
  unfold update_tariff_dashboard, call, append_kwargs.
  destruct (get tariff_data "active_opportunities" (JInt 0))
    as [[cls msg|]|active];
    cbn -[String.append opportunity_blocks get];
    try (left; split; [reflexivity | eexists; reflexivity]).
  destruct (get tariff_data "total_revenue" (JStr "$0.00"))
    as [[cls msg|]|revenue];
    cbn -[String.append opportunity_blocks get];
    try (left; split; [reflexivity | eexists; reflexivity]).
  destruct (get tariff_data "top_opportunities" JNull) as [[cls msg|]|top];
    cbn -[String.append opportunity_blocks get];
    try (left; split; [reflexivity | eexists; reflexivity]).
  destruct (truthy top); cbn -[String.append opportunity_blocks get].
  - destruct (get tariff_data "top_opportunities" (JList []))
      as [[cls msg|]|top'];
      cbn -[String.append opportunity_blocks get];
      try (left; split; [reflexivity | eexists; reflexivity]).
    destruct (iter top') as [[cls msg|]|opps];
      cbn -[String.append opportunity_blocks get];
      try (left; split; [reflexivity | eexists; reflexivity]).
    destruct (opportunity_blocks str _ opps) as [[cls msg|]|blocks];
      cbn -[String.append get];
      try (left; split; [reflexivity | eexists; reflexivity]).
    right. exists blocks.
    destruct (notion blocks_children_append _) as [[cls msg|]|answer];
      split; reflexivity.
  - right. eexists.
    match goal with
    | |- context [notion blocks_children_append ?k] =>
        destruct (notion blocks_children_append k) as [[cls msg|]|answer] eqn:Hans
    end; cbn -[String.append]; (split; [reflexivity | symmetry; exact Hans]).
Qed.

End PostTasks.

(** ** The audit file *)

Section Audit.
Import Py Eff updater Spec Samples.

Lemma read_store_same (fs : Fs.files) (p c : string) :
  Fs.read (Fs.store fs p c) p = Some c.
Proof.
  induction fs as [|[q d] fs IH]; cbn.
  - rewrite String.eqb_refl. reflexivity.
  - destruct (String.eqb p q) eqn:E; cbn; rewrite ?E; [reflexivity | exact IH].
Qed.

Lemma read_store_other (fs : Fs.files) (p q c : string) :
  q <> p -> Fs.read (Fs.store fs p c) q = Fs.read fs q.
Proof.
  intros Hne. induction fs as [|[p' d] fs IH]; cbn.
  - apply String.eqb_neq in Hne. rewrite Hne. reflexivity.
  - destruct (String.eqb p p') eqn:E; cbn.
    + apply String.eqb_eq in E. subst p'.
      apply String.eqb_neq in Hne. rewrite Hne. reflexivity.
    + destruct (String.eqb q p'); [reflexivity | exact IH].
Qed.

Lemma opened_other (fs : Fs.files) (p q mode : string) :
  q <> p -> Fs.read (Fs.opened fs p mode) q = Fs.read fs q.
Proof.
  intros Hne. unfold Fs.opened.
  destruct (String.eqb mode "w"); [apply read_store_other; exact Hne|].
  destruct (Fs.read fs p); [reflexivity | apply read_store_other; exact Hne].
Qed.

Lemma appended_other (fs : Fs.files) (p q d : string) :
  q <> p -> Fs.read (Fs.appended fs p d) q = Fs.read fs q.
Proof.
  intros Hne. unfold Fs.appended.
  destruct (Fs.read fs p); apply read_store_other; exact Hne.
Qed.

Lemma with_open_write_other (ft : Fs.faults) (fs : Fs.files)
  (p q mode d : string) :
  q <> p ->
  Fs.read (snd (Fs.with_open_write ft fs p mode d)) q = Fs.read fs q.
Proof.
  intros Hne. unfold Fs.with_open_write.
  destruct (ft (Fs.Open p mode)); [reflexivity|].
  destruct (ft (Fs.Write p d)); destruct (ft (Fs.Close p)); cbn;
    rewrite ?appended_other, ?opened_other by exact Hne; reflexivity.
Qed.

(** Appending to a file that is there keeps what it holds. *)
Lemma append_keeps (ft : Fs.faults) (fs : Fs.files) (p d c : string) :
  Fs.read fs p = Some c ->
  Fs.read (snd (Fs.with_open_write ft fs p "a" d)) p = Some c \/
  Fs.read (snd (Fs.with_open_write ft fs p "a" d)) p = Some (String.append c d).
Proof.
  intros Hc. unfold Fs.with_open_write.
  destruct (ft (Fs.Open p "a")); [cbn; left; exact Hc|]. cbv zeta.
  assert (Hopen : Fs.opened fs p "a" = fs).
  { unfold Fs.opened. cbn. rewrite Hc. reflexivity. }
  rewrite Hopen.
  assert (Happ : Fs.read (Fs.appended fs p d) p = Some (String.append c d)).
  { unfold Fs.appended. rewrite Hc. apply read_store_same. }
  destruct (ft (Fs.Write p d)); destruct (ft (Fs.Close p)); cbn; tauto.
Qed.

(** X18.  The audit file is append-only, whatever the disk does: once
    data/changelog.csv exists, a call of [update_changelog] leaves its
    content as it was, or as it was with the one row
    timestamp,status,message added at the end. *)
Theorem update_changelog_appends_only :
  forall (ft : Fs.faults) (fs : Fs.files)
         (timestamp message status content : string),
    Fs.read fs audit_file = Some content ->
    let fs' := snd (update_changelog ft fs timestamp message status) in
    Fs.read fs' audit_file = Some content \/
    Fs.read fs' audit_file
    = Some (String.append content (csv_row timestamp status message)).
Proof.
  intros ft fs timestamp message status content Hc fs'; subst fs'.
  change audit_file with changelog_path in *.
  change (csv_row timestamp status message)
    with (changelog_line timestamp status message).
  unfold update_changelog, Fs.exists_. rewrite Hc. cbn [negb].
  pose proof (append_keeps ft fs changelog_path
                (changelog_line timestamp status message) content Hc) as H.
  destruct (Fs.with_open_write ft fs changelog_path "a" _) as [r fs2].
  exact H.
Qed.

Lemma update_changelog_appends_only_witness :
  let fs' := snd (update_changelog Fixtures.full_disk
                    [(audit_file, csv_header)]
                    "2024-01-01 10:00:00" "Successful Notion update" "INFO") in
  Fs.read fs' audit_file = Some csv_header \/
  Fs.read fs' audit_file
  = Some (String.append csv_header
            (csv_row "2024-01-01 10:00:00" "INFO" "Successful Notion update")).
Proof.
  apply (update_changelog_appends_only Fixtures.full_disk
           [(audit_file, csv_header)]
           "2024-01-01 10:00:00" "Successful Notion update" "INFO" csv_header).
  reflexivity.
Defined.

Lemma sound_write (ft : Fs.faults) (fs : Fs.files) (p mode d : string) :
  (forall op, ft op = None) ->
  Fs.with_open_write ft fs p mode d
  = (inr tt, Fs.appended (Fs.opened fs p mode) p d).
Proof. intros H. unfold Fs.with_open_write. rewrite !H. reflexivity. Qed.

Lemma sound_entry_on_file (ft : Fs.faults) (fs : Fs.files)
  (timestamp message status content : string) :
  (forall op, ft op = None) ->
  Fs.read fs changelog_path = Some content ->
  Fs.read (snd (update_changelog ft fs timestamp message status)) changelog_path
  = Some (String.append content (changelog_line timestamp status message)).
Proof.
  intros Hft Hc. unfold update_changelog, Fs.exists_. rewrite Hc. cbn [negb].
  rewrite (sound_write _ _ _ _ _ Hft). cbn [snd].
  unfold Fs.opened. cbn [String.eqb Ascii.eqb Bool.eqb]. rewrite Hc.
  unfold Fs.appended. rewrite Hc. apply read_store_same.
Qed.

Lemma sound_entry_first (ft : Fs.faults) (fs : Fs.files)
  (timestamp message status : string) :
  (forall op, ft op = None) ->
  Fs.read fs changelog_path = None ->
  Fs.read (snd (update_changelog ft fs timestamp message status)) changelog_path
  = Some (String.append changelog_header
            (changelog_line timestamp status message)).
Proof.
  intros Hft Hc. unfold update_changelog, Fs.exists_. rewrite Hc. cbn [negb].
  rewrite !(sound_write _ _ _ _ _ Hft). cbn [snd fst].
  assert (H1 : Fs.read (Fs.appended (Fs.opened fs changelog_path "w")
                          changelog_path changelog_header) changelog_path
               = Some changelog_header).
  { unfold Fs.opened. cbn [String.eqb Ascii.eqb Bool.eqb].
    unfold Fs.appended. rewrite read_store_same. apply read_store_same. }
  unfold Fs.opened at 1. cbn [String.eqb Ascii.eqb Bool.eqb]. rewrite H1.
  unfold Fs.appended at 1. rewrite H1. apply read_store_same.
Qed.

Lemma log_all_on_file (ft : Fs.faults) (entries : list (string * string * string))
  (fs : Fs.files) (content : string) :
  (forall op, ft op = None) ->
  Fs.read fs changelog_path = Some content ->
  Fs.read (log_all ft fs entries) changelog_path
  = Some (String.append content (lines entries)).
Proof.
  intros Hft. revert fs content.
  induction entries as [|[[ts msg] st] entries IH]; intros fs content Hc.
  - cbn. rewrite append_empty. exact Hc.
  - cbn [log_all fst snd].
    rewrite (IH _ _ (sound_entry_on_file ft fs ts msg st content Hft Hc)).
    unfold lines. cbn [map fold_right entry_line fst snd].
    rewrite append_assoc. reflexivity.
Qed.

(** X19.  On a disk that does not fail, successive calls of
    [update_changelog] build data/changelog.csv in order: the header row
    timestamp,status,message is written once, by the call that finds no
    file, and every call adds its own row timestamp,status,message below
    what is there. *)
Theorem update_changelog_builds_history :
  forall (ft : Fs.faults) (fs : Fs.files)
         (entries : list (string * string * string)),
    (forall op, ft op = None) ->
    entries <> [] ->
    Fs.read (log_all ft fs entries) audit_file
    = Some (String.append
              (match Fs.read fs audit_file with
               | Some content => content
               | None => csv_header
               end)
              (lines entries)).
Proof.
  intros ft fs entries Hft Hne.
  change audit_file with changelog_path.
  change csv_header with changelog_header.
  destruct (Fs.read fs changelog_path) as [content|] eqn:Hc.
  - apply log_all_on_file; assumption.
  - destruct entries as [|[[ts msg] st] entries]; [contradiction Hne; reflexivity|].
    cbn [log_all fst snd].
    rewrite (log_all_on_file ft entries _ _ Hft
               (sound_entry_first ft fs ts msg st Hft Hc)).
    unfold lines. cbn [map fold_right entry_line fst snd].
    rewrite append_assoc. reflexivity.
Qed.

Lemma update_changelog_builds_history_witness :
  Fs.read (log_all Fixtures.sound_disk []
             [("2024-01-01 09:00:00", "Successful Notion update", "INFO");
              ("2024-01-01 10:00:00", "Error: rate limited", "ERROR")])
    audit_file
  = Some (String.append csv_header
            (String.append
               (csv_row "2024-01-01 09:00:00" "INFO" "Successful Notion update")
               (csv_row "2024-01-01 10:00:00" "ERROR" "Error: rate limited"))).
Proof.
  apply (update_changelog_builds_history Fixtures.sound_disk []
           [("2024-01-01 09:00:00", "Successful Notion update", "INFO");
            ("2024-01-01 10:00:00", "Error: rate limited", "ERROR")]).
  - intros op. reflexivity.
  - discriminate.
Defined.

End Audit.

(** ** The update run *)

Section UpdateRun.
Import Py Eff FsEff updater updater_run fetch_pages Spec Samples.

Variable int_of : string -> string + Z.
Variable set_level : string -> option (string * string).
Variable exn_str : exn -> string.

Lemma load_config_result (host : Host.t) :
  events (load_config int_of set_level host) = [] /\
  forall config,
    outcome (load_config int_of set_level host) = inr config ->
    exists interval, config = config_of host interval.
Proof.
  unfold load_config, config_of, changelog_enabled.
  destruct (Host.load_dotenv host "config/.env") as [e|u]; cbn;
    [split; [reflexivity | discriminate]|].
  destruct (Host.getenv host "UPDATE_INTERVAL") as [s|]; cbn.
  - destruct (int_of s) as [msg|n]; cbn; [split; [reflexivity | discriminate]|].
    destruct (set_level _) as [f|]; cbn; [split; [reflexivity | discriminate]|].
    split; [reflexivity|]. intros config H. inversion H. eexists; reflexivity.
  - destruct (set_level _) as [f|]; cbn; [split; [reflexivity | discriminate]|].
    split; [reflexivity|]. intros config H. inversion H. eexists; reflexivity.
Qed.

Lemma initialize_result (host : Host.t) (interval : json) :
  outcome (initialize_notion_client host (config_of host interval))
  = Host.new_client host (api_key host) /\
  Writes.calls (events (initialize_notion_client host (config_of host interval)))
  = [].
Proof.
  unfold initialize_notion_client, config_of, api_key. cbn.
  destruct (Host.new_client host _) as [[cls msg|]|notion]; split; reflexivity.
Qed.

Lemma update_changelog_returns (ft : Fs.faults) (fs : Fs.files)
  (timestamp message status : string) :
  outcome (fst (update_changelog ft fs timestamp message status)) = inr tt /\
  Writes.calls (events (fst (update_changelog ft fs timestamp message status)))
  = [].
Proof.
  unfold update_changelog.
  destruct (negb (Fs.exists_ fs changelog_path)).
  - destruct (with_open_write_result ft fs changelog_path "w" changelog_header)
      as [[f H1]|H1];
      destruct (Fs.with_open_write ft fs changelog_path "w" changelog_header)
      as [r1 fs1]; cbn in H1; subst r1.
    + split; reflexivity.
    + destruct (with_open_write_result ft fs1 changelog_path "a"
                  (changelog_line timestamp status message)) as [[f H2]|H2];
        destruct (Fs.with_open_write ft fs1 changelog_path "a" _) as [r2 fs2];
        cbn in H2; subst r2; split; reflexivity.
  - destruct (with_open_write_result ft fs changelog_path "a"
                (changelog_line timestamp status message)) as [[f H2]|H2];
      destruct (Fs.with_open_write ft fs changelog_path "a" _) as [r2 fs2];
      cbn in H2; subst r2; split; reflexivity.
Qed.

(** The audit step of a run: it always returns, calls nothing, and leaves
    the files as [audited] says. *)
Lemma changelog_step (host : Host.t) (interval : json) (ft : Fs.faults)
  (fs : Fs.files) (timestamp message status : string) :
  exists t,
    changelog_if_enabled ft (config_of host interval) timestamp message status fs
    = ((t, inr tt), audited host ft fs timestamp message status) /\
    Writes.calls t = [].
Proof.
  unfold changelog_if_enabled, sbind, slift, sret, changelog, audited, config_of.
  cbn. destruct (changelog_enabled host); cbn.
  - destruct (update_changelog_returns ft fs timestamp message status)
      as [Hout Hcalls].
    destruct (update_changelog ft fs timestamp message status) as [[t r] fs'].
    cbn in *. subst r. exists t. split; [reflexivity | exact Hcalls].
  - exists []. split; reflexivity.
Qed.

Lemma handler_step (host : Host.t) (interval : json) (ft : Fs.faults)
  (fs : Fs.files) (timestamp : string) (e : exn) :
  exists t,
    update_handler exn_str ft (config_of host interval) timestamp e fs
    = ((t, inl e),
       audited host ft fs timestamp (String.append "Error: " (exn_str e)) "ERROR") /\
    Writes.calls t = [].
Proof.
  unfold update_handler, sbind, slift. cbn [log].
  destruct (changelog_step host interval ft fs timestamp
              (String.append "Error: " (exn_str e)) "ERROR") as (t & -> & Hcalls).
  cbn. eexists. split; [reflexivity|].
  unfold Writes.calls in *. cbn. rewrite filter_app, Hcalls. reflexivity.
Qed.

Lemma body_step (host : Host.t) (interval : json) (notion : Client)
  (ft : Fs.faults) (fs : Fs.files) (timestamp : string) :
  let fetch := fetch_and_process (config_of host interval) notion in
  match outcome fetch with
  | inl e =>
      update_body ft (config_of host interval) notion timestamp fs
      = ((events fetch, inl e), fs)
  | inr _ =>
      exists t,
        update_body ft (config_of host interval) notion timestamp fs
        = ((events fetch ++ t, inr tt),
           audited host ft fs timestamp "Successful Notion update" "INFO") /\
        Writes.calls t = []
  end.
Proof.
  intros fetch. unfold update_body, sbind, slift. fold fetch.
  destruct fetch as [t [e|u]]; cbn [outcome events fst snd]; [reflexivity|].
  destruct (changelog_step host interval ft fs timestamp
              "Successful Notion update" "INFO") as (t' & -> & Hcalls).
  cbn. eexists. split; [reflexivity|].
  unfold Writes.calls in *. rewrite filter_app, Hcalls. reflexivity.
Qed.

Lemma run_update_eq (host : Host.t) (interval : json)
  (notion : Client) (ft : Fs.faults) (fs : Fs.files) (timestamp : string) :
  outcome (load_config int_of set_level host) = inr (config_of host interval) ->
  Host.new_client host (api_key host) = inr notion ->
  exists t0,
    Writes.calls t0 = [] /\
    forall t r fs',
      stry_except
        (update_body ft (config_of host interval) notion timestamp)
        (update_handler exn_str ft (config_of host interval) timestamp) fs
      = ((t, r), fs') ->
      run_update int_of exn_str set_level host ft timestamp fs
      = ((t0 ++ t, r), fs').
Proof.
  intros Hcfg Hnew. unfold run_update, sbind, slift. cbn [log].
  destruct (load_config_result host) as [Hev _].
  destruct (load_config int_of set_level host) as [t1 r1].
  cbn [events outcome fst snd] in Hev, Hcfg. subst t1 r1. cbv beta iota.
  destruct (initialize_result host interval) as [Hinit Hcalls2].
  destruct (initialize_notion_client host (config_of host interval)) as [t2 r2].
  cbn [events outcome fst snd] in Hinit, Hcalls2. rewrite Hnew in Hinit.
  subst r2. cbv beta iota.
  exists (Log INFO "Starting Notion AutoPilot update process" [] :: t2).
  split.
  - unfold Writes.calls in *. cbn. exact Hcalls2.
  - intros t r fs' ->. reflexivity.
Qed.

(** What a run comes to once the configuration is loaded and the client
    built: the fetch stage decides. *)
Lemma run_update_after_setup (host : Host.t) (interval : json)
  (notion : Client) (ft : Fs.faults) (fs : Fs.files) (timestamp : string) :
  outcome (load_config int_of set_level host) = inr (config_of host interval) ->
  Host.new_client host (api_key host) = inr notion ->
  let fetch := fetch_and_process (config_of host interval) notion in
  let run := run_update int_of exn_str set_level host ft timestamp fs in
  Writes.calls (events (fst run)) = Writes.calls (events fetch) /\
  match outcome fetch with
  | inl (Exception cls msg) =>
      outcome (fst run) = inl (Exception cls msg) /\
      snd run
      = audited host ft fs timestamp
          (String.append "Error: " (exn_str (Exception cls msg))) "ERROR"
  | inl KeyboardInterrupt =>
      outcome (fst run) = inl KeyboardInterrupt /\ snd run = fs
  | inr _ =>
      outcome (fst run) = inr tt /\
      snd run = audited host ft fs timestamp "Successful Notion update" "INFO"
  end.
Proof.
  intros Hcfg Hnew fetch run. subst run.
  destruct (run_update_eq host interval notion ft fs timestamp Hcfg Hnew)
    as (t0 & Hcalls0 & Hrun).
  pose proof (body_step host interval notion ft fs timestamp) as Hbody.
  cbv zeta in Hbody. fold fetch in Hbody.
  unfold stry_except in Hrun.
  destruct (outcome fetch) as [[cls msg|]|u] eqn:Hout.
  - rewrite Hbody in Hrun.
    destruct (handler_step host interval ft fs timestamp (Exception cls msg))
      as (t & Hh & Hcalls).
    rewrite Hh in Hrun. rewrite (Hrun _ _ _ eq_refl).
    cbn [fst snd events outcome]. unfold Writes.calls in *.
    rewrite !filter_app, Hcalls0, Hcalls, app_nil_r.
    split; [reflexivity | split; reflexivity].
  - rewrite Hbody in Hrun. rewrite (Hrun _ _ _ eq_refl).
    cbn [fst snd events outcome]. unfold Writes.calls in *.
    rewrite !filter_app, Hcalls0.
    split; [reflexivity | split; reflexivity].
  - destruct Hbody as (t & Hb & Hcalls). rewrite Hb in Hrun.
    rewrite (Hrun _ _ _ eq_refl).
    cbn [fst snd events outcome]. unfold Writes.calls in *.
    rewrite !filter_app, Hcalls0, Hcalls, app_nil_r.
    split; [reflexivity | split; reflexivity].
Qed.

Lemma fetch_stage (host : Host.t) (interval : json) (notion : Client) :
  let fetch := fetch_and_process (config_of host interval) notion in
  let gp := get_projects notion (projects_db host) in
  let gt := get_tasks notion (tasks_db host) in
  match outcome gp with
  | inl e =>
      outcome fetch = inl e /\
      Writes.calls (events fetch) = Writes.calls (events gp)
  | inr _ =>
      Writes.calls (events fetch)
      = Writes.calls (events gp) ++ Writes.calls (events gt) /\
      match outcome gt with
      | inl e => outcome fetch = inl e
      | inr _ => outcome fetch = inr tt
      end
  end.
Proof.
  intros fetch gp gt. subst fetch.
  unfold fetch_and_process, config_of. cbn -[get_projects get_tasks].
  fold (projects_db host) (tasks_db host). fold gp gt.
  destruct gp as [tp [e|ps]]; cbn [outcome events fst snd].
  - cbn. split; reflexivity.
  - destruct gt as [tt' [e|tsk]]; cbn [outcome events fst snd].
    + cbn. unfold Writes.calls. rewrite filter_app. split; reflexivity.
    + destruct (String.eqb _ "true"); cbn; unfold Writes.calls;
        rewrite !filter_app; cbn; rewrite app_nil_r; split; reflexivity.
Qed.

(** X20.  A run that cannot load its configuration or build its client
    fails before the [try]: the exception reaches the caller as it is,
    the store is not called and the audit file is not written. *)
Theorem run_update_setup_failure :
  forall (host : Host.t) (ft : Fs.faults) (fs : Fs.files) (timestamp : string)
         (e : exn),
    outcome (load_config int_of set_level host) = inl e \/
    (exists interval,
        outcome (load_config int_of set_level host)
          = inr (config_of host interval) /\
        Host.new_client host (api_key host) = inl e) ->
    let run := run_update int_of exn_str set_level host ft timestamp fs in
    outcome (fst run) = inl e /\
    Writes.calls (events (fst run)) = [] /\
    snd run = fs.
Proof.
  intros host ft fs timestamp e H run; subst run.
  unfold run_update, sbind, slift. cbn [log].
  destruct (load_config_result host) as [Hev _].
  destruct (load_config int_of set_level host) as [t1 r1].
  cbn [events outcome fst snd] in Hev, H. subst t1.
  destruct H as [->|(interval & -> & Hnew)]; cbv beta iota.
  - repeat split.
  - destruct (initialize_result host interval) as [Hinit Hcalls2].
    destruct (initialize_notion_client host (config_of host interval))
      as [t2 r2].
    cbn [events outcome fst snd] in Hinit, Hcalls2. rewrite Hnew in Hinit.
    subst r2. cbv beta iota. cbn [fst snd events outcome app].
    unfold Writes.calls in *. cbn. rewrite Hcalls2. repeat split.
Qed.

(** X21.  A run whose fetch stage raises an [Exception] raises it again
    after writing one error entry to the audit file (when the changelog is
    on).  When the projects cannot be fetched the tasks are not queried
    at all. *)
Theorem run_update_fetch_failure :
  forall (host : Host.t) (interval : json) (notion : Client) (ft : Fs.faults)
         (fs : Fs.files) (timestamp cls msg : string),
    outcome (load_config int_of set_level host) = inr (config_of host interval) ->
    Host.new_client host (api_key host) = inr notion ->
    let run := run_update int_of exn_str set_level host ft timestamp fs in
    let gp := get_projects notion (projects_db host) in
    let gt := get_tasks notion (tasks_db host) in
    let failed :=
      outcome (fst run) = inl (Exception cls msg) /\
      snd run
      = audited host ft fs timestamp
          (String.append "Error: " (exn_str (Exception cls msg))) "ERROR" in
    (outcome gp = inl (Exception cls msg) ->
     failed /\ Writes.calls (events (fst run)) = Writes.calls (events gp)) /\
    (forall projects,
        outcome gp = inr projects ->
        outcome gt = inl (Exception cls msg) ->
        failed /\
        Writes.calls (events (fst run))
        = Writes.calls (events gp) ++ Writes.calls (events gt)).
Proof.
  intros host interval notion ft fs timestamp cls msg Hcfg Hnew run gp gt failed.
  subst failed run.
  destruct (run_update_after_setup host interval notion ft fs timestamp Hcfg Hnew)
    as [Hcalls Hcase].
  pose proof (fetch_stage host interval notion) as Hfetch.
  cbv zeta in Hfetch. fold gp gt in Hfetch.
  split.
  - intros Hp. rewrite Hp in Hfetch. destruct Hfetch as [Hout Hc].
    rewrite Hout in Hcase. rewrite Hcalls, Hc. split; [exact Hcase | reflexivity].
  - intros projects Hp Ht. rewrite Hp, Ht in Hfetch. destruct Hfetch as [Hc Hout].
    rewrite Hout in Hcase. rewrite Hcalls, Hc. split; [exact Hcase | reflexivity].
Qed.

(** X22.  A run whose two fetches return ends normally, after exactly
    the calls of [get_projects] followed by those of [get_tasks], and
    leaves one entry, Successful Notion update, in the audit file (when
    the changelog is on). *)
Theorem run_update_success :
  forall (host : Host.t) (interval : json) (notion : Client) (ft : Fs.faults)
         (fs : Fs.files) (timestamp : string) (projects tasks : json),
    outcome (load_config int_of set_level host) = inr (config_of host interval) ->
    Host.new_client host (api_key host) = inr notion ->
    outcome (get_projects notion (projects_db host)) = inr projects ->
    outcome (get_tasks notion (tasks_db host)) = inr tasks ->
    let run := run_update int_of exn_str set_level host ft timestamp fs in
    outcome (fst run) = inr tt /\
    snd run = audited host ft fs timestamp "Successful Notion update" "INFO" /\
    Writes.calls (events (fst run))
    = Writes.calls (events (get_projects notion (projects_db host)))
      ++ Writes.calls (events (get_tasks notion (tasks_db host))).
Proof.
  intros host interval notion ft fs timestamp projects tasks Hcfg Hnew Hp Ht run.
  subst run.
  destruct (run_update_after_setup host interval notion ft fs timestamp Hcfg Hnew)
    as [Hcalls Hcase].
  pose proof (fetch_stage host interval notion) as Hfetch.
  cbv zeta in Hfetch. rewrite Hp, Ht in Hfetch. destruct Hfetch as [Hc Hout].
  rewrite Hout in Hcase. rewrite Hcalls, Hc.
  destruct Hcase as [H1 H2]. repeat split; assumption.
Qed.

(** X23.  The disk has no say in a run: whatever the audit file holds
    and whichever file operations fail, [run_update] returns or raises
    the same, and issues the same calls. *)
Theorem run_update_ignores_disk :
  forall (host : Host.t) (timestamp : string) (ft ft' : Fs.faults)
         (fs fs' : Fs.files),
    outcome (fst (run_update int_of exn_str set_level host ft timestamp fs))
    = outcome (fst (run_update int_of exn_str set_level host ft' timestamp fs')) /\
    Writes.calls (events (fst (run_update int_of exn_str set_level host ft timestamp fs)))
    = Writes.calls
        (events (fst (run_update int_of exn_str set_level host ft' timestamp fs'))).
Proof.
  intros host timestamp ft ft' fs fs'.
  destruct (outcome (load_config int_of set_level host)) as [e|config] eqn:Hcfg.
  - destruct (run_update_setup_failure host ft fs timestamp e (or_introl Hcfg))
      as (-> & -> & _).
    destruct (run_update_setup_failure host ft' fs' timestamp e (or_introl Hcfg))
      as (-> & -> & _).
    split; reflexivity.
  - destruct (load_config_result host) as [_ Hshape].
    destruct (Hshape config Hcfg) as [interval ->].
    destruct (Host.new_client host (api_key host)) as [e|notion] eqn:Hnew.
    + assert (H : outcome (load_config int_of set_level host) = inl e \/
                  (exists interval0,
                      outcome (load_config int_of set_level host)
                        = inr (config_of host interval0) /\
                      Host.new_client host (api_key host) = inl e))
        by (right; exists interval; split; assumption).
      destruct (run_update_setup_failure host ft fs timestamp e H)
        as (-> & -> & _).
      destruct (run_update_setup_failure host ft' fs' timestamp e H)
        as (-> & -> & _).
      split; reflexivity.
    + destruct (run_update_after_setup host interval notion ft fs timestamp
                  Hcfg Hnew) as [-> H1].
      destruct (run_update_after_setup host interval notion ft' fs' timestamp
                  Hcfg Hnew) as [-> H2].
      split; [|reflexivity].
      destruct (outcome (fetch_and_process (config_of host interval) notion))
        as [[cls msg|]|u];
        destruct H1 as [-> _]; destruct H2 as [-> _]; reflexivity.
Qed.

End UpdateRun.

Lemma run_update_setup_failure_witness :
  let host := Samples.host_with Samples.bad_interval
                (Samples.refusing Samples.rate_limited) in
  let run := updater_run.run_update Samples.sample_int Samples.message_of
               Samples.any_level host Fixtures.sound_disk
               "2024-01-01 10:00:00" [] in
  Eff.outcome (fst run)
  = inl (Py.Exception "ValueError"
           "invalid literal for int() with base 10: 'soon'") /\
  Writes.calls (Eff.events (fst run)) = [] /\
  snd run = [].
Proof.
  apply (run_update_setup_failure Samples.sample_int Samples.any_level
           Samples.message_of).
  left. reflexivity.
Defined.

Lemma run_update_fetch_failure_witness :
  (let host := Samples.host_with Samples.no_environment
                 (Samples.refusing Samples.rate_limited) in
   let run := updater_run.run_update Samples.sample_int Samples.message_of
                Samples.any_level host Fixtures.sound_disk
                "2024-01-01 10:00:00" [] in
   Eff.outcome (fst run) = inl Samples.rate_limited /\
   snd run = Samples.audited host Fixtures.sound_disk [] "2024-01-01 10:00:00"
               "Error: rate limited" "ERROR" /\
   Writes.calls (Eff.events (fst run))
   = [Eff.Call Eff.databases_query (Views.projects_query Py.JNull)]) /\
  (let host := Samples.host_with Samples.two_tables
                 (Samples.projects_only [Samples.project_row]
                    Samples.rate_limited) in
   let run := updater_run.run_update Samples.sample_int Samples.message_of
                Samples.any_level host Fixtures.full_disk
                "2024-01-01 10:00:00" [] in
   Eff.outcome (fst run) = inl Samples.rate_limited /\
   snd run = Samples.audited host Fixtures.full_disk [] "2024-01-01 10:00:00"
               "Error: rate limited" "ERROR" /\
   Writes.calls (Eff.events (fst run))
   = [Eff.Call Eff.databases_query
        (Views.projects_query (Py.JStr "db-projects"));
      Eff.Call Eff.databases_query
        (Views.tasks_query (Py.JStr "db-tasks"))]).
Proof.
  split.
  - destruct (run_update_fetch_failure Samples.sample_int Samples.any_level
                Samples.message_of
                (Samples.host_with Samples.no_environment
                   (Samples.refusing Samples.rate_limited))
                (Py.JInt 60) (Samples.refusing Samples.rate_limited)
                Fixtures.sound_disk [] "2024-01-01 10:00:00"
                "APIResponseError" "rate limited" eq_refl eq_refl)
      as [H _].
    destruct (H eq_refl) as [[Ho Hs] Hc].
    split; [exact Ho | split; [exact Hs | rewrite Hc; reflexivity]].
  - destruct (run_update_fetch_failure Samples.sample_int Samples.any_level
                Samples.message_of
                (Samples.host_with Samples.two_tables
                   (Samples.projects_only [Samples.project_row]
                      Samples.rate_limited))
                (Py.JInt 60)
                (Samples.projects_only [Samples.project_row]
                   Samples.rate_limited)
                Fixtures.full_disk [] "2024-01-01 10:00:00"
                "APIResponseError" "rate limited" eq_refl eq_refl)
      as [_ H].
    destruct (H _ eq_refl eq_refl) as [[Ho Hs] Hc].
    split; [exact Ho | split; [exact Hs | rewrite Hc; reflexivity]].
Defined.

Lemma run_update_success_witness :
  let host := Samples.host_with Samples.two_tables
                (Samples.listing [Samples.project_row; Samples.task_row]) in
  let run := updater_run.run_update Samples.sample_int Samples.message_of
               Samples.any_level host Fixtures.sound_disk
               "2024-01-01 10:00:00" [] in
  Eff.outcome (fst run) = inr tt /\
  snd run = [(Samples.audit_file,
              String.append Samples.csv_header
                (Samples.csv_row "2024-01-01 10:00:00" "INFO"
                   "Successful Notion update"))] /\
  Writes.calls (Eff.events (fst run))
  = [Eff.Call Eff.databases_query
       (Views.projects_query (Py.JStr "db-projects"));
     Eff.Call Eff.databases_query
       (Views.tasks_query (Py.JStr "db-tasks"))].
Proof.
  destruct (run_update_success Samples.sample_int Samples.any_level
              Samples.message_of
              (Samples.host_with Samples.two_tables
                 (Samples.listing [Samples.project_row; Samples.task_row]))
              (Py.JInt 60)
              (Samples.listing [Samples.project_row; Samples.task_row])
              Fixtures.sound_disk [] "2024-01-01 10:00:00" _ _
              eq_refl eq_refl eq_refl eq_refl)
    as (Ho & Hs & Hc).
  split; [exact Ho | split; [rewrite Hs; reflexivity | rewrite Hc; reflexivity]].
Defined.

(** ** More on the refresh cycle and the scheduler *)

Section SchedulerMore.
Import Py Eff Schema basic_operations scheduled_refresh Spec Views Samples.

Lemma listed_error (rows : list row) (e : exn) :
  snd (listed rows) = inl e -> e = no_text_field.
Proof.
  induction rows as [|r rows IH]; cbn; [discriminate|].
  destruct (first_title (row_cells r)) as [e'|title] eqn:E; cbn.
  - intros H; inversion H; subst. clear - E.
    induction (row_cells r) as [|[n v] cells IHc]; cbn in E; [discriminate|].
    destruct v as [[|[s|s|s] runs]|runs|o|o|ns|o|ids]; auto; congruence.
  - exact IH.
Qed.

Lemma listed_calls (rows : list row) :
  Writes.calls (fst (listed rows)) = [].
Proof.
  induction rows as [|r rows IH]; [reflexivity|]. cbn.
  destruct (first_title (row_cells r)); [reflexivity | exact IH].
Qed.

(** X24.  A cycle on a host that names a projects table queries that
    table once, by its identifier alone, and writes nothing to the store.
    When every listed row can be titled it logs how many rows came back
    and returns [True].  When the title of a listed row starts with a
    mention or an equation, the listing raises [KeyError]: the cycle logs
    the rows listed before it and the error, and returns [False]. *)
Theorem perform_refresh_lists_projects :
  forall (host : Host.t) (notion : Client) (db : string) (rows : list row)
         (now : nat),
    Host.load_dotenv host "config/.env" = inr tt ->
    Host.new_client host (opt_json (Host.getenv host "NOTION_API_KEY"))
      = inr notion ->
    Host.getenv host "NOTION_PROJECTS_DB" = Some db ->
    db <> "" ->
    notion databases_query [("database_id", JStr db)] = inr (query_json rows) ->
    let m := perform_refresh host now in
    let listing :=
      [refresh_started now;
       Log INFO "Refreshing projects database" [];
       Log INFO "Fetching items from database {database_id}" [AJson (JStr db)];
       listing_query (JStr db);
       Log INFO "Found {len(items)} items" [AInt (List.length rows)]]
      ++ fst (listed rows) in
    Writes.calls (events m) = [listing_query (JStr db)] /\
    match snd (listed rows) with
    | inr _ =>
        outcome m = inr true /\
        events m
        = listing
          ++ [Log INFO "Found {len(projects)} projects" [AInt (List.length rows)];
              Log INFO "Refresh completed successfully" []]
    | inl _ =>
        outcome m = inr false /\
        events m = listing ++ [refresh_error no_text_field]
    end.
Proof.
  intros host notion db rows now Hload Hnew Hdb Hne Hq m listing;
    subst m listing.
  apply str_truthy_true in Hne. unfold str_truthy in Hne.
  unfold perform_refresh, refresh_body, load_config, initialize_notion_client,
    refresh_started, refresh_error.
  rewrite Hload. cbn -[list_database_items]. rewrite Hnew.
  cbn -[list_database_items]. rewrite Hdb. cbn -[list_database_items].
  rewrite Hne. rewrite (list_database_items_eq notion (JStr db) rows Hq).
  pose proof (listed_error rows) as Herr.
  pose proof (listed_calls rows) as Hcalls.
  destruct (listed rows) as [t [e|u]]; cbn [fst snd] in *.
  - rewrite (Herr e eq_refl). cbn. unfold Writes.calls in *.
    rewrite !filter_app, Hcalls. split; [reflexivity|].
    split; [reflexivity|]. rewrite <- ?app_assoc. reflexivity.
  - cbn. rewrite length_map. unfold Writes.calls in *. cbn.
    rewrite !filter_app, Hcalls. split; [reflexivity|].
    split; [reflexivity|]. rewrite <- ?app_assoc. reflexivity.
Qed.

Lemma perform_refresh_lists_projects_witness :
  (let m := perform_refresh Fixtures.healthy_host 0 in
   outcome m = inr true /\
   Writes.calls (events m) = [listing_query (JStr "db-1")] /\
   events m
   = [refresh_started 0;
      Log INFO "Refreshing projects database" [];
      Log INFO "Fetching items from database {database_id}" [AJson (JStr "db-1")];
      listing_query (JStr "db-1");
      Log INFO "Found {len(items)} items" [AInt 1];
      listing_line "Test Entry" "row-1";
      Log INFO "Found {len(projects)} projects" [AInt 1];
      Log INFO "Refresh completed successfully" []]) /\
  (let m := perform_refresh
              (host_with Fixtures.environment (listing [prompt_row])) 0 in
   outcome m = inr false /\
   events m
   = [refresh_started 0;
      Log INFO "Refreshing projects database" [];
      Log INFO "Fetching items from database {database_id}" [AJson (JStr "db-1")];
      listing_query (JStr "db-1");
      Log INFO "Found {len(items)} items" [AInt 1];
      refresh_error no_text_field]).
Proof.
  split.
  - destruct (perform_refresh_lists_projects Fixtures.healthy_host
                (Fixtures.store Fixtures.table Fixtures.entry) "db-1"
                [Fixtures.entry] 0) as [Hcalls [Hout Hev]];
      try reflexivity; [discriminate|].
    split; [exact Hout|]. split; [exact Hcalls | exact Hev].
  - destruct (perform_refresh_lists_projects
                (host_with Fixtures.environment (listing [prompt_row]))
                (listing [prompt_row]) "db-1" [prompt_row] 0)
      as [_ [Hout Hev]]; try reflexivity; [discriminate|].
    split; [exact Hout | exact Hev].
Defined.

(** X25.  A cycle on a host whose projects table is not named, or named
    by the empty string, returns [True] without calling the store at
    all: it logs its start and its completion and nothing else. *)
Theorem perform_refresh_without_projects_table :
  forall (host : Host.t) (notion : Client) (now : nat),
    Host.load_dotenv host "config/.env" = inr tt ->
    Host.new_client host (opt_json (Host.getenv host "NOTION_API_KEY"))
      = inr notion ->
    Host.getenv host "NOTION_PROJECTS_DB" = None \/
    Host.getenv host "NOTION_PROJECTS_DB" = Some "" ->
    perform_refresh host now
    = ([refresh_started now; Log INFO "Refresh completed successfully" []],
       inr true).
Proof.
  intros host notion now Hload Hnew Hdb.
  unfold perform_refresh, refresh_body, load_config, initialize_notion_client,
    refresh_started.
  rewrite Hload. cbn. rewrite Hnew. cbn.
  destruct Hdb as [-> | ->]; reflexivity.
Qed.

Lemma perform_refresh_without_projects_table_witness :
  perform_refresh (host_with no_environment (refusing rate_limited)) 7
  = ([refresh_started 7; Log INFO "Refresh completed successfully" []],
     inr true).
Proof.
  apply (perform_refresh_without_projects_table
           (host_with no_environment (refusing rate_limited))
           (refusing rate_limited) 7); [reflexivity | reflexivity |].
  left. reflexivity.
Defined.

Lemma loop_interrupted_sleep (k : nat) :
  forall (fuel : nat) (w : World) (st : sched),
    (forall c, quiet_host (cycle_host w c)) ->
    (forall j, turns st <= j -> j < turns st + k -> sleep_interrupted w j = false) ->
    sleep_interrupted w (turns st + k) = true ->
    k < fuel ->
    exists st',
      loop fuel w st = (Returned, st') /\
      turns st' = turns st + k /\
      exists t, logged st' = t ++ [scheduler_stopped].
Proof.
  induction k as [|k IH]; intros fuel w st Hq Hcalm Hint Hfuel;
    (destruct fuel as [|fuel]; [lia|]); cbn [loop];
    destruct (run_pending_quiet w st Hq) as (st1 & -> & Ht);
    unfold sleep1; rewrite Ht.
  - rewrite Nat.add_0_r in Hint. rewrite Hint.
    eexists; split; [reflexivity|]. cbn. split; [lia|].
    exists (logged st1). reflexivity.
  - rewrite (Hcalm (turns st)) by lia.
    match goal with |- context [loop fuel w ?s] => set (st2 := s) end.
    destruct (IH fuel w st2 Hq) as (st' & Hl & Hturns & Hlog).
    + subst st2; cbn [turns]. intros j H1 H2. apply Hcalm; lia.
    + subst st2; cbn [turns]. replace (S (turns st) + k) with (turns st + S k) by lia.
      exact Hint.
    + lia.
    + exists st'. split; [exact Hl|]. split; [|exact Hlog].
      rewrite Hturns. subst st2; cbn [turns]. lia.
Qed.

(** X26.  An interrupt that arrives while the scheduler sleeps ends
    [start_scheduler] with a plain return: when the first interrupt
    comes in the sleep of turn [i], the scheduler has completed [i]
    turns, and its last record is Scheduler stopped by user. *)
Theorem scheduler_interrupt_during_sleep :
  forall (fuel : nat) (w : World) (interval_minutes i : nat),
    (forall c, quiet_host (cycle_host w c)) ->
    (forall j, j < i -> sleep_interrupted w j = false) ->
    sleep_interrupted w i = true ->
    i < fuel ->
    let run := start_scheduler fuel w interval_minutes in
    fst run = Returned /\
    turns (snd run) = i /\
    exists t, logged (snd run) = t ++ [scheduler_stopped].
Proof.
  intros fuel w n i Hq Hcalm Hint Hfuel run; subst run.
  unfold start_scheduler.
  destruct (start_eq w n) as [t0 ->].
  destruct (perform_refresh_quiet _ 0 (Hq 0)) as [b ->].
  match goal with |- context [loop fuel w ?s] => set (st := s) end.
  destruct (loop_interrupted_sleep i fuel w st Hq) as (st' & -> & Hturns & Hlog).
  - subst st; cbn [turns add_log]. intros j _ Hj. apply Hcalm. lia.
  - subst st; cbn [turns add_log]. exact Hint.
  - exact Hfuel.
  - cbn [fst snd]. split; [reflexivity|]. split; [|exact Hlog].
    rewrite Hturns. subst st; reflexivity.
Qed.

Lemma scheduler_interrupt_during_sleep_witness :
  let run := start_scheduler 10 (Fixtures.interrupted_at 3 Fixtures.healthy_host) 1 in
  fst run = Returned /\
  turns (snd run) = 3 /\
  exists t, logged (snd run) = t ++ [scheduler_stopped].
Proof.
  apply (scheduler_interrupt_during_sleep 10
           (Fixtures.interrupted_at 3 Fixtures.healthy_host) 1 3).
  - intros c. exact healthy_host_quiet.
  - intros j Hj. destruct j as [|[|[|j]]]; [reflexivity | reflexivity | reflexivity | lia].
  - reflexivity.
  - lia.
Defined.

(** X27.  The first refresh runs outside the [try] of [start_scheduler]:
    an interrupt that arrives during it is not caught.  The scheduler
    raises [KeyboardInterrupt] before its loop has started, and logs
    nothing after the records of that refresh. *)
Theorem scheduler_initial_refresh_interrupt :
  forall (fuel : nat) (w : World) (interval_minutes : nat),
    outcome (perform_refresh (cycle_host w 0) 0) = inl KeyboardInterrupt ->
    let run := start_scheduler fuel w interval_minutes in
    fst run = Raised KeyboardInterrupt /\
    turns (snd run) = 0 /\
    logged (snd run)
    = scheduler_header interval_minutes
      ++ events (perform_refresh (cycle_host w 0) 0).
Proof.
  intros fuel w n Hint run; subst run.
  unfold start_scheduler, start. rewrite run_job_eq. cbn [cycles clock].
  rewrite Hint. repeat split.
Qed.

Lemma scheduler_initial_refresh_interrupt_witness :
  let run := start_scheduler 10 (Fixtures.calm interrupting_host) 60 in
  fst run = Raised KeyboardInterrupt /\
  turns (snd run) = 0 /\
  logged (snd run) = scheduler_header 60 ++ [refresh_started 0].
Proof.
  apply (scheduler_initial_refresh_interrupt 10
           (Fixtures.calm interrupting_host) 60).
  reflexivity.
Defined.

Lemma loop_rate (fuel : nat) :
  forall (w : World) (st : sched) (P : nat) (nr : Z),
    jobs st = [{| period := P; next_run := nr |}] ->
    (Z.of_nat (P * cycles st) <= nr)%Z ->
    (nr <= Z.of_nat (clock st + P))%Z ->
    P * cycles (snd (loop fuel w st)) <= clock (snd (loop fuel w st)) + P.
Proof.
  induction fuel as [|fuel IH]; intros w st P nr Hj H1 H2; cbn [loop snd];
    [lia|].
  rewrite (run_pending_single w st _ Hj). unfold should_run. cbn [next_run].
  destruct (Z.leb_spec nr (Z.of_nat (clock st))) as [Hdue|Hnot].
  - rewrite run_job_eq.
    destruct (outcome (perform_refresh _ _)) as [[cls msg|]|b];
      cbn [snd add_log cycles clock].
    + lia.
    + lia.
    + unfold sleep1, reschedule_job. cbn [turns clock jobs cycles logged].
      destruct (sleep_interrupted w (turns st)); cbn [snd add_log cycles clock].
      * lia.
      * match goal with |- context [loop fuel w ?s] => set (st2 := s) end.
        apply (IH w st2 P (Z.of_nat (clock st + cycle_elapsed w (cycles st) + P)));
          subst st2; cbn [jobs cycles clock].
        -- rewrite Hj. reflexivity.
        -- lia.
        -- lia.
  - unfold sleep1.
    destruct (sleep_interrupted w (turns st)); cbn [snd add_log cycles clock].
    + lia.
    + match goal with |- context [loop fuel w ?s] => set (st2 := s) end.
      apply (IH w st2 P nr); subst st2; cbn [jobs cycles clock];
        [exact Hj | lia | lia].
Qed.

(** X28.  On the first call of [start_scheduler] in a process, with an
    interval of at least one minute, the scheduler never runs cycles
    faster than its interval, however long the cycles take and however
    they end: whenever it is observed, the cycles started so far, the
    first refresh included, number at most one more than the whole
    intervals on the clock. *)
Theorem scheduler_rate_bound :
  forall (fuel : nat) (w : World) (interval_minutes : nat),
    1 <= interval_minutes ->
    registered w = [] ->
    let st := snd (start_scheduler fuel w interval_minutes) in
    60 * interval_minutes * cycles st <= clock st + 60 * interval_minutes.
Proof.
  intros fuel w n Hn Hreg st; subst st.
  unfold start_scheduler, start. rewrite run_job_eq, Hreg.
  destruct (outcome (perform_refresh _ _)) as [e|b]; cbn [snd cycles clock].
  - lia.
  - match goal with |- context [loop fuel w ?s] => set (st1 := s) end.
    apply (loop_rate fuel w st1 (60 * n) (Z.of_nat (0 + 60 * n)));
      subst st1; cbn [add_log jobs cycles clock]; [reflexivity | lia | lia].
Qed.

Lemma scheduler_rate_bound_witness :
  let st := snd (start_scheduler 300 (Fixtures.slow 5 Fixtures.failing_host) 1) in
  60 * 1 * cycles st <= clock st + 60 * 1.
Proof.
  apply (scheduler_rate_bound 300 (Fixtures.slow 5 Fixtures.failing_host) 1).
  - lia.
  - reflexivity.
Defined.

End SchedulerMore.
